(** * DocAligner: standards resolution, deterministic validation and the
      compatibility-gated decision flow

    A shallow embedding of
      - [backend/app/models/standard.py], [backend/app/models/folder_document.py]
      - [backend/app/services/inheritance_service.py]
      - [backend/app/api/v1/endpoints/assignments.py],
        [backend/app/services/standard_service.py]
      - [backend/app/services/validation_service.py]
      - [backend/app/services/decision_flow_service.py]
    followed by the properties of the specification that concern them. *)

From Stdlib Require Import ZArith NArith QArith String Ascii List Bool Lia.
From Stdlib.Strings Require Import Byte.
From stdpp Require Import base option list gmap strings.

Set Warnings "-register-all".

Local Open Scope string_scope.
Local Open Scope list_scope.

(* ===================================================================== *)
(** * Python values used by the services *)
(* ===================================================================== *)

Module Py.

(** A [str] is held as its UTF-8 encoding, one [ascii] per byte: prefix,
    suffix and substring tests and equality are those of the code points;
    length and whitespace are counted in code points below. *)

(** [s.startswith(p)] *)
Definition startswith (s p : string) : bool := String.prefix p s.

(** [s.endswith(suf)] *)
Definition endswith (s suf : string) : bool :=
  let n := String.length s in
  let m := String.length suf in
  if (m <=? n)%nat then String.eqb (String.substring (n - m) m s) suf else false.

(** [sub in s] on strings. *)
Fixpoint contains (sub s : string) : bool :=
  String.prefix sub s
  || match s with
     | EmptyString => false
     | String _ s' => contains sub s'
     end.

Definition lower_ascii (c : ascii) : ascii :=
  let n := nat_of_ascii c in
  if ((65 <=? n) && (n <=? 90))%nat then ascii_of_nat (n + 32) else c.

(** [s.lower()]; characters outside A-Z are left alone. *)
Fixpoint lower (s : string) : string :=
  match s with
  | EmptyString => EmptyString
  | String c s' => String (lower_ascii c) (lower s')
  end.

(** The whitespace of [str.isspace]: U+0009..U+000D, U+001C..U+0020,
    U+0085, U+00A0, U+1680, U+2000..U+200A, U+2028, U+2029, U+202F, U+205F
    and U+3000.  The ten below U+0080 are one byte each. *)
Definition is_space (c : ascii) : bool :=
  let n := nat_of_ascii c in
  ((9 <=? n) && (n <=? 13) || (28 <=? n) && (n <=? 32))%nat.

(** U+0085 is C2 85 and U+00A0 is C2 A0. *)
Definition is_space2 (c1 c2 : ascii) : bool :=
  let n1 := nat_of_ascii c1 in
  let n2 := nat_of_ascii c2 in
  ((n1 =? 194) && ((n2 =? 133) || (n2 =? 160)))%nat.

(** U+1680 is E1 9A 80; U+2000..U+200A are E2 80 80..8A; U+2028, U+2029
    and U+202F are E2 80 A8, A9 and AF; U+205F is E2 81 9F; U+3000 is
    E3 80 80. *)
Definition is_space3 (c1 c2 c3 : ascii) : bool :=
  let n1 := nat_of_ascii c1 in
  let n2 := nat_of_ascii c2 in
  let n3 := nat_of_ascii c3 in
  ((n1 =? 225) && (n2 =? 154) && (n3 =? 128)
   || (n1 =? 226) && (n2 =? 128)
      && ((128 <=? n3) && (n3 <=? 138) || (n3 =? 168) || (n3 =? 169)
          || (n3 =? 175))
   || (n1 =? 226) && (n2 =? 129) && (n3 =? 159)
   || (n1 =? 227) && (n2 =? 128) && (n3 =? 128))%nat.

(** [s.lstrip()] *)
Fixpoint lstrip (s : string) : string :=
  match s with
  | EmptyString => EmptyString
  | String c1 s1 =>
      if is_space c1 then lstrip s1
      else
        match s1 with
        | EmptyString => s
        | String c2 s2 =>
            if is_space2 c1 c2 then lstrip s2
            else
              match s2 with
              | EmptyString => s
              | String c3 s3 => if is_space3 c1 c2 c3 then lstrip s3 else s
              end
        end
  end.

(** The characters of a string from its end, with the whitespace at the
    end removed. *)
Fixpoint rstrip_reversed (l : list ascii) : list ascii :=
  match l with
  | [] => []
  | c1 :: l1 =>
      if is_space c1 then rstrip_reversed l1
      else
        match l1 with
        | [] => l
        | c2 :: l2 =>
            if is_space2 c2 c1 then rstrip_reversed l2
            else
              match l2 with
              | [] => l
              | c3 :: l3 =>
                  if is_space3 c3 c2 c1 then rstrip_reversed l3 else l
              end
        end
  end.

(** [s.rstrip()] *)
Definition rstrip (s : string) : string :=
  string_of_list_ascii
    (rev (rstrip_reversed (rev (list_ascii_of_string s)))).

(** [s.strip()] *)
Definition strip (s : string) : string := rstrip (lstrip s).

(** [len(s)]: the number of code points, that is of the bytes that are
    not continuation bytes (10xxxxxx). *)
Fixpoint len (s : string) : nat :=
  match s with
  | EmptyString => 0
  | String c s' =>
      let n := nat_of_ascii c in
      if ((128 <=? n) && (n <=? 191))%nat then len s' else S (len s')
  end.

(** [b.startswith(p)] on [bytes]. *)
Fixpoint bytes_startswith (b p : list byte) : bool :=
  match p, b with
  | [], _ => true
  | _ :: _, [] => false
  | x :: p', y :: b' => Byte.eqb x y && bytes_startswith b' p'
  end.

(** A value decoded from JSON (the [rules_json] column, oracle replies);
    a number is an integer or a finite float, hence a rational. *)
Inductive json : Type :=
| JNull
| JBool (b : bool)
| JNum (q : Q)
| JStr (s : string)
| JList (l : list json)
| JDict (d : list (string * json)).

(** [d[k]] / [k in d] on the items of a dict, in insertion order. *)
Fixpoint dict_get (k : string) (d : list (string * json)) : option json :=
  match d with
  | [] => None
  | (k', v) :: d' => if String.eqb k k' then Some v else dict_get k d'
  end.

(** [doc_value != rule_value] where the left side is always a [str]. *)
Definition str_ne (s : string) (v : json) : bool :=
  match v with
  | JStr s' => negb (String.eqb s s')
  | _ => true
  end.

(** Truthiness of an optional string ([None] and [""] are falsy). *)
Definition truthy (o : option string) : bool :=
  match o with
  | Some (String _ _) => true
  | _ => false
  end.

End Py.

(* ===================================================================== *)
(** * The persisted entities *)
(* ===================================================================== *)

Module Store.
Import Py.

(** [uuid.UUID]; such an object is truthy whatever its value. *)
Abbreviation uuid := N (only parsing).

Inductive TargetType : Set := FOLDER | DOCUMENT.

#[global] Instance TargetType_eq_dec : EqDecision TargetType.
Proof. solve_decision. Defined.

Record StandardVersion : Type := {
  standard_id : uuid;
  version_number : Z;
  rules_json : json;
  is_active : bool
}.

(** A row of [standardassignment].  The primary key and the timestamps
    take part in no query below; a row is identified by its position in
    the table. *)
Record StandardAssignment : Set := {
  target_id : uuid;
  target_type : TargetType;
  standard_version_id : uuid
}.

#[global] Instance StandardAssignment_eq_dec : EqDecision StandardAssignment.
Proof. solve_decision. Defined.

Record Folder : Set := {
  folder_name : string;
  parent_id : option uuid
}.

Record Document : Set := {
  filename : string;
  minio_version_id : option string;
  hash : string;
  folder_id : option uuid
}.

(** The database as the services see it: [db.get(Model, id)] is a lookup
    by primary key, [select(StandardAssignment)] scans the rows in table
    order. *)
Record Db : Type := {
  versions : gmap N StandardVersion;
  folders : gmap N Folder;
  documents : gmap N Document;
  assignments : list StandardAssignment
}.

(** [WHERE target_id == tid AND target_type == tty] *)
Definition on_target (tid : uuid) (tty : TargetType) (a : StandardAssignment) : bool :=
  bool_decide (target_id a = tid) && bool_decide (target_type a = tty).

(** [db.execute(select(StandardAssignment).where(...)).scalars().first()] *)
Definition select_assignment (db : Db) (tid : uuid) (tty : TargetType)
  : option StandardAssignment :=
  List.find (on_target tid tty) (assignments db).

(** [db.get(StandardVersion, a.standard_version_id)] *)
Definition get_version (db : Db) (a : StandardAssignment) : option StandardVersion :=
  versions db !! standard_version_id a.


(** Some row binds the target. *)
Definition has_assignment (db : Db) (tid : uuid) (tty : TargetType) : Prop :=
  exists a, In a (assignments db) /\ target_id a = tid /\ target_type a = tty.

(** Number of rows that bind the target. *)
Definition rows_for (rows : list StandardAssignment) (tid : uuid) (tty : TargetType) : nat :=
  length (List.filter (on_target tid tty) rows).

End Store.

(* ===================================================================== *)
(** * inheritance_service.py *)
(* ===================================================================== *)

Module Inheritance.
Import Py Store.

(** What a run of the resolver has produced once [fuel] iterations of its
    [while] loop have been allowed. *)
Inductive outcome (A : Type) : Type :=
| Returns (a : A)
| StillWalking.
Arguments Returns {A} a.
Arguments StillWalking {A}.

(** Step 2 of [get_effective_standard_version]: where the walk starts. *)
Definition start_folder (db : Db) (target_id : uuid) (target_type : TargetType)
  : option uuid :=
  match target_type with
  | DOCUMENT =>
      match documents db !! target_id with
      | Some doc => folder_id doc
      | None => None
      end
  | FOLDER =>
      match folders db !! target_id with
      | Some folder => parent_id folder
      | None => None
      end
  end.

(** [while current_folder_id: ...]; the source has no iteration bound, the
    [fuel] only makes the loop a structural recursion. *)
Fixpoint walk (fuel : nat) (db : Db) (current_folder_id : option uuid)
  : outcome (option StandardVersion) :=
  match current_folder_id with
  | None => Returns None
  | Some cur =>
      match fuel with
      | O => StillWalking
      | S fuel' =>
          match select_assignment db cur FOLDER with
          | Some assignment => Returns (get_version db assignment)
          | None =>
              match folders db !! cur with
              | None => Returns None
              | Some folder => walk fuel' db (parent_id folder)
              end
          end
      end
  end.

Definition get_effective_standard_version
    (fuel : nat) (db : Db) (target_id : uuid) (target_type : TargetType)
  : outcome (option StandardVersion) :=
  match select_assignment db target_id target_type with
  | Some assignment => Returns (get_version db assignment)
  | None => walk fuel db (start_folder db target_id target_type)
  end.

(** ** The specification's vocabulary *)

(** The chain of folder ids above a starting point, nearest first, written
    from the specification's "walk ancestors upward ... until the root":
    it ends at a folder without parent, or at an id that has no Folder
    row.  A finite chain exists exactly when no cycle is met. *)
Inductive ancestors (db : Db) : option uuid -> list uuid -> Prop :=
| anc_none : ancestors db None []
| anc_dangling c :
    folders db !! c = None -> ancestors db (Some c) [c]
| anc_step c folder l :
    folders db !! c = Some folder ->
    ancestors db (parent_id folder) l ->
    ancestors db (Some c) (c :: l).


(** The assignment on the nearest folder of a chain that has one. *)
Fixpoint nearest (db : Db) (l : list uuid) : option StandardAssignment :=
  match l with
  | [] => None
  | c :: l' =>
      match select_assignment db c FOLDER with
      | Some a => Some a
      | None => nearest db l'
      end
  end.

(** The walk from this point comes to an end: it meets an assigned folder,
    an id without Folder row, or runs past a root. *)
Inductive stops (db : Db) : option uuid -> Prop :=
| stops_none : stops db None
| stops_assigned c a :
    select_assignment db c FOLDER = Some a -> stops db (Some c)
| stops_dangling c :
    folders db !! c = None -> stops db (Some c)
| stops_step c folder :
    folders db !! c = Some folder ->
    stops db (parent_id folder) ->
    stops db (Some c).

End Inheritance.

(* ===================================================================== *)
(** * endpoints/assignments.py and standard_service.py *)
(* ===================================================================== *)

Module Assignments.
Import Py Store.

(** A call either commits a new database state or raises before its
    [db.commit()], leaving the database as it was. *)
Inductive result (A : Type) : Type :=
| Done (a : A)
| MultipleResultsFound
| RecursionError.
Arguments Done {A} a.
Arguments MultipleResultsFound {A}.
Arguments RecursionError {A}.

(** [result.scalar_one_or_none()] *)
Definition scalar_one_or_none {A : Type} (rows : list A) : result (option A) :=
  match rows with
  | [] => Done None
  | [a] => Done (Some a)
  | _ :: _ :: _ => MultipleResultsFound
  end.

Definition with_version (v : uuid) (a : StandardAssignment) : StandardAssignment :=
  {| target_id := target_id a; target_type := target_type a;
     standard_version_id := v |}.

(** [existing.standard_version_id = v; db.add(existing)], where [existing]
    is the first row the query selected. *)
Fixpoint update_first (p : StandardAssignment -> bool) (v : uuid)
    (rows : list StandardAssignment) : list StandardAssignment :=
  match rows with
  | [] => []
  | a :: rows' =>
      if p a then with_version v a :: rows' else a :: update_first p v rows'
  end.

Definition with_rows (db : Db) (rows : list StandardAssignment) : Db :=
  {| versions := versions db; folders := folders db;
     documents := documents db; assignments := rows |}.

Definition new_assignment (tid : uuid) (tty : TargetType) (v : uuid) : StandardAssignment :=
  {| target_id := tid; target_type := tty; standard_version_id := v |}.

(** How the request of the assignments endpoint ends: its commit goes
    through, or it raises [IntegrityError] and the transaction is rolled
    back, the tables staying as they were. *)
Inductive committed (A : Type) : Type :=
| Committed (a : A)
| IntegrityError.
Arguments Committed {A} a.
Arguments IntegrityError {A}.

(** [existing.standard_version_id = v; db.add(existing)], where [existing]
    is the row number [i] of those the query matches. *)
Fixpoint update_nth (p : StandardAssignment -> bool) (i : nat) (v : uuid)
    (rows : list StandardAssignment) : list StandardAssignment :=
  match rows with
  | [] => []
  | a :: rows' =>
      if p a then
        match i with
        | O => with_version v a :: rows'
        | S i' => a :: update_nth p i' v rows'
        end
      else a :: update_nth p i v rows'
  end.

(** [POST /assignments/].  The query has no version filter and no ORDER
    BY: which of several matching rows [.first()] returns is up to the
    database, here it is row number [scan] of them, modulo their count.
    The foreign key [standard_version_id -> standardversion.id] is checked
    when the session is flushed by the commit. *)
Definition assign_standard (scan : nat) (db : Db) (target_id : uuid)
    (target_type : TargetType) (standard_version_id : uuid) : committed Db :=
  let matching := rows_for (assignments db) target_id target_type in
  let rows :=
    match matching with
    | S _ =>
        update_nth (on_target target_id target_type) (scan mod matching)
          standard_version_id (assignments db)
    | O =>
        assignments db
          ++ [new_assignment target_id target_type standard_version_id]
    end in
  match versions db !! standard_version_id with
  | Some _ => Committed (with_rows db rows)
  | None => IntegrityError
  end.

(** [WHERE target_id == tid AND target_type == tty AND
    standard_version_id == v] *)
Definition on_target_version (tid : uuid) (tty : TargetType) (v : uuid)
    (a : StandardAssignment) : bool :=
  on_target tid tty a && bool_decide (Store.standard_version_id a = v).

(** [StandardService.apply_to_document] *)
Definition apply_to_document (db : Db) (standard_version_id document_id : uuid)
  : result Db :=
  match scalar_one_or_none
          (List.filter (on_target_version document_id DOCUMENT standard_version_id)
             (assignments db)) with
  | MultipleResultsFound => MultipleResultsFound
  | RecursionError => RecursionError
  | Done (Some existing) => Done db
  | Done None =>
      Done (with_rows db
              (assignments db
                 ++ [new_assignment document_id DOCUMENT standard_version_id]))
  end.

(** [select(Folder.id).where(Folder.parent_id == folder_id)] *)
Definition children (db : Db) (folder_id : uuid) : list uuid :=
  List.map fst
    (List.filter
       (fun kf : N * Folder => bool_decide (parent_id kf.2 = Some folder_id))
       (map_to_list (folders db))).

(** [_get_all_subfolder_ids]; [depth] is what is left of the
    interpreter's recursion limit. *)
Fixpoint _get_all_subfolder_ids (depth : nat) (db : Db) (folder_id : uuid)
  : option (list uuid) :=
  match depth with
  | O => None
  | S depth' =>
      (fix extend (cs : list uuid) (ids : list uuid) : option (list uuid) :=
         match cs with
         | [] => Some ids
         | child_id :: cs' =>
             match _get_all_subfolder_ids depth' db child_id with
             | Some sub => extend cs' (ids ++ sub)
             | None => None
             end
         end) (children db folder_id) [folder_id]
  end.

(** Step 4 of [apply_to_folder]: create or update the row of each
    document; the session flushes pending rows before each query. *)
Fixpoint assign_documents (rows : list StandardAssignment) (v : uuid)
    (docs : list uuid) : result (list StandardAssignment) :=
  match docs with
  | [] => Done rows
  | doc_id :: docs' =>
      match scalar_one_or_none (List.filter (on_target doc_id DOCUMENT) rows) with
      | MultipleResultsFound => MultipleResultsFound
      | RecursionError => RecursionError
      | Done (Some existing) =>
          assign_documents (update_first (on_target doc_id DOCUMENT) v rows) v docs'
      | Done None =>
          assign_documents (rows ++ [new_assignment doc_id DOCUMENT v]) v docs'
      end
  end.

(** [select(Document).where(Document.folder_id.in_(folder_ids))] *)
Definition documents_in (db : Db) (folder_ids : list uuid) : list uuid :=
  List.map fst
    (List.filter
       (fun kd : N * Document =>
          match folder_id kd.2 with
          | Some f => bool_decide (f ∈ folder_ids)
          | None => false
          end)
       (map_to_list (documents db))).

(** [StandardService.apply_to_folder] *)
Definition apply_to_folder (depth : nat) (db : Db)
    (standard_version_id folder_id : uuid) (recursive : bool) : result Db :=
  let p := on_target_version folder_id FOLDER standard_version_id in
  match scalar_one_or_none (List.filter p (assignments db)) with
  | MultipleResultsFound => MultipleResultsFound
  | RecursionError => RecursionError
  | Done existing =>
      let rows1 :=
        match existing with
        | None => assignments db ++ [new_assignment folder_id FOLDER standard_version_id]
        | Some _ => update_first p standard_version_id (assignments db)
        end in
      let folder_ids :=
        if recursive then _get_all_subfolder_ids depth db folder_id
        else Some [folder_id] in
      match folder_ids with
      | None => RecursionError
      | Some ids =>
          match assign_documents rows1 standard_version_id (documents_in db ids) with
          | Done rows2 => Done (with_rows db rows2)
          | MultipleResultsFound => MultipleResultsFound
          | RecursionError => RecursionError
          end
      end
  end.

(** The data model's invariant: at most one row per target. *)
Definition at_most_one (rows : list StandardAssignment) : Prop :=
  forall tid tty, rows_for rows tid tty <= 1.

End Assignments.

(* ===================================================================== *)
(** * validation_service.py *)
(* ===================================================================== *)

Module Validation.
Import Py Store.

(** ** What the libraries hand to the service *)

(** An archive member; [ze_data = None] when [z.read(name)] raises. *)
Record ZipEntry : Set := {
  ze_name : string;
  ze_data : option (list byte)
}.

(** [child.qname] as the metadata extractor tests it. *)
Inductive qname_t : Set :=
| QFalsy
| QTuple (ns local : string)
| QNonTuple.

Inductive DomNode : Set :=
| TextNode (data : string)
| OtherNode.

Record MetaElement : Set := {
  me_qname : qname_t;
  me_tagName : string;
  me_childNodes : list DomNode
}.

Record PropElement : Set := {
  pe_qname : string * string;
  pe_attributes : list ((string * string) * string)
}.

Record StyleElement : Set := {
  se_qname : string * string;
  se_name : option string;
  se_childNodes : list PropElement
}.

(** The part of an odfpy document the validator reads.  The child lists
    hold the element nodes, the only ones whose [qname] is looked at. *)
Record OdfDocument : Set := {
  topnode_version : option string;
  meta : option (list MetaElement);
  styles : option (list StyleElement);
  automaticstyles : option (list StyleElement)
}.

(** [zipfile], [bytes.decode], [odf.opendocument.load] and [str()]: code
    outside the repository, taken as deterministic functions of their
    arguments. *)
Class Libraries : Type := {
  is_zipfile : list byte -> bool;
  (** [zipfile.ZipFile(io.BytesIO(b))]; [None] when it raises. *)
  zip_open : list byte -> option (list ZipEntry);
  (** [b.decode("utf-8")]; [None] when it raises. *)
  utf8_decode : list byte -> option string;
  (** [load(io.BytesIO(b))]; [inl] carries [str(e)] of the exception. *)
  odf_load : list byte -> string + OdfDocument;
  (** [str(v)] of a JSON value that is not a string. *)
  py_str : json -> string
}.

Definition style_ns : string := "urn:oasis:names:tc:opendocument:xmlns:style:1.0".

(** ** The report and the monad the validator runs in *)

Record Report : Type := {
  compliant : bool;
  errors : list string;
  warnings : list string;
  details : gmap string string
}.

(** A statement either completes or raises; the report dict is shared and
    keeps what was written to it before the exception. *)
Inductive res (A : Type) : Type :=
| Ok (a : A)
| Raised.
Arguments Ok {A} a.
Arguments Raised {A}.

Definition M (A : Type) : Type := Report -> Report * res A.

Definition ret {A : Type} (a : A) : M A := fun r => (r, Ok a).
Definition raise {A : Type} : M A := fun r => (r, Raised).
Definition bind {A B : Type} (m : M A) (k : A -> M B) : M B :=
  fun r =>
    match m r with
    | (r', Ok a) => k a r'
    | (r', Raised) => (r', Raised)
    end.

Declare Scope validation_scope.
Delimit Scope validation_scope with V.
Notation "x <- m ;; k" := (bind m (fun x => k))
  (at level 20, m at level 99, k at level 200, only parsing) : validation_scope.
Notation "m ;; k" := (bind m (fun _ => k))
  (at level 100, k at level 200, only parsing, right associativity)
  : validation_scope.
Local Open Scope validation_scope.

Fixpoint for_each {A : Type} (l : list A) (body : A -> M unit) : M unit :=
  match l with
  | [] => ret tt
  | x :: l' => body x ;; for_each l' body
  end.

(** [report["compliant"] = False] *)
Definition set_noncompliant : M unit :=
  fun r =>
    ({| compliant := false; errors := errors r; warnings := warnings r;
        details := details r |}, Ok tt).

(** [report["errors"].append(msg)] *)
Definition append_error (msg : string) : M unit :=
  fun r =>
    ({| compliant := compliant r; errors := errors r ++ [msg];
        warnings := warnings r; details := details r |}, Ok tt).

(** [report["warnings"].append(msg)] *)
Definition append_warning (msg : string) : M unit :=
  fun r =>
    ({| compliant := compliant r; errors := errors r;
        warnings := warnings r ++ [msg]; details := details r |}, Ok tt).

(** [report["details"][k] = v] *)
Definition set_detail (k v : string) : M unit :=
  fun r =>
    ({| compliant := compliant r; errors := errors r; warnings := warnings r;
        details := <[k := v]> (details r) |}, Ok tt).

(** The two statements of every hard failure. *)
Definition hard_failure (msg : string) : M unit :=
  set_noncompliant ;; append_error msg.

(** [v.get(k, default)]; a value that is not a dict has no [get]. *)
Definition py_get (k : string) (default : json) (v : json) : M json :=
  match v with
  | JDict d =>
      match dict_get k d with
      | Some x => ret x
      | None => ret default
      end
  | _ => raise
  end.

(** [v.items()] *)
Definition py_items (v : json) : M (list (string * json)) :=
  match v with
  | JDict d => ret d
  | _ => raise
  end.

(** A value inside an f-string. *)
Definition fmt `{Libraries} (v : json) : string :=
  match v with
  | JStr s => s
  | _ => py_str v
  end.

Definition fmt_opt (o : option string) : string :=
  match o with
  | Some s => s
  | None => "None"
  end.

(** ** Messages *)

Definition msg_pdf : string :=
  "PDF documents only support metadata/format validation. Structural standards are skipped.".
Definition msg_docx : string :=
  "Word documents (.docx) support macro detection but skip structural ODF standards.".
Definition msg_docx_macros : string := "Macros detected in Word document.".
Definition msg_unsupported : string :=
  "Unsupported file format. Please upload ODF, PDF, or Word (.docx) files.".
Definition msg_invalid_odf (e : string) : string := "Invalid ODF file: " +:+ e.
Definition msg_version (v : option string) : string :=
  "Document version is '" +:+ fmt_opt v +:+ "', expected '1.2'.".
Definition msg_strict (v : option string) : string :=
  "Strict ODF 1.2 compliance failed. Found version: " +:+ fmt_opt v.
Definition msg_macros : string := "Macros detected. Macros are strictly forbidden.".
Definition msg_missing (key : string) : string :=
  "Missing required metadata field: " +:+ key.
Definition msg_mismatch `{Libraries} (key : string) (value : json) (got : string) : string :=
  "Metadata mismatch for " +:+ key +:+ ". Expected '" +:+ fmt value
    +:+ "', got '" +:+ got +:+ "'".
Definition msg_style `{Libraries} (style_name prop_key : string) (prop_val : json)
    (got : string) : string :=
  "Style '" +:+ style_name +:+ "' mismatch: " +:+ prop_key +:+ " expected '"
    +:+ fmt prop_val +:+ "', got '" +:+ got +:+ "'".

(** ** The validator *)

Section WithLibraries.
Context `{Libraries}.

Definition pdf_magic : list byte := list_byte_of_string "%PDF-".

(** [name in z.namelist()] *)
Definition in_namelist (name : string) (z : list ZipEntry) : bool :=
  existsb (fun e => String.eqb name (ze_name e)) z.

(** [z.read(name)]: the member registered last under that name. *)
Definition zip_read (name : string) (z : list ZipEntry) : option (list byte) :=
  match List.find (fun e => String.eqb name (ze_name e)) (rev z) with
  | Some e => ze_data e
  | None => None
  end.

(** The test [_has_macros] makes on a member name. *)
Definition odf_macro_name (name : string) : bool :=
  startswith name "Basic/" || startswith name "Scripts/".

(** [_has_macros]; an archive that cannot be opened has none. *)
Definition _has_macros (file_content : list byte) : bool :=
  match zip_open file_content with
  | Some z => existsb (fun e => odf_macro_name (ze_name e)) z
  | None => false
  end.

(** The test [_has_macros_docx] makes on a member name. *)
Definition word_macro_name (name : string) : bool :=
  contains "vbaProject" name || endswith name ".vba"
  || contains "macros" (lower name).

Definition _has_macros_docx (file_content : list byte) : bool :=
  match zip_open file_content with
  | Some z => existsb (fun e => word_macro_name (ze_name e)) z
  | None => false
  end.

(** The concatenated [data] of the text children of a metadata element. *)
Definition text_content (nodes : list DomNode) : string :=
  fold_left (fun acc n => match n with
                          | TextNode data => acc +:+ data
                          | OtherNode => acc
                          end) nodes "".

Definition _extract_metadata (doc : OdfDocument) : gmap string string :=
  match meta doc with
  | None => ∅
  | Some children =>
      fold_left
        (fun (metadata : gmap string string) child =>
           match me_qname child with
           | QFalsy => metadata
           | QTuple _ local =>
               <[local := strip (text_content (me_childNodes child))]> metadata
           | QNonTuple =>
               <[me_tagName child := strip (text_content (me_childNodes child))]>
                 metadata
           end)
        children ∅
  end.

(** The ["text:..."] properties of a style, from its [text-properties]
    children. *)
Definition text_properties (s : StyleElement) : gmap string string :=
  fold_left
    (fun (properties : gmap string string) prop =>
       if bool_decide (pe_qname prop = (style_ns, "text-properties"))
       then fold_left
              (fun (ps : gmap string string) kv =>
                 <["text:" +:+ kv.1.2 := kv.2]> ps)
              (pe_attributes prop) properties
       else properties)
    (se_childNodes s) ∅.

(** The extracted dict maps a style name (possibly [None]) to its
    ["properties"] dict. *)
Definition _extract_styles_simple (doc : OdfDocument)
  : gmap (option string) (gmap string string) :=
  fold_left
    (fun extracted styles_node =>
       match styles_node with
       | None => extracted
       | Some nodes =>
           fold_left
             (fun ex s =>
                if bool_decide (se_qname s = (style_ns, "style"))
                then <[se_name s := text_properties s]> ex
                else ex)
             nodes extracted
       end)
    [styles doc; automaticstyles doc] ∅.

(** The body of the loop over [rule_props.items()]. *)
Definition check_property (style_name : string) (doc_props : gmap string string)
    (kv : string * json) : M unit :=
  match doc_props !! kv.1 with
  | Some got =>
      if str_ne got kv.2
      then append_warning (msg_style style_name kv.1 kv.2 got)
      else ret tt
  | None => ret tt
  end.

(** The body of the loop over [allowed_styles.items()]: a style the
    document does not define is skipped. *)
Definition check_style (doc_styles : gmap (option string) (gmap string string))
    (kv : string * json) : M unit :=
  match doc_styles !! Some kv.1 with
  | Some doc_props =>
      rule_props <- py_get "properties" (JDict []) kv.2 ;;
      items <- py_items rule_props ;;
      for_each items (check_property kv.1 doc_props)
  | None => ret tt
  end.

Definition _validate_styles (doc : OdfDocument) (allowed_styles : json) : M unit :=
  let doc_styles := _extract_styles_simple doc in
  items <- py_items allowed_styles ;;
  for_each items (check_style doc_styles).

(** "Check version": both tests of the source compare with ["1.2"]. *)
Definition check_version (odf_version : option string) : M unit :=
  if bool_decide (odf_version <> Some "1.2") then
    append_warning (msg_version odf_version) ;;
    (if bool_decide (odf_version <> Some "1.2")
     then hard_failure (msg_strict odf_version)
     else ret tt)
  else ret tt.

(** "2. No Macros Allowed" *)
Definition check_macros (file_content : list byte) : M unit :=
  if _has_macros file_content then hard_failure msg_macros else ret tt.

(** The body of the loop over [target_metadata.items()]. *)
Definition check_metadata (doc_metadata : gmap string string)
    (kv : string * json) : M unit :=
  match doc_metadata !! kv.1 with
  | None => hard_failure (msg_missing kv.1)
  | Some got =>
      if str_ne got kv.2
      then append_warning (msg_mismatch kv.1 kv.2 got)
      else ret tt
  end.

(** "3. Metadata Validation" *)
Definition metadata_phase (rules : json) (doc : OdfDocument) : M unit :=
  target_metadata <- py_get "metadata" (JDict []) rules ;;
  let doc_metadata := _extract_metadata doc in
  items <- py_items target_metadata ;;
  for_each items (check_metadata doc_metadata).

(** "4. Style & Heading Structure" *)
Definition styles_phase (rules : json) (doc : OdfDocument) : M unit :=
  allowed_styles <- py_get "styles" (JDict []) rules ;;
  _validate_styles doc allowed_styles.

(** What follows a successful [load] in [_validate_odf]. *)
Definition validate_loaded (file_content : list byte) (rules : json)
    (doc : OdfDocument) : M unit :=
  set_detail "format" "ODF" ;;
  check_version (topnode_version doc) ;;
  check_macros file_content ;;
  metadata_phase rules doc ;;
  styles_phase rules doc.

Definition _validate_odf (file_content : list byte)
    (standard_version : StandardVersion) : M unit :=
  match odf_load file_content with
  | inl e => hard_failure (msg_invalid_odf e)
  | inr doc => validate_loaded file_content (rules_json standard_version) doc
  end.

(** How the body of the [try] in [validate_document] is left when no
    exception escapes it. *)
Inductive flow : Set := Return | FallThrough.

(** "Word (OOXML)" *)
Definition word_branch (file_content : list byte) (z : list ZipEntry) : M flow :=
  if in_namelist "word/document.xml" z then
    set_detail "format" "DOCX" ;;
    append_warning msg_docx ;;
    (if _has_macros_docx file_content
     then hard_failure msg_docx_macros else ret tt) ;;
    ret Return
  else ret FallThrough.

(** The body of the [try]: a [raise] here is what the bare [except]
    swallows. *)
Definition try_zip (file_content : list byte)
    (standard_version : StandardVersion) : M flow :=
  match zip_open file_content with
  | None => raise
  | Some z =>
      if in_namelist "mimetype" z then
        match zip_read "mimetype" z with
        | None => raise
        | Some raw =>
            match utf8_decode raw with
            | None => raise
            | Some mimetype =>
                if contains "opendocument" mimetype
                then _validate_odf file_content standard_version ;; ret Return
                else word_branch file_content z
            end
        end
      else word_branch file_content z
  end.

Definition fresh_report : Report :=
  {| compliant := true; errors := []; warnings := []; details := ∅ |}.

(** The last three lines of [validate_document]. *)
Definition unsupported (report : Report) : Report :=
  (hard_failure msg_unsupported report).1.

Definition validate_document (file_content : list byte)
    (standard_version : StandardVersion) : Report :=
  let report := fresh_report in
  let is_zip := is_zipfile file_content in
  let is_pdf := bytes_startswith file_content pdf_magic in
  if is_pdf then
    ((set_detail "format" "PDF" ;; append_warning msg_pdf) report).1
  else if is_zip then
    match try_zip file_content standard_version report with
    | (r, Ok Return) => r
    | (r, Ok FallThrough) => unsupported r
    | (r, Raised) => unsupported r
    end
  else unsupported report.

(** ** Vocabulary of the properties *)

(** The bytes are dispatched to [_validate_odf]. *)
Definition is_odf_container (file_content : list byte) : bool :=
  negb (bytes_startswith file_content pdf_magic)
  && is_zipfile file_content
  && match zip_open file_content with
     | Some z =>
         in_namelist "mimetype" z
         && match zip_read "mimetype" z with
            | Some raw =>
                match utf8_decode raw with
                | Some mimetype => contains "opendocument" mimetype
                | None => false
                end
            | None => false
            end
     | None => false
     end.

(** The bytes are dispatched to the Word branch. *)
Definition is_word_package (file_content : list byte) : bool :=
  negb (bytes_startswith file_content pdf_magic)
  && is_zipfile file_content
  && match zip_open file_content with
     | Some z =>
         in_namelist "word/document.xml" z
         && (negb (in_namelist "mimetype" z)
             || match zip_read "mimetype" z with
                | Some raw =>
                    match utf8_decode raw with
                    | Some mimetype => negb (contains "opendocument" mimetype)
                    | None => false
                    end
                | None => false
                end)
     | None => false
     end.

(** The items of [rules_json.get("metadata", {})] when both are dicts. *)
Definition metadata_rules (rules : json) : option (list (string * json)) :=
  match rules with
  | JDict d =>
      match dict_get "metadata" d with
      | None => Some []
      | Some (JDict tm) => Some tm
      | Some _ => None
      end
  | _ => None
  end.

(** *** The metadata of a document, in the specification's words *)







(** Errors and compliance agree. *)
Definition sound (r : Report) : Prop :=
  (compliant r = true /\ errors r = [])
  \/ (compliant r = false /\ errors r <> []).

(** The report a statement leaves behind, raised or not. *)
Definition exec {A : Type} (m : M A) (r : Report) : Report := (m r).1.

(** A statement keeps a property of the report, raised or not. *)
Definition keeps (Inv : Report -> Prop) {A : Type} (m : M A) : Prop :=
  forall r, Inv r -> Inv (exec m r).

(** What [validate_document] returns once [_validate_odf] was entered:
    its report, or the fall-through after an exception. *)
Definition after_try {A : Type} (p : Report * res A) : Report :=
  match p with
  | (r, Ok _) => r
  | (r, Raised) => unsupported r
  end.

End WithLibraries.

End Validation.

(* ===================================================================== *)
(** * decision_flow_service.py *)
(* ===================================================================== *)

Module DecisionFlow.
Import Py.

(** ** Replies of the oracle, typed by the response schemas of
    [ai_service.py]; an optional field is a key that may be missing. *)

Record Rule : Set := {
  rule_path : option string;
  description : option string;
  justification : option string
}.

#[global] Instance Rule_eq_dec : EqDecision Rule.
Proof. solve_decision. Defined.

Record Compatibility : Type := {
  c_error : option string;
  total_score : option Q;
  risk_classification : option string;
  dimensions : json
}.

Record RuleSelection : Set := {
  rs_error : option string;
  rs_safe_rules : option (list Rule);
  rs_conditional_rules : option (list Rule);
  rs_forbidden_rules : option (list Rule)
}.

Inductive TransformResult : Type :=
| TDict (transformed_text : option string) (deviations : option json)
    (preserved_items : option json) (change_summary : option string)
    (t_error : option string)
| TOther (s : option string).

(** One entry of ["approved_rules"] as sent to the oracle. *)
Record ApprovedRule : Set := {
  ar_rule_path : string;
  ar_description : string
}.

Record ApprovedJson : Type := {
  approved_rules : list ApprovedRule;
  source_standard : json
}.

Class Oracle : Type := {
  (** [rule_extraction_factory.extract_text] *)
  extract_text : list byte -> string -> string;
  analyze_compatibility : json -> string -> Compatibility;
  select_rules : json -> Q -> RuleSelection;
  transform_document : string -> ApprovedJson -> string -> TransformResult
}.

(** The oracle calls a run has made, oldest first. *)
Inductive Call : Type :=
| CallAnalyze (standard_json : json) (text : string)
| CallSelect (standard_json : json) (score : Q)
| CallTransform (text : string) (approved_json : ApprovedJson)
    (competence_level : string).

(** ** Results *)

Inductive Analysis : Type :=
| NoText
| CompatibilityError (compatibility : Compatibility)
| Analysed (text : string) (compatibility : Compatibility) (score : Q)
    (risk : string).

Record Warning : Set := {
  w_rule_path : string;
  w_description : string;
  w_message : string
}.

Record SelectedRules : Set := {
  safe_rules : list Rule;
  conditional_rules : list Rule;
  forbidden_rules : list Rule
}.

(** The dict literal returned at the end of [apply]; it has these twelve
    keys and no other. *)
Record DecisionReport : Type := {
  action : string;
  compatibility : Compatibility;
  score : Q;
  risk : string;
  rule_selection : SelectedRules;
  warnings : list Warning;
  transformed_content : option string;
  original_content : string;
  filename : string;
  deviations : json;
  preserved_items : json;
  change_summary : string
}.

Inductive ApplyResult : Type :=
| AnalysisFailed (analysis : Analysis)
| SelectionFailed (text : string) (compatibility : Compatibility) (score : Q)
    (risk : string) (error : string)
| Decision (report : DecisionReport).

(** ["error" in result], the test the endpoint makes on what [apply]
    returns. *)
Definition has_error (result : ApplyResult) : bool :=
  match result with
  | AnalysisFailed _ => true
  | SelectionFailed _ _ _ _ _ => true
  | Decision _ => false
  end.

Definition get_or {A : Type} (o : option A) (default : A) : A :=
  match o with
  | Some a => a
  | None => default
  end.

(** ** The gate *)

Record Gate : Set := {
  g_action : string;
  g_approved : list Rule;
  g_warnings : list Warning
}.

Definition caution (r : Rule) : Warning :=
  {| w_rule_path := get_or (rule_path r) "";
     w_description := get_or (description r) "";
     w_message := "Applied with caution — review required" |}.

(** "Build approved rules based on compatibility tier" *)
Definition build_approved (score : Q) (safe_rules conditional_rules : list Rule)
  : Gate :=
  if Qle_bool 75 score then
    {| g_action := "safe_apply";
       g_approved := safe_rules ++ conditional_rules;
       g_warnings := [] |}
  else if Qle_bool 40 score then
    {| g_action := "selective_apply";
       g_approved := safe_rules ++ conditional_rules;
       g_warnings := List.map caution conditional_rules |}
  else
    {| g_action := "report_only"; g_approved := []; g_warnings := [] |}.

Definition approve (r : Rule) : ApprovedRule :=
  {| ar_rule_path := get_or (rule_path r) "";
     ar_description := get_or (description r) "" |}.

(** "Check for failure" *)
Definition looks_failed (transformed_content : option string) : bool :=
  match transformed_content with
  | Some s =>
      truthy (Some s) && contains "failed" (lower s)
      && (len s <? 200)%nat
  | None => false
  end.

(** "Handle new structured response" / "Fallback for legacy string
    response": content, deviations, preserved items and summary. *)
Definition unpack (transform_result : TransformResult)
  : option string * json * json * string :=
  match transform_result with
  | TDict transformed_text deviations preserved_items change_summary _ =>
      (Some (get_or transformed_text ""), get_or deviations (JList []),
       get_or preserved_items (JList []), get_or change_summary "")
  | TOther s => (s, JList [], JList [], "")
  end.

Section WithOracle.
Context `{Oracle}.

Definition analyze (file_content : list byte) (filename : string)
    (standard_json : json) : Analysis * list Call :=
  let text := extract_text file_content filename in
  if negb (truthy (Some text)) then (NoText, [])
  else
    let compatibility := analyze_compatibility standard_json text in
    let calls := [CallAnalyze standard_json text] in
    match c_error compatibility with
    | Some _ => (CompatibilityError compatibility, calls)
    | None =>
        (Analysed text compatibility
           (get_or (total_score compatibility) 0%Q)
           (get_or (risk_classification compatibility) "LOW"),
         calls)
    end.

(** Phase 4 and the returned dict. *)
Definition transform_phase (filename : string) (standard_json : json)
    (competence_level : string) (text : string) (compatibility : Compatibility)
    (score : Q) (risk : string) (selected : SelectedRules) (g : Gate)
  : DecisionReport * list Call :=
  let '(transformed_content, deviations, preserved_items, change_summary, calls) :=
    if negb (String.eqb (g_action g) "report_only")
       && negb (bool_decide (g_approved g = []))
    then
      let approved_json :=
        {| approved_rules := List.map approve (g_approved g);
           source_standard := standard_json |} in
      let transform_result :=
        transform_document text approved_json competence_level in
      let '(tc, dv, pi, cs) := unpack transform_result in
      (if looks_failed tc then None else tc, dv, pi, cs,
       [CallTransform text approved_json competence_level])
    else (None, JList [], JList [], "", []) in
  ({| action := g_action g;
      compatibility := compatibility;
      score := score;
      risk := risk;
      rule_selection := selected;
      warnings := g_warnings g;
      transformed_content := transformed_content;
      original_content := text;
      filename := filename;
      deviations := deviations;
      preserved_items := preserved_items;
      change_summary := change_summary |}, calls).

Definition apply (file_content : list byte) (filename : string)
    (standard_json : json) (competence_level : string)
  : ApplyResult * list Call :=
  match analyze file_content filename standard_json with
  | (NoText, calls) => (AnalysisFailed NoText, calls)
  | (CompatibilityError c, calls) => (AnalysisFailed (CompatibilityError c), calls)
  | (Analysed text compatibility score risk, calls) =>
      let rule_selection := select_rules standard_json score in
      let calls := calls ++ [CallSelect standard_json score] in
      match rs_error rule_selection with
      | Some e => (SelectionFailed text compatibility score risk e, calls)
      | None =>
          let selected :=
            {| safe_rules := get_or (rs_safe_rules rule_selection) [];
               conditional_rules := get_or (rs_conditional_rules rule_selection) [];
               forbidden_rules := get_or (rs_forbidden_rules rule_selection) [] |} in
          let g := build_approved score (safe_rules selected)
                     (conditional_rules selected) in
          let '(report, tcalls) :=
            transform_phase filename standard_json competence_level text
              compatibility score risk selected g in
          (Decision report, calls ++ tcalls)
      end
  end.

(** The rule lists handed to [transform_document] during a run. *)
Definition transformed_with (calls : list Call) : list (list ApprovedRule) :=
  flat_map (fun c => match c with
                     | CallTransform _ aj _ => [approved_rules aj]
                     | _ => []
                     end) calls.

End WithOracle.

End DecisionFlow.

(* ===================================================================== *)
(** * endpoints/folders.py and tasks.py: what is read from the tables *)
(* ===================================================================== *)

Module Folders.
Import Py Store Assignments.

(** The columns of [standard] that [get_folder_standard] reads. *)
Record Standard : Set := {
  name : string
}.

(** The two shapes of the dict [get_folder_standard] returns. *)
Inductive FolderStandard : Set :=
| NotAssigned
| AssignedTo (id : option N) (standard_name : string) (version_number : Z)
    (version_id : N).

(** [GET /folders/{folder_id}/standard] *)
Definition get_folder_standard (standards : gmap N Standard) (db : Db)
    (folder_id : uuid) : result FolderStandard :=
  match scalar_one_or_none
          (List.filter (on_target folder_id FOLDER) (assignments db)) with
  | MultipleResultsFound => MultipleResultsFound
  | RecursionError => RecursionError
  | Done None => Done NotAssigned
  | Done (Some assignment) =>
      match versions db !! standard_version_id assignment with
      | Some version =>
          match standards !! standard_id version with
          | Some standard =>
              Done (AssignedTo (Some (standard_id version)) (name standard)
                      (Store.version_number version)
                      (standard_version_id assignment))
          | None =>
              Done (AssignedTo None "Unknown" (Store.version_number version)
                      (standard_version_id assignment))
          end
      | None => Done NotAssigned
      end
  end.

(** [revalidate_folder_async]: the validation jobs it enqueues, one
    [(document, version)] pair per call of [validate_document_task.delay];
    [None] when the enumeration of the subfolders raises.  Its
    [_get_all_subfolder_ids] is the function of [standard_service.py],
    line for line. *)
Definition revalidate_folder_async (depth : nat) (db : Db)
    (folder_id standard_version_id : uuid) : option (list (N * N)) :=
  match _get_all_subfolder_ids depth db folder_id with
  | None => None
  | Some folder_ids =>
      Some (List.map (fun d => (d, standard_version_id))
              (documents_in db folder_ids))
  end.

(** ** Vocabulary *)

(** [c] is a folder whose parent is [f]. *)
Definition is_child (db : Db) (f c : N) : Prop :=
  exists folder, folders db !! c = Some folder /\ parent_id folder = Some f.

(** [c] is [f] or a folder below it: "this folder's ID and all descendant
    folder IDs". *)
Inductive descends (db : Db) (f : N) : N -> Prop :=
| descends_self : descends db f f
| descends_child c p :
    is_child db p c -> descends db f p -> descends db f c.

(** Every path of children below [f] has fewer than [n] folders. *)
Inductive subtree_within (db : Db) : N -> nat -> Prop :=
| subtree_step f n :
    (forall c, is_child db f c -> subtree_within db c n) ->
    subtree_within db f (S n).

(** The loop of [_get_all_subfolder_ids] over the results of the recursive
    calls: [ids.extend(...)] for each child, an exception of a call being
    an exception of the loop. *)
Fixpoint gather (subs : list (option (list N))) (ids : list N)
  : option (list N) :=
  match subs with
  | [] => Some ids
  | Some sub :: subs' => gather subs' (ids ++ sub)
  | None :: _ => None
  end.

(** Document [d] has one row, and that row binds it to version [v]. *)
Definition bound_to (rows : list StandardAssignment) (d v : N) : Prop :=
  rows_for rows d DOCUMENT = 1
  /\ exists a,
       List.find (on_target d DOCUMENT) rows = Some a
       /\ standard_version_id a = v.

(** The parent of [f] lies below [f]. *)
Definition on_cycle (db : Db) (f : N) : Prop :=
  exists p, is_child db p f /\ descends db f p.

End Folders.

(* ===================================================================== *)
(** * The saved validation status and the AI-augmented validation *)
(* ===================================================================== *)

Module Evaluation.
Import Py Store Validation.

Definition upper_ascii (c : ascii) : ascii :=
  let n := nat_of_ascii c in
  if ((97 <=? n) && (n <=? 122))%nat then ascii_of_nat (n - 32) else c.

(** [s.upper()] on ASCII text, which the obligation levels are. *)
Fixpoint upper (s : string) : string :=
  match s with
  | EmptyString => EmptyString
  | String c s' => String (upper_ascii c) (upper s')
  end.

(** [models/validation_audit.py] *)
Inductive ValidationStatus : Set :=
| PASS | FAIL | WARN | COMPLIANT | NON_COMPLIANT.

(** The status computed from a report by [validate_document_endpoint] and
    by the validation task. *)
Definition status_of (compliant : bool) (warnings : list string)
  : ValidationStatus :=
  let status := if compliant then PASS else FAIL in
  if compliant && negb (bool_decide (warnings = [])) then WARN else status.

(** A report is doubtful when it is not compliant or carries a warning. *)
Definition doubtful (r : Report) : Prop :=
  compliant r = false \/ warnings r <> [].

(** ** [validate_document_async] *)

(** An element of ["violations"]; [VOther] is a value without [get]. *)
Inductive Violation : Set :=
| VDict (description rule_path obligation_level : option string)
| VOther (exception : string).

(** A dict returned by [evaluate_compliance], typed by its response schema;
    an optional field is a key that may be missing. *)
Record ComplianceReport : Type := {
  compliance_score : option Q;
  ai_compliant : option bool;
  compatibility_score : option Q;
  compatibility_warning : option string;
  scorecard : option json;
  obligation_summary : option json;
  violations : option (list Violation);
  skipped_rules : option json;
  auto_fix_possible : option bool
}.

(** What the call of [evaluate_compliance] gives: a falsy value ([None] or
    an empty dict), a dict with some key (the keys may all be outside the
    schema, as in [{"error": ...}]), a truthy value without [get], or an
    exception. *)
Inductive Evaluated : Type :=
| Falsy
| Reply (ai_report : ComplianceReport)
| NotADict (exception : string)
| Raising (exception : string).

Class Evaluator : Type := {
  (** [rule_extraction_factory.extract_text] *)
  extract_text : list byte -> string -> string;
  evaluate_compliance : string -> json -> Evaluated
}.

(** The value stored under ["ai_evaluation"]. *)
Inductive AiEvaluation : Type :=
| Evaluation (compliance_score : Q) (compliant : bool) (compatibility_score : Q)
    (compatibility_warning : option string) (scorecard : option json)
    (obligation_summary : json) (violations : list Violation)
    (skipped_rules : json) (auto_fix_possible : bool)
| EvaluationError (error : string).

(** The report dict with the keys the augmentation may add. *)
Record FullReport : Type := {
  verdict : Report;
  ai_evaluation : option AiEvaluation;
  score : option Q;
  fix_options : option bool
}.

Definition get_or {A : Type} (o : option A) (default : A) : A :=
  match o with
  | Some a => a
  | None => default
  end.

Definition evaluation_of (r : ComplianceReport) : AiEvaluation :=
  Evaluation (get_or (compliance_score r) 0%Q) (get_or (ai_compliant r) false)
    (get_or (compatibility_score r) 0%Q) (compatibility_warning r)
    (scorecard r) (get_or (obligation_summary r) (JList []))
    (get_or (violations r) []) (get_or (skipped_rules r) (JList []))
    (get_or (auto_fix_possible r) false).

(** [f"[{lvl.upper()}] {desc} ({rule_path})"] *)
Definition msg_violation (description rule_path obligation_level : option string)
  : string :=
  "[" +:+ upper (get_or obligation_level "mandatory") +:+ "] "
    +:+ get_or description "Unknown violation"
    +:+ " (" +:+ get_or rule_path "" +:+ ")".

(** "Add AI violations to main errors list"; the loop stops at a value
    that raises, keeping what it has appended. *)
Fixpoint add_violations (vs : list Violation) : M unit :=
  match vs with
  | [] => ret tt
  | VDict desc path lvl :: vs' =>
      bind (append_error (msg_violation desc path lvl))
        (fun _ => add_violations vs')
  | VOther _ :: _ => raise
  end.

(** The messages the loop appends before it ends or stops. *)
Fixpoint messages (vs : list Violation) : list string :=
  match vs with
  | [] => []
  | VDict desc path lvl :: vs' => msg_violation desc path lvl :: messages vs'
  | VOther _ :: _ => []
  end.

(** The exception the loop stops at. *)
Fixpoint first_exception (vs : list Violation) : option string :=
  match vs with
  | [] => None
  | VDict _ _ _ :: vs' => first_exception vs'
  | VOther e :: _ => Some e
  end.

(** The [except] clause. *)
Definition failed (e : string) (report : FullReport) : FullReport :=
  {| verdict := exec (append_warning ("AI-enhanced validation failed: " +:+ e))
                  (verdict report);
     ai_evaluation := Some (EvaluationError e);
     score := score report;
     fix_options := fix_options report |}.

Section WithEvaluator.
Context `{Libraries} `{Evaluator}.

(** [ai_service.is_available] is a coroutine function and is called here
    without [await]: the test is on a coroutine object, which is truthy, so
    the branch is always entered. *)
Definition validate_document_async (file_content : list byte)
    (standard_version : StandardVersion) (filename : string) : FullReport :=
  let report :=
    {| verdict := validate_document file_content standard_version;
       ai_evaluation := None; score := None; fix_options := None |} in
  let text := extract_text file_content filename in
  if truthy (Some text) then
    match evaluate_compliance text (rules_json standard_version) with
    | Raising e => failed e report
    | NotADict e => failed e report
    | Falsy =>
        {| verdict := verdict report; ai_evaluation := None;
           score := Some 0%Q; fix_options := Some false |}
    | Reply ai_report =>
        let evaluation := Some (evaluation_of ai_report) in
        match ai_compliant ai_report with
        | Some false =>
            match bind set_noncompliant
                    (fun _ => add_violations (get_or (violations ai_report) []))
                    (verdict report) with
            | (r, Ok _) =>
                {| verdict := r; ai_evaluation := evaluation;
                   score := Some (get_or (compliance_score ai_report) 0%Q);
                   fix_options := Some (get_or (auto_fix_possible ai_report) false) |}
            | (r, Raised) =>
                failed
                  (get_or (first_exception (get_or (violations ai_report) [])) "")
                  {| verdict := r; ai_evaluation := evaluation;
                     score := None; fix_options := None |}
            end
        | _ =>
            {| verdict := verdict report; ai_evaluation := evaluation;
               score := Some (get_or (compliance_score ai_report) 0%Q);
               fix_options := Some (get_or (auto_fix_possible ai_report) false) |}
        end
    end
  else report.

(** The status the validation task saves for the report. *)
Definition task_status (report : FullReport) : ValidationStatus :=
  status_of (compliant (verdict report)) (warnings (verdict report)).

End WithEvaluator.

End Evaluation.

(* ===================================================================== *)
(** * storage.py, endpoints/documents.py and endpoints/validation.py *)
(* ===================================================================== *)

Module Documents.
Import Py Store Validation Inheritance Evaluation.

(** One digit of ['%032x' % n]. *)
Definition hex_digit (d : N) : ascii :=
  match d with
  | 0%N => "0" | 1%N => "1" | 2%N => "2" | 3%N => "3"
  | 4%N => "4" | 5%N => "5" | 6%N => "6" | 7%N => "7"
  | 8%N => "8" | 9%N => "9" | 10%N => "a" | 11%N => "b"
  | 12%N => "c" | 13%N => "d" | 14%N => "e" | _ => "f"
  end%char.

(** The hexadecimal digit of weight [16 ^ i]. *)
Definition hex_at (n : N) (i : nat) : ascii :=
  hex_digit ((n / 16 ^ N.of_nat i) mod 16)%N.

(** [len] digits, the lowest of weight [16 ^ lo], highest first. *)
Definition hex_group (n : N) (lo len : nat) : string :=
  string_of_list_ascii (List.map (hex_at n) (rev (seq lo len))).

(** [str(u)] of a [uuid.UUID]: 8-4-4-4-12 hexadecimal digits. *)
Definition uuid_str (n : N) : string :=
  hex_group n 24 8 +:+ "-" +:+ hex_group n 20 4 +:+ "-" +:+ hex_group n 16 4
    +:+ "-" +:+ hex_group n 12 4 +:+ "-" +:+ hex_group n 0 12.

(** [f"{doc_id}/{file.filename}"] of [upload_document]. *)
Definition object_name (doc_id : uuid) (filename : string) : string :=
  uuid_str doc_id +:+ "/" +:+ filename.

(** [f"fixed/{document_id}/{document.filename}.fixed.txt"] *)
Definition fixed_object_name (document_id : uuid) (filename : string) : string :=
  "fixed/" +:+ uuid_str document_id +:+ "/" +:+ filename +:+ ".fixed.txt".

(** [document.minio_version_id or f"{document.id}/{document.filename}"] *)
Definition storage_path (document_id : uuid) (document : Document) : string :=
  if truthy (minio_version_id document)
  then get_or (minio_version_id document) ""
  else object_name document_id (Store.filename document).

(** The bucket: object name to content. *)
Abbreviation Storage := (gmap string (list byte)) (only parsing).

(** [minio_client.upload_file] *)
Definition upload_file (storage : Storage) (file_data : list byte)
    (object_name : string) : Storage :=
  <[object_name := file_data]> storage.

(** [minio_client.get_file]; [None] when the object store raises. *)
Definition get_file (storage : Storage) (object_name : string)
  : option (list byte) :=
  storage !! object_name.

(** What [upload_document] leaves behind: the tables, the bucket, the row
    it returns, and the version of the validation job it enqueues, if
    any. *)
Record Uploaded : Type := {
  up_db : Db;
  up_storage : gmap string (list byte);
  up_document : Document;
  up_job : outcome (option StandardVersion)
}.

(** [POST /documents/upload/]; [doc_id] is the [uuid4()] drawn for the
    document, [sha256] the hex digest function. *)
Definition upload_document (sha256 : list byte -> string) (fuel : nat)
    (db : Db) (storage : Storage) (content : list byte) (filename : string)
    (folder_id : option uuid) (doc_id : uuid) : Uploaded :=
  let file_hash := sha256 content in
  let object_name := object_name doc_id filename in
  let storage' := upload_file storage content object_name in
  let document :=
    {| Store.filename := filename; Store.folder_id := folder_id;
       minio_version_id := Some object_name; hash := file_hash |} in
  let db' :=
    {| versions := versions db; folders := folders db;
       documents := <[doc_id := document]> (documents db);
       assignments := assignments db |} in
  {| up_db := db'; up_storage := storage'; up_document := document;
     up_job := get_effective_standard_version fuel db' doc_id DOCUMENT |}.

(** The writes to the bucket: [upload_document] stores the upload under
    [object_name]; [fix_document] and [apply_decision_flow] store the
    transformed text under [fixed_object_name]. *)
Inductive Write : Type :=
| StoreUpload (doc_id : uuid) (filename : string) (content : list byte)
| StoreFixed (document_id : uuid) (filename : string) (content : list byte).

Definition perform (storage : Storage) (w : Write) : gmap string (list byte) :=
  match w with
  | StoreUpload doc_id filename content =>
      upload_file storage content (object_name doc_id filename)
  | StoreFixed document_id filename content =>
      upload_file storage content (fixed_object_name document_id filename)
  end.

(** A response of an endpoint: a value, an [HTTPException], or an
    exception nothing handles. *)
Inductive response (A : Type) : Type :=
| OK (a : A)
| HTTPException (status_code : nat) (detail : string)
| Unhandled.
Arguments OK {A} a.
Arguments HTTPException {A} status_code detail.
Arguments Unhandled {A}.

(** The row of [validationresult] an endpoint adds. *)
Record ValidationResult : Type := {
  vr_document_id : uuid;
  vr_standard_version_id : uuid;
  vr_status : ValidationStatus;
  report_json : Report
}.

(** [POST /validation/{document_id}/validate] *)
Definition validate_document_endpoint `{Libraries} (db : Db) (storage : Storage)
    (document_id standard_version_id : uuid) : response ValidationResult :=
  match documents db !! document_id with
  | None => HTTPException 404 "Document not found"
  | Some document =>
      match versions db !! standard_version_id with
      | None => HTTPException 404 "Standard version not found"
      | Some start_ver =>
          match get_file storage (storage_path document_id document) with
          | None => Unhandled
          | Some file_content =>
              let report := validate_document file_content start_ver in
              OK {| vr_document_id := document_id;
                    vr_standard_version_id := standard_version_id;
                    vr_status := status_of (compliant report) (warnings report);
                    report_json := report |}
          end
      end
  end.

(** [PATCH /documents/{document_id}]: the filename changes, the stored
    object and [minio_version_id] do not. *)
Definition rename_document (db : Db) (document_id : uuid) (new_name : string)
  : response (Db * Document) :=
  match documents db !! document_id with
  | None => HTTPException 404 "Document not found"
  | Some document =>
      let document :=
        {| Store.filename := new_name;
           Store.folder_id := Store.folder_id document;
           minio_version_id := minio_version_id document;
           hash := hash document |} in
      OK ({| versions := versions db; folders := folders db;
             documents := <[document_id := document]> (documents db);
             assignments := assignments db |}, document)
  end.

(** [minio_client.delete_file] *)
Definition delete_file (storage : Storage) (object_name : string)
  : gmap string (list byte) :=
  delete object_name storage.

(** [DELETE /documents/{document_id}].  The stored object is removed.
    [db.delete(document)] is called without [await]: on an [AsyncSession]
    the call only creates a coroutine, which is never run, so the commit
    that follows deletes no row. *)
Definition delete_document (db : Db) (storage : Storage) (document_id : uuid)
  : response (Db * gmap string (list byte)) :=
  match documents db !! document_id with
  | None => HTTPException 404 "Document not found"
  | Some document =>
      let storage' := delete_file storage (storage_path document_id document) in
      OK (db, storage')
  end.

(** Every document row carries the object name its upload was stored
    under, which starts with the document's own 128-bit id. *)
Definition named_by_id (db : Db) : Prop :=
  forall d document,
    documents db !! d = Some document ->
    (d < 2 ^ 128)%N
    /\ exists fn, minio_version_id document = Some (object_name d fn).

End Documents.

(* ===================================================================== *)
(** * endpoints/documents.py: the auto-fix *)
(* ===================================================================== *)

Module Fixing.
Import Py Store Inheritance Documents.

(** The ["decision_flow"] entry of the dict [fix_document] returns. *)
Record DecisionSummary : Type := {
  ds_action : string;
  ds_score : Q;
  ds_risk : string;
  ds_compatibility : DecisionFlow.Compatibility;
  ds_rule_selection : DecisionFlow.SelectedRules;
  ds_warnings : list DecisionFlow.Warning;
  ds_deviations : json;
  ds_preserved_items : json;
  ds_change_summary : string
}.

Record FixResponse : Type := {
  fixed_content : option string;
  fr_original_content : string;
  fr_filename : string;
  decision_flow : DecisionSummary
}.

(** [result["error"]] of a result that has the key. *)
Definition error_of (result : DecisionFlow.ApplyResult) : string :=
  match result with
  | DecisionFlow.AnalysisFailed (DecisionFlow.CompatibilityError c) =>
      DecisionFlow.get_or (DecisionFlow.c_error c) ""
  | DecisionFlow.AnalysisFailed _ => "Could not extract text from document"
  | DecisionFlow.SelectionFailed _ _ _ _ e => e
  | DecisionFlow.Decision _ => ""
  end.

Definition msg_not_in_storage (storage_path : string) : string :=
  "Internal error during AI fix: File not found in storage. It may have been deleted manually. (Path: "
    +:+ storage_path +:+ ")".

Section WithOracle.
Context `{DecisionFlow.Oracle}.

(** [POST /documents/{document_id}/fix]; [encode] is [str.encode("utf-8")].
    A missing object is the [NoSuchKey] error of the object store.  The
    bucket after the call is returned beside the response; the update of
    the latest validation result is left out. *)
Definition fix_document (encode : string -> list byte) (fuel : nat) (db : Db)
    (storage : Storage) (document_id : uuid) (competence_level : string)
  : outcome (gmap string (list byte) * response FixResponse) :=
  match get_effective_standard_version fuel db document_id DOCUMENT with
  | StillWalking => StillWalking
  | Returns None =>
      Returns (storage,
               HTTPException 400
                 "No effective standard assignment found for this document.")
  | Returns (Some effective_std_version) =>
      match documents db !! document_id with
      | None => Returns (storage, HTTPException 404 "Document not found")
      | Some document =>
          let storage_path := storage_path document_id document in
          match get_file storage storage_path with
          | None =>
              Returns (storage, HTTPException 500 (msg_not_in_storage storage_path))
          | Some file_content =>
              match DecisionFlow.apply file_content (Store.filename document)
                      (rules_json effective_std_version) competence_level with
              | (DecisionFlow.Decision result, _) =>
                  let storage' :=
                    match DecisionFlow.transformed_content result with
                    | Some (String c s) =>
                        upload_file storage (encode (String c s))
                          (fixed_object_name document_id (Store.filename document))
                    | _ => storage
                    end in
                  Returns
                    (storage',
                     OK {| fixed_content := DecisionFlow.transformed_content result;
                           fr_original_content := DecisionFlow.original_content result;
                           fr_filename := Store.filename document;
                           decision_flow :=
                             {| ds_action := DecisionFlow.action result;
                                ds_score := DecisionFlow.score result;
                                ds_risk := DecisionFlow.risk result;
                                ds_compatibility := DecisionFlow.compatibility result;
                                ds_rule_selection := DecisionFlow.rule_selection result;
                                ds_warnings := DecisionFlow.warnings result;
                                ds_deviations := DecisionFlow.deviations result;
                                ds_preserved_items := DecisionFlow.preserved_items result;
                                ds_change_summary := DecisionFlow.change_summary result |} |})
              | (result, _) => Returns (storage, HTTPException 500 (error_of result))
              end
          end
      end
  end.

End WithOracle.

End Fixing.

(* ===================================================================== *)
(** * endpoints/standards.py and [StandardService.get_active_version] *)
(* ===================================================================== *)

Module Standards.
Import Py Store Assignments Folders Documents.

(** [rule_extraction_factory.extract_rules_async(content, filename,
    use_ai=True)]: the rules, or the text of the exception it raises. *)
Class RuleExtractor : Type := {
  extract_rules_async : list byte -> string -> string + json
}.

(** [select(StandardVersion).where(StandardVersion.standard_id == sid)] *)
Definition versions_of (db : Db) (sid : uuid) : list (uuid * StandardVersion) :=
  List.filter (fun kv : N * StandardVersion => bool_decide (standard_id kv.2 = sid))
    (map_to_list (versions db)).

(** [order_by(version_number.desc()).limit(1)]: a row with the greatest
    number; among several rows with that number the query does not say
    which, here it is the last one scanned. *)
Fixpoint latest (rows : list (uuid * StandardVersion))
  : option (uuid * StandardVersion) :=
  match rows with
  | [] => None
  | kv :: rows' =>
      match latest rows' with
      | None => Some kv
      | Some best =>
          if (version_number best.2 <? version_number kv.2)%Z
          then Some kv else Some best
      end
  end.

(** [StandardService.get_active_version] *)
Definition get_active_version (db : Db) (standard_id : uuid)
  : option (uuid * StandardVersion) :=
  latest (List.filter (fun kv : N * StandardVersion => is_active kv.2)
            (versions_of db standard_id)).

(** [POST /standards/{standard_id}/versions/promote/{document_id}];
    [new_id] is the [uuid4()] of the new row. *)
Definition promote_document_to_standard `{RuleExtractor}
    (standards : gmap N Standard) (db : Db) (storage : Storage)
    (standard_id document_id new_id : uuid)
  : response (Db * StandardVersion) :=
  match standards !! standard_id with
  | None => HTTPException 404 "Standard not found"
  | Some standard =>
      match documents db !! document_id with
      | None => HTTPException 404 "Document not found"
      | Some document =>
          match get_file storage (storage_path document_id document) with
          | None => Unhandled
          | Some file_content =>
              match extract_rules_async file_content (Store.filename document) with
              | inl e => HTTPException 400 ("Failed to extract rules: " +:+ e)
              | inr rules =>
                  let versions := versions_of db standard_id in
                  let next_version := (Z.of_nat (length versions) + 1)%Z in
                  let new_version :=
                    {| Store.standard_id := standard_id;
                       Store.version_number := next_version;
                       rules_json := rules; is_active := true |} in
                  OK ({| Store.versions := <[new_id := new_version]> (Store.versions db);
                         folders := folders db; documents := documents db;
                         assignments := assignments db |}, new_version)
              end
          end
      end
  end.

(** [POST /standards/{standard_id}/apply/document/{document_id}] *)
Definition apply_standard_to_document (db : Db) (standard_id document_id : uuid)
  : response Db :=
  match get_active_version db standard_id with
  | None => HTTPException 404 "No active version found for this standard"
  | Some (version_id, version) =>
      match apply_to_document db version_id document_id with
      | Done db' => OK db'
      | _ => Unhandled
      end
  end.

(** The version numbers of a standard do not exceed their count. *)
Definition numbered (db : Db) (sid : uuid) : Prop :=
  forall id v,
    Store.versions db !! id = Some v -> Store.standard_id v = sid ->
    (Store.version_number v <= Z.of_nat (length (versions_of db sid)))%Z.

End Standards.

(* ===================================================================== *)
(** * Concrete inputs used by the examples below *)
(* ===================================================================== *)

Module Examples.
Import Py Store.

Definition version_1 : StandardVersion :=
  {| standard_id := 100; version_number := 1;
     rules_json := JDict [("metadata", JDict [("title", JStr "X")])];
     is_active := true |}.

Definition version_2 : StandardVersion :=
  {| standard_id := 100; version_number := 2;
     rules_json := JDict [("metadata", JDict [("title", JStr "X")])];
     is_active := true |}.

Definition a_document (folder : option N) : Document :=
  {| filename := "report.odt"; minio_version_id := None; hash := "h";
     folder_id := folder |}.

(** Folder 1 is bound to version 10; folder 2 lies inside folder 1 and has
    no assignment; document 5 lies inside folder 2. *)
Definition db_nested : Db :=
  {| versions := <[10%N := version_1]> ∅;
     folders := <[1%N := {| folder_name := "F"; parent_id := None |}]>
                  (<[2%N := {| folder_name := "sub"; parent_id := Some 1%N |}]> ∅);
     documents := <[5%N := a_document (Some 2%N)]> ∅;
     assignments := [{| target_id := 1%N; target_type := FOLDER;
                        standard_version_id := 10%N |}] |}.

(** Folders 1 and 2 are each other's parent; nothing is assigned. *)
Definition db_cycle : Db :=
  {| versions := ∅;
     folders := <[1%N := {| folder_name := "a"; parent_id := Some 2%N |}]>
                  (<[2%N := {| folder_name := "b"; parent_id := Some 1%N |}]> ∅);
     documents := <[5%N := a_document (Some 1%N)]> ∅;
     assignments := [] |}.

(** Versions 10 and 11 exist, document 7 lies in folder 1, and nothing is
    assigned yet. *)
Definition db_unassigned : Db :=
  {| versions := <[10%N := version_1]> (<[11%N := version_2]> ∅);
     folders := <[1%N := {| folder_name := "F"; parent_id := None |}]> ∅;
     documents := <[7%N := a_document (Some 1%N)]> ∅;
     assignments := [] |}.

(** ** Documents and library behaviours *)

Import Validation.

Definition py_str_scalar (v : json) : string :=
  match v with
  | JNull => "None"
  | JBool true => "True"
  | JBool false => "False"
  | _ => "<value>"
  end.

(** A behaviour of the libraries in which [is_zipfile] answers [zip], the
    archive opens as [z] and [load] answers [loaded]. *)
Definition libraries (zip : bool) (z : option (list ZipEntry))
    (loaded : string + OdfDocument) : Libraries :=
  {| is_zipfile := fun _ => zip;
     zip_open := fun _ => z;
     utf8_decode := fun raw => Some (string_of_list_byte raw);
     odf_load := fun _ => loaded;
     py_str := py_str_scalar |}.

Definition member (name data : string) : ZipEntry :=
  {| ze_name := name; ze_data := Some (list_byte_of_string data) |}.

Definition mimetype_odt : ZipEntry :=
  member "mimetype" "application/vnd.oasis.opendocument.text".

(** An ODF 1.2 text document whose metadata holds a creator and no title. *)
Definition odt_document : OdfDocument :=
  {| topnode_version := Some "1.2";
     meta := Some [{| me_qname := QTuple "http://purl.org/dc/elements/1.1/" "creator";
                      me_tagName := "dc:creator";
                      me_childNodes := [TextNode " Bob "] |}];
     styles := None;
     automaticstyles := None |}.

(** An ODF 1.2 text document whose title is "X" after a no-break space
    (C2 A0). *)
Definition nbsp_title_document : OdfDocument :=
  {| topnode_version := Some "1.2";
     meta := Some [{| me_qname := QTuple "http://purl.org/dc/elements/1.1/" "title";
                      me_tagName := "dc:title";
                      me_childNodes := [TextNode (String "194" (String "160" "X"))] |}];
     styles := None;
     automaticstyles := None |}.

Definition odt_archive : list ZipEntry :=
  [mimetype_odt; member "content.xml" "<office:document-content/>";
   member "meta.xml" "<office:document-meta/>"].

Definition odt_macro_archive : list ZipEntry :=
  odt_archive ++ [member "Basic/Standard/Module1.xml" "<script/>"].

Definition docm_archive : list ZipEntry :=
  [member "[Content_Types].xml" "<Types/>"; member "word/document.xml" "<w:document/>";
   member "word/vbaProject.bin" "VBA"].

Definition plain_libraries : Libraries :=
  libraries false None (inl "File is not a zip file").
Definition odt_libraries : Libraries :=
  libraries true (Some odt_archive) (inr odt_document).
Definition odt_macro_libraries : Libraries :=
  libraries true (Some odt_macro_archive) (inr odt_document).
Definition docm_libraries : Libraries :=
  libraries true (Some docm_archive) (inl "not an ODF file").

Definition plain_text : list byte :=
  list_byte_of_string "this is a bad document. no version number.".

Definition archive_bytes : list byte := list_byte_of_string "PK...".

(** An archive stored behind a PDF header. *)
Definition pdf_prefixed_archive : list byte :=
  list_byte_of_string "%PDF-1.4 PK...".

(** Rules that require a title "X" and a creator "Alice". *)
Definition version_3 : StandardVersion :=
  {| standard_id := 100; version_number := 3;
     rules_json :=
       JDict [("metadata", JDict [("title", JStr "X"); ("creator", JStr "Alice")])];
     is_active := true |}.

(** ** Oracles *)

Import DecisionFlow.

Definition rule_headings : Rule :=
  {| rule_path := Some "formatting.heading_style";
     description := Some "Headings use title case";
     justification := Some "formatting only" |}.

Definition rule_modal_verbs : Rule :=
  {| rule_path := Some "language.modal_verbs";
     description := Some "Normalise governance phrasing";
     justification := Some "language normalisation" |}.

Definition rule_authority : Rule :=
  {| rule_path := Some "authority_chain.approver";
     description := Some "Assign the approving authority";
     justification := Some "authority assignment" |}.

Definition compatibility_of (s : Q) : Compatibility :=
  {| c_error := None; total_score := Some s;
     risk_classification := Some "HIGH"; dimensions := JDict [] |}.

(** An oracle that scores every document [s], selects [sel] and answers
    every transformation with [tr]. *)
Definition oracle (s : Q) (sel : RuleSelection) (tr : TransformResult) : Oracle :=
  {| extract_text := fun b _ => string_of_list_byte b;
     analyze_compatibility := fun _ _ => compatibility_of s;
     select_rules := fun _ _ => sel;
     transform_document := fun _ _ _ => tr |}.

Definition selection (safe conditional forbidden : list Rule) : RuleSelection :=
  {| rs_error := None; rs_safe_rules := Some safe;
     rs_conditional_rules := Some conditional;
     rs_forbidden_rules := Some forbidden |}.

Definition partitioned : RuleSelection :=
  selection [rule_headings] [rule_modal_verbs] [rule_authority].

(** A reply that lists the authority rule as safe and as forbidden. *)
Definition overlapping : RuleSelection :=
  selection [rule_headings; rule_authority] [rule_modal_verbs] [rule_authority].

Definition transformed : TransformResult :=
  TDict (Some "# Policy") (Some (JList [])) (Some (JList []))
    (Some "Headings normalised") None.

Definition failed_reply : TransformResult :=
  TDict (Some "Transformation failed.") None None None None.

(** [n] times the letter e with an acute accent (C3 A9). *)
Fixpoint accents (n : nat) : string :=
  match n with
  | O => ""
  | S n' => String "195" (String "169" (accents n'))
  end.

(** A reply of 103 characters in 200 bytes. *)
Definition accented_reply : TransformResult :=
  TDict (Some ("failed" +:+ accents 97)) None None None None.

Definition standard_json : json := rules_json version_1.

Definition policy_text : list byte := list_byte_of_string "Staff must comply.".

(** ** A table with a doubled row *)

(** Document 7 of folder 1 is bound twice, to versions 10 and 11. *)
Definition db_doubled : Db :=
  {| versions := versions db_unassigned;
     folders := folders db_unassigned;
     documents := documents db_unassigned;
     assignments := [{| target_id := 7%N; target_type := DOCUMENT;
                        standard_version_id := 10%N |};
                     {| target_id := 7%N; target_type := DOCUMENT;
                        standard_version_id := 11%N |}] |}.

End Examples.

(** ** Evaluators and stored documents *)

Module MoreExamples.
Import Py Store Validation Evaluation Documents Examples.

(** An evaluator whose text extraction gives [text] and whose model
    answers [reply]. *)
Definition evaluator (text : string) (reply : Evaluated) : Evaluator :=
  {| extract_text := fun _ _ => text;
     evaluate_compliance := fun _ _ => reply |}.

Definition missing_approval : Violation :=
  VDict (Some "No approval block") (Some "authority_chain.approver")
    (Some "mandatory").

(** A reply that finds the document not compliant. *)
Definition rejection (vs : list Violation) : ComplianceReport :=
  {| compliance_score := Some 40%Q; ai_compliant := Some false;
     compatibility_score := Some 90%Q; compatibility_warning := None;
     scorecard := Some (JDict []); obligation_summary := Some (JList []);
     violations := Some vs; skipped_rules := None;
     auto_fix_possible := Some true |}.

(** The dict [{"error": ...}] of a failed call: no key of the schema. *)
Definition error_reply : ComplianceReport :=
  {| compliance_score := None; ai_compliant := None;
     compatibility_score := None; compatibility_warning := None;
     scorecard := None; obligation_summary := None; violations := None;
     skipped_rules := None; auto_fix_possible := None |}.

(** A standard without metadata or style rules. *)
Definition version_plain : StandardVersion :=
  {| standard_id := 100; version_number := 4; rules_json := JDict [];
     is_active := true |}.

(** [hashlib.sha256(content).hexdigest()], kept abstract. *)
Definition digest (content : list byte) : string := "digest".

(** Document 5 of [db_nested] with its object stored. *)
Definition stored (content : list byte) : gmap string (list byte) :=
  <[object_name 5 "report.odt" := content]> ∅.

(** Document 6 as [upload_document] leaves it, in folder 2 of
    [db_nested], and the bucket with its object. *)
Definition uploaded_document : Document :=
  {| filename := "policy.odt";
     minio_version_id := Some (object_name 6 "policy.odt");
     hash := "digest"; folder_id := Some 2%N |}.

Definition db_stored : Db :=
  {| versions := versions db_nested; folders := folders db_nested;
     documents := <[6%N := uploaded_document]> ∅;
     assignments := assignments db_nested |}.

Definition bucket : gmap string (list byte) :=
  <[object_name 6 "policy.odt" := archive_bytes]> ∅.

(** A standard version whose rules are a list. *)
Definition version_malformed : StandardVersion :=
  {| standard_id := 100; version_number := 5; rules_json := JList [];
     is_active := true |}.

(** ** Standards *)

Import Folders Standards.

Definition standards_one : gmap N Standard :=
  <[100%N := {| name := "Policy" |}]> ∅.

(** An extractor that answers [reply] for every document. *)
Definition extractor (reply : string + json) : RuleExtractor :=
  {| extract_rules_async := fun _ _ => reply |}.

Definition extracted_rules : json :=
  JDict [("metadata", JDict [("creator", JStr "Bob")])].

(** What promoting document 5 of [db_nested] adds under id 11. *)
Definition version_promoted : StandardVersion :=
  {| standard_id := 100; version_number := 2; rules_json := extracted_rules;
     is_active := true |}.

Definition db_promoted : Db :=
  {| versions := <[11%N := version_promoted]> (versions db_nested);
     folders := folders db_nested; documents := documents db_nested;
     assignments := assignments db_nested |}.

End MoreExamples.

(* ===================================================================== *)
(** * The string helpers on small inputs *)
(* ===================================================================== *)

Module PyExamples.
Import Py.

Example startswith_basic : startswith "Basic/Standard/Module1.xml" "Basic/" = true.
Proof. reflexivity. Qed.

Example startswith_nested : startswith "Configurations2/Basic/x" "Basic/" = false.
Proof. reflexivity. Qed.

Example endswith_vba : endswith "word/module.vba" ".vba" = true.
Proof. reflexivity. Qed.

Example endswith_short : endswith "vba" ".vba" = false.
Proof. reflexivity. Qed.

Example contains_macros : contains "macros" (lower "word/Macros/sheet.xml") = true.
Proof. reflexivity. Qed.

Example contains_case : contains "vbaProject" "word/VBAPROJECT.bin" = false.
Proof. reflexivity. Qed.

Example strip_both : strip "  A title
 " = "A title".
Proof. reflexivity. Qed.

(** A no-break space (C2 A0) before and an ideographic space (E3 80 80)
    after the text are whitespace for [strip]. *)
Example strip_unicode :
  strip (String "194" (String "160" "X" +:+ String "227" (String "128" (String "128" ""))))
  = "X".
Proof. reflexivity. Qed.

(** An accented letter (C3 A9) is no whitespace and counts once. *)
Example strip_accent :
  strip (String "195" (String "169" "")) = String "195" (String "169" "").
Proof. reflexivity. Qed.

Example len_accent : len (String "195" (String "169" "x")) = 2.
Proof. reflexivity. Qed.

Example pdf_header :
  bytes_startswith (list_byte_of_string "%PDF-1.7 ...") (list_byte_of_string "%PDF-")
  = true.
Proof. reflexivity. Qed.

Example str_ne_number : str_ne "1" (JNum 1) = true.
Proof. reflexivity. Qed.

Lemma contains_prefix sub s : String.prefix sub s = true -> contains sub s = true.
Proof. intros Hp. destruct s; cbn [contains]; by rewrite Hp. Qed.

Lemma contains_tail sub c s : contains sub s = true -> contains sub (String c s) = true.
Proof. intros Hc. cbn [contains]. rewrite Hc. apply orb_true_r. Qed.

End PyExamples.

(* ===================================================================== *)
(** * Properties of the inheritance resolver *)
(* ===================================================================== *)

Module InheritanceProofs.
Import Py Store Inheritance Examples.

Lemma on_target_true tid tty a :
  on_target tid tty a = true <-> target_id a = tid /\ target_type a = tty.
Proof.
  unfold on_target. rewrite andb_true_iff, !bool_decide_eq_true. tauto.
Qed.

Lemma select_assignment_Some db tid tty a :
  select_assignment db tid tty = Some a ->
  In a (assignments db) /\ target_id a = tid /\ target_type a = tty.
Proof.
  unfold select_assignment. intros Hf.
  apply find_some in Hf as [Hin Hp]. apply on_target_true in Hp. tauto.
Qed.

Lemma select_assignment_None db tid tty :
  select_assignment db tid tty = None <-> ~ has_assignment db tid tty.
Proof.
  unfold select_assignment, has_assignment. split.
  - intros Hf (a & Hin & Hid & Hty).
    pose proof (find_none _ _ Hf a Hin) as Hp.
    assert (on_target tid tty a = true) by (apply on_target_true; tauto).
    congruence.
  - intros Hno. destruct (List.find _ _) as [a|] eqn:Hf; [|reflexivity].
    exfalso. apply Hno. exists a.
    apply find_some in Hf as [Hin Hp]. apply on_target_true in Hp. tauto.
Qed.


Lemma walk_None fuel db : walk fuel db None = Returns None.
Proof. destruct fuel; reflexivity. Qed.

(** More fuel never changes an answer already given. *)
Lemma walk_mono db fuel fuel' cur r :
  fuel <= fuel' -> walk fuel db cur = Returns r -> walk fuel' db cur = Returns r.
Proof.
  revert fuel' cur. induction fuel as [|fuel IH]; intros fuel' cur Hle Hw.
  - destruct cur; simpl in Hw; [discriminate|].
    by rewrite walk_None.
  - destruct cur as [c|]; [|by rewrite walk_None; rewrite walk_None in Hw].
    destruct fuel' as [|fuel']; [lia|]. simpl in *.
    destruct (select_assignment db c FOLDER); [done|].
    destruct (folders db !! c); [|done].
    apply IH; [lia|done].
Qed.

(** On a finite chain the loop is the search for the nearest assigned
    folder. *)
Lemma walk_ancestors db cur l :
  ancestors db cur l ->
  forall fuel, length l <= fuel ->
    walk fuel db cur = Returns (nearest db l ≫= get_version db).
Proof.
  induction 1 as [|c Hc|c folder l Hc Hanc IH]; intros fuel Hlen.
  - apply walk_None.
  - destruct fuel as [|fuel]; [simpl in Hlen; lia|]. simpl.
    destruct (select_assignment db c FOLDER); [done|]. by rewrite Hc.
  - destruct fuel as [|fuel]; [simpl in Hlen; lia|]. simpl.
    destruct (select_assignment db c FOLDER); [done|]. rewrite Hc.
    apply IH. simpl in Hlen. lia.
Qed.











Example scenario_B :
  get_effective_standard_version 2 db_nested 5%N DOCUMENT
  = Returns (Some version_1).
Proof. by vm_compute. Qed.

(** The folder [sub] has no row of its own and inherits from [F]. *)
Example scenario_B_folder :
  select_assignment db_nested 2%N FOLDER = None
  /\ get_effective_standard_version 1 db_nested 2%N FOLDER
     = Returns (Some version_1).
Proof. split; by vm_compute. Qed.

(** ** Termination *)

Lemma walk_returns_stops db fuel cur r :
  walk fuel db cur = Returns r -> stops db cur.
Proof.
  revert cur. induction fuel as [|fuel IH]; intros [c|] Hw;
    [discriminate|apply stops_none| |apply stops_none].
  simpl in Hw.
  destruct (select_assignment db c FOLDER) as [a|] eqn:Hsel.
  - by eapply stops_assigned.
  - destruct (folders db !! c) as [folder|] eqn:Hf.
    + eapply stops_step; eauto.
    + by apply stops_dangling.
Qed.

Lemma stops_walk_returns db cur :
  stops db cur -> exists fuel r, walk fuel db cur = Returns r.
Proof.
  induction 1 as [|c a Hsel|c Hf|c folder Hf Hst (fuel & r & IH)].
  - by exists 0, None.
  - exists 1, (get_version db a). simpl. by rewrite Hsel.
  - exists 1. simpl. destruct (select_assignment db c FOLDER); eauto.
    rewrite Hf. eauto.
  - exists (S fuel). simpl. destruct (select_assignment db c FOLDER); eauto.
    rewrite Hf. eauto.
Qed.

(** A finite chain of ancestors makes the walk stop. *)
Lemma ancestors_stops db cur l : ancestors db cur l -> stops db cur.
Proof.
  induction 1; [constructor|by apply stops_dangling|by eapply stops_step].
Qed.

Lemma walk_cycle fuel c :
  c = 1%N \/ c = 2%N -> walk fuel db_cycle (Some c) = StillWalking.
Proof.
  revert c. induction fuel as [|fuel IH]; intros c Hc; [done|].
  destruct Hc as [-> | ->]; simpl.
  - change (folders db_cycle !! 1%N) with
      (Some {| folder_name := "a"; parent_id := Some 2%N |}).
    apply IH. by right.
  - change (folders db_cycle !! 2%N) with
      (Some {| folder_name := "b"; parent_id := Some 1%N |}).
    apply IH. by left.
Qed.

(** C5, as stated, fails: on two folders that are each other's parent and
    carry no assignment, the resolver never returns, whatever number of
    loop iterations it is given. *)
Lemma resolve_cycle_never_returns :
  ~ exists fuel r,
      get_effective_standard_version fuel db_cycle 5%N DOCUMENT = Returns r.
Proof.
  intros (fuel & r & Hr).
  unfold get_effective_standard_version in Hr.
  change (select_assignment db_cycle 5%N DOCUMENT) with
    (@None StandardAssignment) in Hr.
  change (start_folder db_cycle 5%N DOCUMENT) with (Some 1%N) in Hr.
  rewrite walk_cycle in Hr; [discriminate|by left].
Qed.

(** C5, amended: the resolver returns exactly when the target has a direct
    assignment or the walk from its parent folder meets, after finitely
    many steps, an assigned folder, an id without Folder row, or a folder
    without parent; so it returns on every finite chain of ancestors,
    within as many iterations as the chain is long.  Nothing in the loop
    bounds the walk otherwise. *)
Theorem resolve_terminates_iff (db : Db) (tid : N) (tty : TargetType) :
  ((exists fuel r, get_effective_standard_version fuel db tid tty = Returns r)
   <-> (has_assignment db tid tty \/ stops db (start_folder db tid tty)))
  /\ (forall l,
        ancestors db (start_folder db tid tty) l ->
        exists r, forall fuel, length l <= fuel ->
          get_effective_standard_version fuel db tid tty = Returns r).
Proof.
  unfold get_effective_standard_version. split; [split|].
  - intros (fuel & r & Hr).
    destruct (select_assignment db tid tty) as [a|] eqn:Hsel.
    + left. apply select_assignment_Some in Hsel. exists a. tauto.
    + right. by eapply walk_returns_stops.
  - intros [Hdirect | Hstops].
    + destruct (select_assignment db tid tty) as [a|] eqn:Hsel.
      * by exists 0, (get_version db a).
      * by apply select_assignment_None in Hsel.
    + destruct (select_assignment db tid tty) as [a|].
      * by exists 0, (get_version db a).
      * by apply stops_walk_returns.
  - intros l Hanc. destruct (select_assignment db tid tty) as [a|].
    + by exists (get_version db a).
    + exists (nearest db l ≫= get_version db). intros fuel Hlen.
      by apply walk_ancestors.
Qed.

End InheritanceProofs.

(* ===================================================================== *)
(** * Properties of the assignment operations *)
(* ===================================================================== *)

Module AssignmentProofs.
Import Py Store Assignments Examples.

Lemma rows_for_app rows rows' tid tty :
  rows_for (rows ++ rows') tid tty = rows_for rows tid tty + rows_for rows' tid tty.
Proof. unfold rows_for. by rewrite List.filter_app, List.length_app. Qed.

Lemma on_target_with_version tid tty v a :
  on_target tid tty (with_version v a) = on_target tid tty a.
Proof. reflexivity. Qed.

(** Updating a row in place changes no count. *)
Lemma rows_for_update_first p v rows tid tty :
  rows_for (update_first p v rows) tid tty = rows_for rows tid tty.
Proof.
  unfold rows_for. induction rows as [|a rows IH]; [done|]. simpl.
  destruct (p a); simpl.
  - rewrite on_target_with_version. by destruct (on_target tid tty a).
  - destruct (on_target tid tty a); simpl; by rewrite IH.
Qed.

Lemma rows_for_none db tid tty :
  select_assignment db tid tty = None -> rows_for (assignments db) tid tty = 0.
Proof.
  unfold select_assignment, rows_for. intros Hf.
  induction (assignments db) as [|a rows IH]; [done|]. simpl in *.
  destruct (on_target tid tty a); [done|]. by apply IH.
Qed.

Lemma rows_for_new tid tty v tid' tty' :
  rows_for [new_assignment tid tty v] tid' tty'
  = if bool_decide (tid = tid' /\ tty = tty') then 1 else 0.
Proof.
  unfold rows_for, on_target. simpl.
  destruct (decide (tid = tid')) as [->|Hid], (decide (tty = tty')) as [->|Hty].
  - rewrite !bool_decide_eq_true_2 by done. done.
  - rewrite bool_decide_eq_true_2 by done.
    rewrite !bool_decide_eq_false_2 by tauto. done.
  - rewrite (bool_decide_eq_false_2 (tid = tid')) by done.
    rewrite (bool_decide_eq_false_2 (_ /\ _)) by tauto. done.
  - rewrite (bool_decide_eq_false_2 (tid = tid')) by done.
    rewrite (bool_decide_eq_false_2 (_ /\ _)) by tauto. done.
Qed.

Lemma rows_for_update_nth p i v rows tid tty :
  rows_for (update_nth p i v rows) tid tty = rows_for rows tid tty.
Proof.
  unfold rows_for. revert i. induction rows as [|a rows IH]; intros i; [done|].
  simpl. destruct (p a); [destruct i as [|i]|]; simpl.
  - rewrite on_target_with_version. by destruct (on_target tid tty a).
  - destruct (on_target tid tty a); simpl; by rewrite IH.
  - destruct (on_target tid tty a); simpl; by rewrite IH.
Qed.

Lemma update_nth_first p v rows : update_nth p 0 v rows = update_first p v rows.
Proof.
  induction rows as [|a rows IH]; [done|]. simpl.
  destruct (p a); [done|]. by rewrite IH.
Qed.

Lemma rows_for_some db tid tty a :
  select_assignment db tid tty = Some a -> 1 <= rows_for (assignments db) tid tty.
Proof.
  unfold select_assignment, rows_for.
  induction (assignments db) as [|b rows IH]; [done|]. simpl.
  destruct (on_target tid tty b); simpl; [lia|]. apply IH.
Qed.

(** What a committed request has done: the other tables are untouched,
    the version exists, and one row was updated or one row added. *)
Lemma assign_standard_committed scan db tid tty v db' :
  assign_standard scan db tid tty v = Committed db' ->
  versions db' = versions db /\ folders db' = folders db
  /\ documents db' = documents db
  /\ is_Some (versions db !! v)
  /\ ((rows_for (assignments db) tid tty = 0
       /\ assignments db' = assignments db ++ [new_assignment tid tty v])
      \/ (1 <= rows_for (assignments db) tid tty
          /\ exists i,
               assignments db'
               = update_nth (on_target tid tty) i v (assignments db))).
Proof.
  unfold assign_standard.
  destruct (versions db !! v) as [version|]; [|done].
  intros [= <-]. simpl. do 4 (split; [done|]).
  destruct (rows_for (assignments db) tid tty) as [|n]; [by left|].
  right. split; [lia|]. by eexists.
Qed.

(** The request raises exactly when the version does not exist. *)
Lemma assign_standard_raises scan db tid tty v :
  assign_standard scan db tid tty v = IntegrityError <-> versions db !! v = None.
Proof. unfold assign_standard. by destruct (versions db !! v). Qed.

(** On a target with at most one row the order of the scan plays no
    part. *)
Lemma assign_standard_single scan db tid tty v version :
  versions db !! v = Some version ->
  rows_for (assignments db) tid tty <= 1 ->
  assign_standard scan db tid tty v
  = Committed
      (with_rows db
         match select_assignment db tid tty with
         | Some _ => update_first (on_target tid tty) v (assignments db)
         | None => assignments db ++ [new_assignment tid tty v]
         end).
Proof.
  intros Hv Hone. unfold assign_standard. rewrite Hv.
  destruct (select_assignment db tid tty) as [a|] eqn:Hsel.
  - apply rows_for_some in Hsel.
    assert (rows_for (assignments db) tid tty = 1) as -> by lia.
    by rewrite Nat.mod_1_r, update_nth_first.
  - by rewrite (rows_for_none _ _ _ Hsel).
Qed.

(** The endpoint keeps the invariant: its query selects by target only,
    so an existing row is updated in place. *)
Lemma assign_standard_at_most_one scan db tid tty v db' :
  at_most_one (assignments db) ->
  assign_standard scan db tid tty v = Committed db' ->
  at_most_one (assignments db').
Proof.
  intros Hinv Hrun tid' tty'.
  destruct (assign_standard_committed _ _ _ _ _ _ Hrun)
    as (_ & _ & _ & _ & [[Hnone ->]|[_ [i ->]]]).
  - rewrite rows_for_app, rows_for_new. case_bool_decide as Heq.
    + destruct Heq as [<- <-]. lia.
    + specialize (Hinv tid' tty'). lia.
  - rewrite rows_for_update_nth. apply Hinv.
Qed.

(** Re-assignment through the endpoint replaces the version of the
    target's row. *)
Lemma assign_standard_replaces scan db tid tty v version a :
  versions db !! v = Some version ->
  rows_for (assignments db) tid tty <= 1 ->
  select_assignment db tid tty = Some a ->
  exists db',
    assign_standard scan db tid tty v = Committed db'
    /\ select_assignment db' tid tty = Some (with_version v a).
Proof.
  intros Hv Hone Hsel. eexists. split; [by eapply assign_standard_single|].
  rewrite Hsel. unfold select_assignment in *. simpl.
  induction (assignments db) as [|b rows IH]; [done|]. simpl in *.
  destruct (on_target tid tty b) eqn:Hb; simpl.
  - rewrite on_target_with_version, Hb. congruence.
  - rewrite Hb. apply IH; [|done]. unfold rows_for in *. simpl in Hone.
    by rewrite Hb in Hone.
Qed.

(** The per-document loop of [apply_to_folder] keeps the invariant too. *)
Lemma assign_documents_at_most_one docs : forall rows v rows',
  at_most_one rows ->
  assign_documents rows v docs = Done rows' ->
  at_most_one rows'.
Proof.
  induction docs as [|d docs IH]; intros rows v rows' Hinv Hrun; simpl in Hrun.
  - by injection Hrun as <-.
  - destruct (List.filter (on_target d DOCUMENT) rows) as [|a [|b rest]] eqn:Hf;
      simpl in Hrun; [| |discriminate].
    + eapply IH; [|exact Hrun]. intros tid' tty'.
      rewrite rows_for_app, rows_for_new. case_bool_decide as Heq.
      * destruct Heq as [<- <-]. unfold rows_for. rewrite Hf. simpl. lia.
      * specialize (Hinv tid' tty'). lia.
    + eapply IH; [|exact Hrun]. intros tid' tty'.
      rewrite rows_for_update_first. apply Hinv.
Qed.

(** C4 fails on the code: [apply_to_document] looks for a row with the
    same target AND the same version, so applying version 11 to document 7
    already bound to version 10 inserts a second row for that document. *)
Theorem apply_to_document_second_row :
  exists db1 db2,
    apply_to_document db_unassigned 10%N 7%N = Done db1
    /\ apply_to_document db1 11%N 7%N = Done db2
    /\ assignments db2
       = [new_assignment 7%N DOCUMENT 10%N; new_assignment 7%N DOCUMENT 11%N]
    /\ rows_for (assignments db2) 7%N DOCUMENT = 2
    /\ ~ at_most_one (assignments db2).
Proof.
  eexists _, _. split; [reflexivity|]. split; [reflexivity|].
  split; [reflexivity|]. split; [reflexivity|].
  intros Hinv. specialize (Hinv 7%N DOCUMENT). vm_compute in Hinv. lia.
Qed.

(** The folder row of [apply_to_folder] is handled the same way: binding
    folder 1 to version 10 and then to version 11 leaves two FOLDER rows
    for it, while the row of the document inside is updated in place. *)
Lemma apply_to_folder_second_row :
  exists db1 db2,
    apply_to_folder 1000 db_unassigned 10%N 1%N true = Done db1
    /\ apply_to_folder 1000 db1 11%N 1%N true = Done db2
    /\ assignments db2
       = [new_assignment 1%N FOLDER 10%N; new_assignment 7%N DOCUMENT 11%N;
          new_assignment 1%N FOLDER 11%N]
    /\ rows_for (assignments db2) 1%N FOLDER = 2.
Proof.
  eexists _, _. split; [by vm_compute|]. split; [by vm_compute|].
  split; reflexivity.
Qed.

End AssignmentProofs.

(* ===================================================================== *)
(** * Properties of the deterministic validator *)
(* ===================================================================== *)

Module ValidationProofs.
Import Py Store Validation Examples.
Local Open Scope validation_scope.


Section Running.
Context `{Libraries}.

(** *** Statements that cannot raise *)

Lemma bind_ok {A B : Type} (m : M A) (k : A -> M B) r a :
  (m r).2 = Ok a -> bind m k r = k a (exec m r).
Proof. unfold bind, exec. destruct (m r) as [r' o]. simpl. by intros ->. Qed.

Lemma bind_raised {A B : Type} (m : M A) (k : A -> M B) r :
  (m r).2 = Raised -> bind m k r = (exec m r, Raised).
Proof. unfold bind, exec. destruct (m r) as [r' o]. simpl. by intros ->. Qed.

Lemma hard_failure_ok msg r : (hard_failure msg r).2 = Ok tt.
Proof. reflexivity. Qed.

Lemma check_version_ok v r : (check_version v r).2 = Ok tt.
Proof. unfold check_version. by case_bool_decide. Qed.

Lemma check_macros_ok b r : (check_macros b r).2 = Ok tt.
Proof. unfold check_macros. by destruct (_has_macros b). Qed.



(** The three checks that precede the metadata rules always complete. *)
Lemma validate_loaded_run b rules doc r :
  validate_loaded b rules doc r
  = (metadata_phase rules doc ;; styles_phase rules doc)
      (exec (check_macros b)
         (exec (check_version (topnode_version doc))
            (exec (set_detail "format" "ODF") r))).
Proof.
  unfold validate_loaded.
  rewrite (bind_ok (set_detail _ _) _ _ tt) by done.
  rewrite (bind_ok (check_version _) _ _ tt) by apply check_version_ok.
  by rewrite (bind_ok (check_macros _) _ _ tt) by apply check_macros_ok.
Qed.

(** With a dict of metadata rules the phase is its loop. *)
Lemma metadata_phase_run rules doc tm :
  metadata_rules rules = Some tm ->
  metadata_phase rules doc
  = for_each tm (check_metadata (_extract_metadata doc)).
Proof.
  unfold metadata_rules, metadata_phase. intros Hm.
  destruct rules as [| | | |?|d]; try discriminate. simpl.
  destruct (dict_get "metadata" d) as [[| | | |?|tm']|]; try discriminate;
    by injection Hm as <-.
Qed.

(** *** Properties that no later statement can undo *)

Section Stable.
Variable Msg : string -> Prop.
Variable Inv : Report -> Prop.
Hypothesis Inv_warning : forall r w, Inv r -> Inv (exec (append_warning w) r).
Hypothesis Inv_detail : forall r k v, Inv r -> Inv (exec (set_detail k v) r).
Hypothesis Inv_failure : forall r m, Msg m -> Inv r -> Inv (exec (hard_failure m) r).

Lemma keeps_ret {A : Type} (a : A) : keeps Inv (ret a).
Proof. by intros r. Qed.

Lemma keeps_raise {A : Type} : keeps Inv (@raise A).
Proof. by intros r. Qed.

Lemma keeps_bind {A B : Type} (m : M A) (k : A -> M B) :
  keeps Inv m -> (forall a, keeps Inv (k a)) -> keeps Inv (bind m k).
Proof.
  intros Hm Hk r Hr. specialize (Hm r Hr). unfold exec, bind in *.
  destruct (m r) as [r' [a|]]; simpl in *; [by apply Hk|done].
Qed.

Lemma keeps_for_each {A : Type} (l : list A) (body : A -> M unit) :
  (forall x, In x l -> keeps Inv (body x)) -> keeps Inv (for_each l body).
Proof.
  induction l as [|x l IH]; intros Hbody; [apply keeps_ret|].
  simpl. apply keeps_bind; [apply Hbody; by left|].
  intros _. apply IH. intros y Hy. apply Hbody. by right.
Qed.

Lemma keeps_py_get k default v : keeps Inv (py_get k default v).
Proof.
  destruct v; try apply keeps_raise. simpl.
  destruct (dict_get k d); apply keeps_ret.
Qed.

Lemma keeps_py_items v : keeps Inv (py_items v).
Proof. destruct v; try apply keeps_raise. apply keeps_ret. Qed.

Lemma keeps_warning w : keeps Inv (append_warning w).
Proof. intros r. apply Inv_warning. Qed.

Lemma keeps_failure m : Msg m -> keeps Inv (hard_failure m).
Proof. intros Hm r. by apply Inv_failure. Qed.

Lemma keeps_check_property name props kv : keeps Inv (check_property name props kv).
Proof.
  unfold check_property. destruct (props !! kv.1); [|apply keeps_ret].
  destruct (str_ne _ _); [apply keeps_warning|apply keeps_ret].
Qed.

Lemma keeps_check_style doc_styles kv : keeps Inv (check_style doc_styles kv).
Proof.
  unfold check_style. destruct (doc_styles !! Some kv.1); [|apply keeps_ret].
  apply keeps_bind; [apply keeps_py_get|]. intros rule_props.
  apply keeps_bind; [apply keeps_py_items|]. intros items.
  apply keeps_for_each. intros x _. apply keeps_check_property.
Qed.

Lemma keeps_styles_phase rules doc : keeps Inv (styles_phase rules doc).
Proof.
  unfold styles_phase, _validate_styles.
  apply keeps_bind; [apply keeps_py_get|]. intros allowed.
  apply keeps_bind; [apply keeps_py_items|]. intros items.
  apply keeps_for_each. intros x _. apply keeps_check_style.
Qed.

Lemma keeps_check_version v : Msg (msg_strict v) -> keeps Inv (check_version v).
Proof.
  intros Hm. unfold check_version. case_bool_decide; [|apply keeps_ret].
  apply keeps_bind; [apply keeps_warning|]. intros _.
  by apply keeps_failure.
Qed.

Lemma keeps_check_macros b : Msg msg_macros -> keeps Inv (check_macros b).
Proof.
  intros Hm. unfold check_macros.
  destruct (_has_macros b); [by apply keeps_failure|apply keeps_ret].
Qed.

Lemma keeps_check_metadata md kv :
  (md !! kv.1 = None -> Msg (msg_missing kv.1)) ->
  keeps Inv (check_metadata md kv).
Proof.
  intros Hm. unfold check_metadata.
  destruct (md !! kv.1); [|by apply keeps_failure; apply Hm].
  destruct (str_ne _ _); [apply keeps_warning|apply keeps_ret].
Qed.

Lemma keeps_metadata_phase rules doc :
  (forall tm key value,
      metadata_rules rules = Some tm -> In (key, value) tm ->
      _extract_metadata doc !! key = None -> Msg (msg_missing key)) ->
  keeps Inv (metadata_phase rules doc).
Proof.
  intros Hm. destruct (metadata_rules rules) as [tm|] eqn:Hrules.
  - rewrite (metadata_phase_run _ _ _ Hrules).
    apply keeps_for_each. intros [key value] Hin.
    apply keeps_check_metadata. simpl. eauto.
  - intros r Hr.
    unfold metadata_rules, metadata_phase, exec, bind, py_get, py_items in *.
    destruct rules as [| | | |?|d]; try done.
    destruct (dict_get "metadata" d) as [[| | | |?|tm']|];
      try discriminate; done.
Qed.

Lemma keeps_validate_loaded b rules doc :
  Msg (msg_strict (topnode_version doc)) ->
  Msg msg_macros ->
  (forall tm key value,
      metadata_rules rules = Some tm -> In (key, value) tm ->
      _extract_metadata doc !! key = None -> Msg (msg_missing key)) ->
  keeps Inv (validate_loaded b rules doc).
Proof.
  intros Hv Hmac Hmiss. unfold validate_loaded.
  apply keeps_bind; [intros r; apply Inv_detail|]. intros _.
  apply keeps_bind; [by apply keeps_check_version|]. intros _.
  apply keeps_bind; [by apply keeps_check_macros|]. intros _.
  apply keeps_bind; [by apply keeps_metadata_phase|]. intros _.
  apply keeps_styles_phase.
Qed.

End Stable.

(** When every message is admitted, the whole validator keeps a stable
    property of the fresh report. *)
Section StableEverywhere.
Variable Inv : Report -> Prop.
Hypothesis Inv_warning : forall r w, Inv r -> Inv (exec (append_warning w) r).
Hypothesis Inv_detail : forall r k v, Inv r -> Inv (exec (set_detail k v) r).
Hypothesis Inv_failure : forall r m, Inv r -> Inv (exec (hard_failure m) r).

Lemma Inv_failure_any :
  forall r m, (fun _ : string => True) m -> Inv r -> Inv (exec (hard_failure m) r).
Proof. intros r m _. apply Inv_failure. Qed.

Lemma keeps_validate_odf b sv : keeps Inv (_validate_odf b sv).
Proof.
  unfold _validate_odf. destruct (odf_load b) as [e|doc].
  - intros r. apply Inv_failure.
  - apply (keeps_validate_loaded (fun _ => True) Inv Inv_warning Inv_detail
             Inv_failure_any);
      done.
Qed.

Lemma keeps_word_branch b z : keeps Inv (word_branch b z).
Proof.
  unfold word_branch. destruct (in_namelist _ z); [|apply keeps_ret].
  apply keeps_bind; [intros r; apply Inv_detail|]. intros _.
  apply keeps_bind; [by apply keeps_warning|]. intros _.
  apply keeps_bind; [|intros _; apply keeps_ret].
  destruct (_has_macros_docx b); [|apply keeps_ret].
  intros r. apply Inv_failure.
Qed.

Lemma keeps_try_zip b sv : keeps Inv (try_zip b sv).
Proof.
  unfold try_zip. destruct (zip_open b) as [z|]; [|apply keeps_raise].
  destruct (in_namelist "mimetype" z); [|apply keeps_word_branch].
  destruct (zip_read "mimetype" z) as [raw|]; [|apply keeps_raise].
  destruct (utf8_decode raw) as [mimetype|]; [|apply keeps_raise].
  destruct (contains "opendocument" mimetype); [|apply keeps_word_branch].
  apply keeps_bind; [apply keeps_validate_odf|]. intros _. apply keeps_ret.
Qed.

Lemma stable_validate_document b sv :
  Inv fresh_report -> Inv (validate_document b sv).
Proof.
  intros H0. unfold validate_document.
  destruct (bytes_startswith b pdf_magic).
  - apply (keeps_bind Inv (set_detail "format" "PDF")
             (fun _ => append_warning msg_pdf)); [| |done].
    + intros r. apply Inv_detail.
    + intros _ r. apply Inv_warning.
  - destruct (is_zipfile b); [|by apply Inv_failure].
    pose proof (keeps_try_zip b sv fresh_report H0) as Hr.
    unfold exec in Hr.
    destruct (try_zip b sv fresh_report) as [r [[|]|]]; simpl in Hr;
      [done|by apply Inv_failure|by apply Inv_failure].
Qed.

End StableEverywhere.

(** *** Dispatch *)

Lemma validate_document_odf b sv :
  is_odf_container b = true ->
  validate_document b sv
  = match _validate_odf b sv fresh_report with
    | (r, Ok _) => r
    | (r, Raised) => unsupported r
    end.
Proof.
  unfold is_odf_container, validate_document, try_zip.
  rewrite !andb_true_iff, negb_true_iff. intros [[-> ->] Hz].
  destruct (zip_open b) as [z|]; [|done].
  apply andb_true_iff in Hz as [-> Hz].
  destruct (zip_read "mimetype" z) as [raw|]; [|done].
  destruct (utf8_decode raw) as [mimetype|]; [|done]. rewrite Hz.
  unfold bind. by destruct (_validate_odf b sv fresh_report) as [r [[]|]].
Qed.

Lemma validate_document_word b sv :
  is_word_package b = true ->
  validate_document b sv
  = exec (set_detail "format" "DOCX" ;; append_warning msg_docx ;;
          if _has_macros_docx b then hard_failure msg_docx_macros else ret tt)
      fresh_report.
Proof.
  unfold is_word_package, validate_document, try_zip.
  rewrite !andb_true_iff, negb_true_iff. intros [[-> ->] Hz].
  destruct (zip_open b) as [z|]; [|done].
  apply andb_true_iff in Hz as [Hword Hz].
  assert (word_branch b z fresh_report
          = (exec (set_detail "format" "DOCX" ;; append_warning msg_docx ;;
                   if _has_macros_docx b then hard_failure msg_docx_macros
                   else ret tt) fresh_report, Ok Return)) as Hrun.
  { unfold word_branch. rewrite Hword. unfold bind, exec. simpl.
    by destruct (_has_macros_docx b). }
  apply orb_true_iff in Hz as [Hno|Hmime].
  - apply negb_true_iff in Hno. rewrite Hno. by rewrite Hrun.
  - destruct (in_namelist "mimetype" z); [|by rewrite Hrun].
    destruct (zip_read "mimetype" z) as [raw|]; [|done].
    destruct (utf8_decode raw) as [mimetype|]; [|done].
    apply negb_true_iff in Hmime. rewrite Hmime. by rewrite Hrun.
Qed.

Lemma has_macros_entry b z e :
  zip_open b = Some z -> In e z -> odf_macro_name (ze_name e) = true ->
  _has_macros b = true.
Proof.
  intros Hz Hin He. unfold _has_macros. rewrite Hz.
  apply existsb_exists. eauto.
Qed.

Lemma has_macros_docx_entry b z e :
  zip_open b = Some z -> In e z -> word_macro_name (ze_name e) = true ->
  _has_macros_docx b = true.
Proof.
  intros Hz Hin He. unfold _has_macros_docx. rewrite Hz.
  apply existsb_exists. eauto.
Qed.

(** *** Reports of ODF documents *)

Lemma exec_failure m r :
  exec (hard_failure m) r
  = {| compliant := false; errors := errors r ++ [m];
       warnings := warnings r; details := details r |}.
Proof. reflexivity. Qed.


(** The report of a loaded ODF document: the three first checks, then
    the metadata and style phases under the [try]. *)
Lemma odf_report b sv doc :
  is_odf_container b = true -> odf_load b = inr doc ->
  validate_document b sv
  = after_try
      ((metadata_phase (rules_json sv) doc ;; styles_phase (rules_json sv) doc)
         (exec (check_macros b)
            (exec (check_version (topnode_version doc))
               (exec (set_detail "format" "ODF") fresh_report)))).
Proof.
  intros Hodf Hload. rewrite (validate_document_odf _ _ Hodf).
  unfold _validate_odf. rewrite Hload, validate_loaded_run.
  by destruct (bind _ _ _) as [r [[]|]].
Qed.

Section Tail.
Variable Msg : string -> Prop.
Variable Inv : Report -> Prop.
Hypothesis Inv_warning : forall r w, Inv r -> Inv (exec (append_warning w) r).
Hypothesis Inv_detail : forall r k v, Inv r -> Inv (exec (set_detail k v) r).
Hypothesis Inv_failure : forall r m, Msg m -> Inv r -> Inv (exec (hard_failure m) r).
Hypothesis Msg_unsupported : Msg msg_unsupported.

Lemma after_try_keeps {A : Type} (m : M A) r :
  keeps Inv m -> Inv r -> Inv (after_try (m r)).
Proof.
  intros Hm Hr. specialize (Hm r Hr). unfold exec in Hm.
  destruct (m r) as [r' [a|]]; simpl in *; [done|].
  by apply Inv_failure.
Qed.




End Tail.

End Running.

(** ** The claims *)

Section Claims.
Context `{Libraries}.

(** C10: whatever the bytes and the rules, the report is compliant
    exactly when it lists no error. *)
Theorem compliant_iff_no_errors (b : list byte) (sv : StandardVersion) :
  compliant (validate_document b sv) = true
  <-> errors (validate_document b sv) = [].
Proof.
  assert (sound (validate_document b sv)) as Hs.
  { apply (stable_validate_document sound).
    - by intros r w.
    - by intros r k v.
    - intros r m _. right. rewrite exec_failure. simpl. split; [done|].
      by destruct (errors r).
    - by left. }
  destruct Hs as [[-> ->]|[-> He]]; [done|]. split; [done|]. by intros.
Qed.

(** C9: the report is a function of the bytes and of the [rules_json] of
    the standard version; no other field of the version, and no state
    left by an earlier call, enters it. *)
Theorem validate_document_pure (b : list byte) (sv1 sv2 : StandardVersion) :
  rules_json sv1 = rules_json sv2 ->
  validate_document b sv1 = validate_document b sv2.
Proof.
  intros Heq. unfold validate_document, try_zip, _validate_odf.
  by rewrite Heq.
Qed.

(** C3, amended: bytes that are neither a PDF nor a ZIP archive (plain
    text) are refused as an unsupported format; the metadata rules are
    not consulted. *)
Theorem plain_text_unsupported (b : list byte) (sv : StandardVersion) :
  bytes_startswith b pdf_magic = false ->
  is_zipfile b = false ->
  validate_document b sv
  = {| compliant := false; errors := [msg_unsupported]; warnings := [];
       details := ∅ |}.
Proof. intros Hpdf Hzip. unfold validate_document. by rewrite Hpdf, Hzip. Qed.

(** C6, amended: in a document dispatched to the ODF validator and
    loaded by it, a member under [Basic/] or [Scripts/] makes the report
    non-compliant with the macro error, whatever the version, metadata
    and style rules give or raise; in a document dispatched to the Word
    branch a macro member gives exactly the macro failure. *)
Theorem macros_hard_failure (b : list byte) (sv : StandardVersion)
    (z : list ZipEntry) (e : ZipEntry) :
  zip_open b = Some z -> In e z ->
  (is_odf_container b = true ->
   (exists doc, odf_load b = inr doc) ->
   odf_macro_name (ze_name e) = true ->
   compliant (validate_document b sv) = false
   /\ In msg_macros (errors (validate_document b sv)))
  /\ (is_word_package b = true ->
      word_macro_name (ze_name e) = true ->
      validate_document b sv
      = {| compliant := false; errors := [msg_docx_macros];
           warnings := [msg_docx]; details := <["format" := "DOCX"]> ∅ |}).
Proof.
  intros Hz Hin. split.
  - intros Hodf [doc Hload] He. rewrite (odf_report _ _ _ Hodf Hload).
    set (Inv := fun r => compliant r = false /\ In msg_macros (errors r)).
    assert (forall r w, Inv r -> Inv (exec (append_warning w) r)) as Iw by done.
    assert (forall r k v, Inv r -> Inv (exec (set_detail k v) r)) as Id by done.
    assert (forall r m, True -> Inv r -> Inv (exec (hard_failure m) r)) as If.
    { intros r m _ [_ Hr]. rewrite exec_failure. split; [done|].
      simpl. apply in_or_app. by left. }
    apply (after_try_keeps (fun _ => True) Inv If Logic.I).
    + apply (keeps_bind Inv).
      * by apply (keeps_metadata_phase (fun _ => True) Inv Iw If).
      * intros _. by apply (keeps_styles_phase Inv Iw).
    + unfold check_macros. rewrite (has_macros_entry _ _ _ Hz Hin He).
      rewrite exec_failure. split; [done|]. simpl.
      apply in_or_app. right. by left.
  - intros Hword He. rewrite (validate_document_word _ _ Hword).
    by rewrite (has_macros_docx_entry _ _ _ Hz Hin He).
Qed.

(** *** The extracted metadata and the elements of the document *)












End Claims.

(** ** Instances *)

(** Two versions that differ in their number and share their rules give
    the same report. *)
Lemma validate_document_pure_witness :
  @validate_document odt_libraries archive_bytes version_1
  = @validate_document odt_libraries archive_bytes version_2.
Proof.
  apply (@validate_document_pure odt_libraries archive_bytes version_1 version_2).
  reflexivity.
Defined.

Lemma plain_text_unsupported_witness :
  @validate_document plain_libraries plain_text version_1
  = {| compliant := false; errors := [msg_unsupported]; warnings := [];
       details := ∅ |}.
Proof.
  apply (@plain_text_unsupported plain_libraries plain_text version_1);
    vm_compute; reflexivity.
Defined.

Example plain_text_report :
  @validate_document plain_libraries plain_text version_1
  = {| compliant := false;
       errors := ["Unsupported file format. Please upload ODF, PDF, or Word (.docx) files."];
       warnings := []; details := ∅ |}.
Proof. by vm_compute. Qed.

(** C3, as stated, fails: for a plain-text document and rules whose
    metadata is [{"title": "X"}] the report is non-compliant, but none of
    its errors mentions [title]. *)
Lemma plain_text_error_does_not_mention_title :
  ~ (compliant (@validate_document plain_libraries plain_text version_1) = false
     /\ exists e,
         In e (errors (@validate_document plain_libraries plain_text version_1))
         /\ contains "title" e = true).
Proof.
  rewrite plain_text_report. simpl.
  intros [_ (e & [<-|[]] & Hc)]. vm_compute in Hc. discriminate.
Qed.

Lemma macros_hard_failure_witness :
  (compliant (@validate_document odt_macro_libraries archive_bytes version_1) = false
   /\ In msg_macros
        (errors (@validate_document odt_macro_libraries archive_bytes version_1)))
  /\ @validate_document docm_libraries archive_bytes version_1
     = {| compliant := false; errors := [msg_docx_macros];
          warnings := [msg_docx]; details := <["format" := "DOCX"]> ∅ |}.
Proof.
  split.
  - apply (@macros_hard_failure odt_macro_libraries archive_bytes version_1
             odt_macro_archive (member "Basic/Standard/Module1.xml" "<script/>")).
    + reflexivity.
    + simpl. tauto.
    + vm_compute. reflexivity.
    + exists odt_document. reflexivity.
    + vm_compute. reflexivity.
  - apply (@macros_hard_failure docm_libraries archive_bytes version_1
             docm_archive (member "word/vbaProject.bin" "VBA")).
    + reflexivity.
    + simpl. tauto.
    + vm_compute. reflexivity.
    + vm_compute. reflexivity.
Defined.

(** C6, as stated, fails: an ODF archive with a [Basic/] member that is
    stored behind a PDF header is reported compliant, without any error (the
    PDF branch returns before the archive is looked at); and when [load]
    raises on such an archive the report holds the load error only (the
    macro scan is not reached). *)
Lemma pdf_prefixed_macros_pass :
  @zip_open odt_macro_libraries pdf_prefixed_archive = Some odt_macro_archive
  /\ In (member "Basic/Standard/Module1.xml" "<script/>") odt_macro_archive
  /\ odf_macro_name "Basic/Standard/Module1.xml" = true
  /\ compliant (@validate_document odt_macro_libraries pdf_prefixed_archive version_1)
     = true
  /\ errors (@validate_document odt_macro_libraries pdf_prefixed_archive version_1)
     = []
  /\ errors (@validate_document
               (libraries true (Some odt_macro_archive) (inl "'content.xml'"))
               archive_bytes version_1)
     = ["Invalid ODF file: 'content.xml'"].
Proof.
  split; [reflexivity|]. split; [simpl; tauto|].
  split; [by vm_compute|]. split; [by vm_compute|]. split; by vm_compute.
Qed.




(** The document of the examples: the title is missing (an error), the
    creator differs (a warning). *)
Example odt_report :
  @validate_document odt_libraries archive_bytes version_3
  = {| compliant := false;
       errors := ["Missing required metadata field: title"];
       warnings := ["Metadata mismatch for creator. Expected 'Alice', got 'Bob'"];
       details := <["format" := "ODF"]> ∅ |}.
Proof. by vm_compute. Qed.

(** A title that differs from the rule's by a leading no-break space only
    is no mismatch: [strip] removes it. *)
Example nbsp_title_matches :
  @validate_document (libraries true (Some odt_archive) (inr nbsp_title_document))
    archive_bytes version_1
  = {| compliant := true; errors := []; warnings := [];
       details := <["format" := "ODF"]> ∅ |}.
Proof. by vm_compute. Qed.

End ValidationProofs.

(* ===================================================================== *)
(** * Properties of the decision flow *)
(* ===================================================================== *)

Module DecisionFlowProofs.
Import Py DecisionFlow Examples.

Lemma build_approved_high s safe cond :
  (75 <= s)%Q ->
  build_approved s safe cond
  = {| g_action := "safe_apply"; g_approved := safe ++ cond; g_warnings := [] |}.
Proof.
  intros Hs. unfold build_approved.
  by rewrite (proj2 (Qle_bool_iff 75 s) Hs).
Qed.

Lemma Qle_bool_false x y : (y < x)%Q -> Qle_bool x y = false.
Proof.
  intros Hlt. destruct (Qle_bool x y) eqn:Hle; [|done].
  apply Qle_bool_iff in Hle. by apply Qlt_not_le in Hlt.
Qed.

Lemma build_approved_medium s safe cond :
  (40 <= s)%Q -> (s < 75)%Q ->
  build_approved s safe cond
  = {| g_action := "selective_apply"; g_approved := safe ++ cond;
       g_warnings := List.map caution cond |}.
Proof.
  intros Hlo Hhi. unfold build_approved.
  by rewrite (Qle_bool_false _ _ Hhi), (proj2 (Qle_bool_iff 40 s) Hlo).
Qed.

Lemma build_approved_low s safe cond :
  (s < 40)%Q ->
  build_approved s safe cond
  = {| g_action := "report_only"; g_approved := []; g_warnings := [] |}.
Proof.
  intros Hs. unfold build_approved.
  assert (s < 75)%Q as Hhi by (eapply Qlt_trans; [exact Hs|done]).
  by rewrite (Qle_bool_false _ _ Hhi), (Qle_bool_false _ _ Hs).
Qed.

(** The three tiers are the only ones, and the approved list is drawn
    from the safe and conditional rules. *)
Lemma build_approved_cases s safe cond :
  let g := build_approved s safe cond in
  (g_action g = "report_only" /\ g_approved g = [])
  \/ (g_action g <> "report_only" /\ g_approved g = safe ++ cond).
Proof.
  unfold build_approved.
  destruct (Qle_bool 75 s); [by right|].
  destruct (Qle_bool 40 s); [by right|by left].
Qed.

Section Claims.
Context `{Oracle}.

(** Whether Phase 4 calls the oracle depends on the approved list only. *)
Lemma transform_phase_calls fname std level text compat s rk selected safe cond :
  let g := build_approved s safe cond in
  transformed_with
    (transform_phase fname std level text compat s rk selected g).2
  = if bool_decide (g_approved g = []) then []
    else [List.map approve (g_approved g)].
Proof.
  intros g. unfold transform_phase.
  destruct (build_approved_cases s safe cond) as [[Ha He]|[Ha He]];
    fold g in Ha, He.
  - by rewrite Ha, He.
  - apply String.eqb_neq in Ha. rewrite Ha. simpl.
    case_bool_decide as Hnil; simpl; [done|].
    by destruct (unpack _) as [[[tc dv] pi] cs].
Qed.

Lemma transform_phase_fields fname std level text compat s rk selected g :
  let rep := (transform_phase fname std level text compat s rk selected g).1 in
  action rep = g_action g /\ compatibility rep = compat /\ score rep = s
  /\ risk rep = rk /\ rule_selection rep = selected
  /\ warnings rep = g_warnings g /\ original_content rep = text.
Proof.
  unfold transform_phase.
  destruct (negb _ && negb _); [|done].
  by destruct (unpack _) as [[[tc dv] pi] cs].
Qed.

(** C1, amended: once analysis and selection have succeeded, the action,
    the approved list and the warnings follow the thresholds 75 and 40;
    the oracle is asked to transform exactly when the approved list is
    not empty, with that list; below 40 no transformation is made and
    no content is returned; and every approved rule is one of the safe
    or conditional rules of the selection: the forbidden list is never
    appended, and no forbidden rule is approved when the selection keeps
    it out of its safe and conditional lists. *)
Theorem apply_gating
    (b : list byte) (fname : string) (std : json) (level : string)
    (text : string) (compat : Compatibility) (s : Q) (rk : string)
    (calls0 : list Call) :
  analyze b fname std = (Analysed text compat s rk, calls0) ->
  rs_error (select_rules std s) = None ->
  let safe := get_or (rs_safe_rules (select_rules std s)) [] in
  let cond := get_or (rs_conditional_rules (select_rules std s)) [] in
  let forb := get_or (rs_forbidden_rules (select_rules std s)) [] in
  let g := build_approved s safe cond in
  exists rep calls,
    apply b fname std level = (Decision rep, calls)
    /\ action rep = g_action g
    /\ warnings rep = g_warnings g
    /\ rule_selection rep
       = {| safe_rules := safe; conditional_rules := cond;
            forbidden_rules := forb |}
    /\ transformed_with calls
       = (if bool_decide (g_approved g = []) then []
          else [List.map approve (g_approved g)])
    /\ ((75 <= s)%Q ->
        g_action g = "safe_apply" /\ g_approved g = safe ++ cond
        /\ g_warnings g = [])
    /\ ((40 <= s)%Q /\ (s < 75)%Q ->
        g_action g = "selective_apply" /\ g_approved g = safe ++ cond
        /\ g_warnings g = List.map caution cond
        /\ length (g_warnings g) = length cond)
    /\ ((s < 40)%Q ->
        g_action g = "report_only" /\ g_approved g = []
        /\ g_warnings g = [] /\ transformed_with calls = []
        /\ transformed_content rep = None)
    /\ (forall r, In r (g_approved g) -> In r safe \/ In r cond)
    /\ ((forall r, In r forb -> ~ In r safe /\ ~ In r cond) ->
        forall r, In r forb -> ~ In r (g_approved g)).
Proof.
  intros Han Hsel safe cond forb g. unfold apply. rewrite Han, Hsel.
  fold safe cond forb. simpl. fold g.
  set (selected := {| safe_rules := safe; conditional_rules := cond;
                      forbidden_rules := forb |}).
  pose proof (transform_phase_fields fname std level text compat s rk
                selected g) as (Hact & _ & _ & _ & Hrs & Hw & _).
  pose proof (transform_phase_calls fname std level text compat s rk
                selected safe cond) as Hcalls.
  fold g in Hcalls.
  destruct (transform_phase _ _ _ _ _ _ _ _ _) as [rep tcalls] eqn:Hphase.
  assert (transformed_with tcalls
          = if bool_decide (g_approved g = []) then []
            else [List.map approve (g_approved g)]) as Htcalls.
  { change tcalls with (rep, tcalls).2. rewrite <- Hphase. exact Hcalls. }
  simpl in *.
  exists rep, (calls0 ++ [CallSelect std s] ++ tcalls).
  assert (transformed_with (calls0 ++ [CallSelect std s] ++ tcalls)
          = transformed_with tcalls) as Hlog.
  { unfold transformed_with. rewrite !flat_map_app. simpl.
    assert (flat_map
              (fun c => match c with
                        | CallTransform _ aj _ => [approved_rules aj]
                        | _ => []
                        end) calls0 = []) as ->; [|done].
    unfold analyze in Han.
    destruct (negb _); [done|].
    destruct (c_error _); [discriminate|]. by simplify_eq. }
  split; [by rewrite <- app_assoc|].
  split; [done|]. split; [done|]. split; [done|].
  split; [by rewrite Hlog|].
  assert (forall r, In r (g_approved g) -> In r safe \/ In r cond) as Hdrawn.
  { intros r Hr.
    destruct (build_approved_cases s safe cond) as [[_ He]|[_ He]];
      fold g in He; rewrite He in Hr; [done|by apply in_app_or]. }
  split; [|split; [|split; [|split; [exact Hdrawn|]]]].
  - intros Hs. subst g. by rewrite (build_approved_high _ _ _ Hs).
  - intros [Hlo Hhi]. subst g.
    rewrite (build_approved_medium _ _ _ Hlo Hhi). simpl.
    by rewrite length_map.
  - intros Hs. rewrite Hlog, Htcalls. subst g.
    rewrite (build_approved_low _ _ _ Hs) in *. simpl.
    repeat split; try done.
    unfold transform_phase in Hphase. simpl in Hphase.
    by injection Hphase as <- _.
  - intros Hdisjoint r Hforb Happroved.
    destruct (Hdisjoint r Hforb) as [Hs Hc].
    destruct (Hdrawn r Happroved); tauto.
Qed.

(** C8, amended: when the transformation is attempted and its text is
    not empty, has fewer than 200 characters and holds the failure marker
    in any letter case, the report has no transformed content and no
    error key; action, compatibility, score, risk, rule
    selection and warnings are those computed before the
    transformation, and the deviations, preserved items and summary of
    the reply are returned as received. *)
Theorem failed_transform_discarded
    (b : list byte) (fname : string) (std : json) (level : string)
    (text : string) (compat : Compatibility) (s : Q) (rk : string)
    (calls0 : list Call) (content : string) :
  analyze b fname std = (Analysed text compat s rk, calls0) ->
  rs_error (select_rules std s) = None ->
  let safe := get_or (rs_safe_rules (select_rules std s)) [] in
  let cond := get_or (rs_conditional_rules (select_rules std s)) [] in
  let forb := get_or (rs_forbidden_rules (select_rules std s)) [] in
  let g := build_approved s safe cond in
  let reply :=
    transform_document text
      {| approved_rules := List.map approve (g_approved g);
         source_standard := std |} level in
  g_approved g <> [] ->
  (unpack reply).1.1.1 = Some content ->
  content <> "" ->
  contains "failed" (lower content) = true ->
  (len content < 200)%nat ->
  exists rep calls,
    apply b fname std level = (Decision rep, calls)
    /\ transformed_content rep = None
    /\ has_error (Decision rep) = false
    /\ action rep = g_action g
    /\ compatibility rep = compat
    /\ score rep = s
    /\ risk rep = rk
    /\ rule_selection rep
       = {| safe_rules := safe; conditional_rules := cond;
            forbidden_rules := forb |}
    /\ warnings rep = g_warnings g
    /\ deviations rep = (unpack reply).1.1.2
    /\ preserved_items rep = (unpack reply).1.2
    /\ change_summary rep = (unpack reply).2.
Proof.
  intros Han Hsel safe cond forb g reply Hne Hcontent Hfilled Hmarker Hshort.
  assert (looks_failed (unpack reply).1.1.1 = true) as Hfail.
  { rewrite Hcontent. unfold looks_failed. rewrite Hmarker.
    apply Nat.ltb_lt in Hshort. rewrite Hshort. by destruct content. }
  clear Hcontent. unfold apply. rewrite Han, Hsel. fold safe cond forb. simpl. fold g.
  unfold transform_phase.
  destruct (build_approved_cases s safe cond) as [[_ He]|[Ha _]];
    [fold g in He; congruence|fold g in Ha].
  apply String.eqb_neq in Ha. rewrite Ha.
  rewrite (bool_decide_eq_false_2 _ Hne). simpl. fold reply.
  destruct (unpack reply) as [[[tc dv] pi] cs]. simpl in *.
  rewrite Hfail. eexists _, _. split; [reflexivity|]. simpl.
  repeat split.
Qed.

End Claims.

(** ** Instances *)

Lemma apply_gating_witness :
  let O := oracle 80 partitioned transformed in
  let safe := [rule_headings] in
  let cond := [rule_modal_verbs] in
  let forb := [rule_authority] in
  let g := build_approved 80 safe cond in
  exists rep calls,
    @apply O policy_text "policy.txt" standard_json "general"
    = (Decision rep, calls)
    /\ action rep = g_action g
    /\ warnings rep = g_warnings g
    /\ rule_selection rep
       = {| safe_rules := safe; conditional_rules := cond;
            forbidden_rules := forb |}
    /\ @transformed_with calls
       = (if bool_decide (g_approved g = []) then []
          else [List.map approve (g_approved g)])
    /\ ((75 <= 80)%Q ->
        g_action g = "safe_apply" /\ g_approved g = safe ++ cond
        /\ g_warnings g = [])
    /\ ((40 <= 80)%Q /\ (80 < 75)%Q ->
        g_action g = "selective_apply" /\ g_approved g = safe ++ cond
        /\ g_warnings g = List.map caution cond
        /\ length (g_warnings g) = length cond)
    /\ ((80 < 40)%Q ->
        g_action g = "report_only" /\ g_approved g = []
        /\ g_warnings g = [] /\ @transformed_with calls = []
        /\ transformed_content rep = None)
    /\ (forall r, In r (g_approved g) -> In r safe \/ In r cond)
    /\ ((forall r, In r forb -> ~ In r safe /\ ~ In r cond) ->
        forall r, In r forb -> ~ In r (g_approved g)).
Proof.
  apply (@apply_gating (oracle 80 partitioned transformed) policy_text
           "policy.txt" standard_json "general" "Staff must comply."
           (compatibility_of 80) 80 "HIGH"
           [CallAnalyze standard_json "Staff must comply."]).
  - reflexivity.
  - reflexivity.
Defined.

(** The scores named by the specification give the actions it lists. *)
Example gating_table :
  List.map (fun s => g_action (build_approved s [rule_headings] [rule_modal_verbs]))
    [0; 39; 40; 74; 75; 100]%Q
  = ["report_only"; "report_only"; "selective_apply"; "selective_apply";
     "safe_apply"; "safe_apply"].
Proof. reflexivity. Qed.

(** C1, as stated, fails: when the selection lists a rule both as safe and
    as forbidden, that element of [forbidden_rules] is in the approved
    list and is handed to the transformation. *)
Lemma forbidden_rule_reaches_transform :
  let O := oracle 80 overlapping transformed in
  let res := @apply O policy_text "policy.txt" standard_json "general" in
  In rule_authority (get_or (rs_forbidden_rules overlapping) [])
  /\ In rule_authority
       (g_approved (build_approved 80 [rule_headings; rule_authority]
                      [rule_modal_verbs]))
  /\ @transformed_with res.2
     = [[approve rule_headings; approve rule_authority; approve rule_modal_verbs]].
Proof.
  split; [simpl; tauto|]. split; [vm_compute; tauto|]. reflexivity.
Qed.

Lemma failed_transform_discarded_witness :
  let O := oracle 80 partitioned accented_reply in
  let safe := [rule_headings] in
  let cond := [rule_modal_verbs] in
  let forb := [rule_authority] in
  let g := build_approved 80 safe cond in
  exists rep calls,
    @apply O policy_text "policy.txt" standard_json "general"
    = (Decision rep, calls)
    /\ transformed_content rep = None
    /\ has_error (Decision rep) = false
    /\ action rep = g_action g
    /\ compatibility rep = compatibility_of 80
    /\ score rep = 80%Q
    /\ risk rep = "HIGH"
    /\ rule_selection rep
       = {| safe_rules := safe; conditional_rules := cond;
            forbidden_rules := forb |}
    /\ warnings rep = g_warnings g
    /\ deviations rep = (unpack accented_reply).1.1.2
    /\ preserved_items rep = (unpack accented_reply).1.2
    /\ change_summary rep = (unpack accented_reply).2.
Proof.
  apply (@failed_transform_discarded (oracle 80 partitioned accented_reply)
           policy_text "policy.txt" standard_json "general"
           "Staff must comply." (compatibility_of 80) 80 "HIGH"
           [CallAnalyze standard_json "Staff must comply."]
           ("failed" +:+ accents 97)).
  - reflexivity.
  - reflexivity.
  - vm_compute. discriminate.
  - reflexivity.
  - discriminate.
  - by vm_compute.
  - vm_compute. lia.
Defined.

(** The reply of the instance above has 103 characters in 200 bytes. *)
Example accented_reply_length :
  len ("failed" +:+ accents 97) = 103
  /\ String.length ("failed" +:+ accents 97) = 200.
Proof. split; by vm_compute. Qed.

(** C8, as stated, fails: a reply whose text is short and says "failed"
    is discarded, but the returned report carries no error. *)
Lemma failed_transform_surfaces_no_error :
  let O := oracle 80 partitioned failed_reply in
  let res := @apply O policy_text "policy.txt" standard_json "general" in
  looks_failed (unpack failed_reply).1.1.1 = true
  /\ has_error res.1 = false
  /\ exists rep, res.1 = Decision rep /\ transformed_content rep = None.
Proof.
  split; [by vm_compute|]. split; [reflexivity|].
  eexists. split; reflexivity.
Qed.

End DecisionFlowProofs.

(* ===================================================================== *)
(** * Further properties: assignments, inheritance and folders together *)
(* ===================================================================== *)

Module FolderProofs.
Import Py Store Inheritance Assignments Folders Examples.
Import InheritanceProofs AssignmentProofs.

Lemma select_update_first db tid tty v a :
  List.find (on_target tid tty) (assignments db) = Some a ->
  List.find (on_target tid tty)
    (update_first (on_target tid tty) v (assignments db))
  = Some (with_version v a).
Proof.
  induction (assignments db) as [|b rows IH]; [done|]. simpl.
  destruct (on_target tid tty b) eqn:Hb; simpl.
  - rewrite on_target_with_version, Hb. congruence.
  - rewrite Hb. apply IH.
Qed.

(** The row selected for a target that had at most one row, once the
    request is committed. *)
Lemma select_after_assign scan db tid tty v version :
  versions db !! v = Some version ->
  rows_for (assignments db) tid tty <= 1 ->
  exists db' a,
    assign_standard scan db tid tty v = Committed db'
    /\ versions db' = versions db /\ folders db' = folders db
    /\ documents db' = documents db
    /\ rows_for (assignments db') tid tty = 1
    /\ select_assignment db' tid tty = Some a
    /\ standard_version_id a = v.
Proof.
  intros Hv Hone.
  pose proof (assign_standard_single scan db tid tty v version Hv Hone) as Hrun.
  destruct (select_assignment db tid tty) as [a|] eqn:Hsel.
  - eexists _, (with_version v a). split; [exact Hrun|]. simpl.
    do 3 (split; [done|]).
    split; [|split; [by apply (select_update_first db tid tty v a)|done]].
    rewrite rows_for_update_first. apply rows_for_some in Hsel. lia.
  - eexists _, (new_assignment tid tty v). split; [exact Hrun|]. simpl.
    do 3 (split; [done|]). split; [|split; [|done]].
    + rewrite rows_for_app, rows_for_new, (rows_for_none _ _ _ Hsel).
      by rewrite bool_decide_eq_true_2.
    + unfold select_assignment in *. simpl. clear Hrun Hone.
      induction (assignments db) as [|b rows IH]; simpl in *.
      * unfold on_target. simpl. by rewrite !bool_decide_eq_true_2.
      * destruct (on_target tid tty b); [done|]. by apply IH.
Qed.

Lemma on_target_same tid tty tid' tty' a :
  on_target tid tty a = true -> on_target tid' tty' a = true ->
  tid = tid' /\ tty = tty'.
Proof.
  rewrite !on_target_true. intros [<- <-] [<- <-]. done.
Qed.

Lemma find_update_first_other tid tty tid' tty' v rows :
  ~ (tid = tid' /\ tty = tty') ->
  List.find (on_target tid' tty') (update_first (on_target tid tty) v rows)
  = List.find (on_target tid' tty') rows.
Proof.
  intros Hne. induction rows as [|b rows IH]; [done|]. simpl.
  destruct (on_target tid tty b) eqn:Hb; simpl.
  - rewrite on_target_with_version.
    destruct (on_target tid' tty' b) eqn:Hb'; [|done].
    destruct Hne. by eapply on_target_same.
  - by rewrite IH.
Qed.

Lemma find_update_nth_other tid tty tid' tty' i v rows :
  ~ (tid = tid' /\ tty = tty') ->
  List.find (on_target tid' tty') (update_nth (on_target tid tty) i v rows)
  = List.find (on_target tid' tty') rows.
Proof.
  intros Hne. revert i. induction rows as [|b rows IH]; intros i; [done|].
  simpl. destruct (on_target tid tty b) eqn:Hb; [destruct i as [|i]|]; simpl.
  - rewrite on_target_with_version.
    destruct (on_target tid' tty' b) eqn:Hb'; [|done].
    destruct Hne. by eapply on_target_same.
  - destruct (on_target tid' tty' b) eqn:Hb'; [|by rewrite IH].
    destruct Hne. by eapply on_target_same.
  - by rewrite IH.
Qed.

Lemma find_app_new tid tty tid' tty' v rows :
  ~ (tid = tid' /\ tty = tty') ->
  List.find (on_target tid' tty') (rows ++ [new_assignment tid tty v])
  = List.find (on_target tid' tty') rows.
Proof.
  intros Hne. induction rows as [|b rows IH]; simpl.
  - destruct (on_target tid' tty' _) eqn:Hn; [|done].
    apply on_target_true in Hn. simpl in Hn. tauto.
  - destruct (on_target tid' tty' b); [done|apply IH].
Qed.

(** An assignment leaves the rows selected for any other target alone,
    whichever row of its own target it has updated. *)
Lemma select_other_target scan db tid tty v db' tid' tty' :
  assign_standard scan db tid tty v = Committed db' ->
  ~ (tid = tid' /\ tty = tty') ->
  select_assignment db' tid' tty' = select_assignment db tid' tty'.
Proof.
  intros Hrun Hne. unfold select_assignment.
  destruct (assign_standard_committed _ _ _ _ _ _ Hrun)
    as (_ & _ & _ & _ & [[_ ->]|[_ [i ->]]]).
  - by apply find_app_new.
  - by apply find_update_nth_other.
Qed.

(** X1: what the endpoint assigns is what the resolver answers for that
    target: for an existing version and a target with at most one row,
    the request is committed and the resolver then answers that version
    for the target, whatever it answered before and without entering the
    walk. *)
Theorem assign_then_resolve (db : Db) (tid : N) (tty : TargetType) (v : N)
    (version : StandardVersion) (scan fuel : nat) :
  versions db !! v = Some version ->
  rows_for (assignments db) tid tty <= 1 ->
  exists db',
    assign_standard scan db tid tty v = Committed db'
    /\ get_effective_standard_version fuel db' tid tty = Returns (Some version).
Proof.
  intros Hv Hone.
  destruct (select_after_assign scan db tid tty v version Hv Hone)
    as (db' & a & Hrun & Hvs & _ & _ & _ & Hsel & Ha).
  exists db'. split; [done|].
  unfold get_effective_standard_version. rewrite Hsel.
  unfold get_version. by rewrite Ha, Hvs, Hv.
Qed.

Lemma walk_assign_other scan db tid tty v db' cur l :
  assign_standard scan db tid tty v = Committed db' ->
  ancestors db cur l ->
  (tty = FOLDER -> ~ In tid l) ->
  forall fuel, walk fuel db' cur = walk fuel db cur.
Proof.
  intros Hrun.
  destruct (assign_standard_committed _ _ _ _ _ _ Hrun) as (Hvs & Hfs & _).
  induction 1 as [|c Hc|c folder l Hc Hanc IH]; intros Hnot fuel.
  - by rewrite !walk_None.
  - destruct fuel as [|fuel]; [done|]. simpl.
    rewrite (select_other_target _ _ _ _ _ _ _ _ Hrun), Hfs, Hc.
    + unfold get_version. by rewrite Hvs.
    + intros [-> ->]. apply Hnot; [done|by left].
  - destruct fuel as [|fuel]; [done|]. simpl.
    rewrite (select_other_target _ _ _ _ _ _ _ _ Hrun), Hfs, Hc.
    + unfold get_version. rewrite Hvs.
      destruct (select_assignment db c FOLDER); [done|].
      apply IH. intros Hty Hin. apply Hnot; [done|by right].
    + intros [-> ->]. apply Hnot; [done|by left].
Qed.

(** X2: an assignment changes the resolution of no other target, unless
    it is made to a folder on that target's chain of ancestors. *)
Theorem assign_leaves_others (scan : nat) (db : Db) (tid : N)
    (tty : TargetType) (v : N) (db' : Db)
    (tid' : N) (tty' : TargetType) (l : list N) (fuel : nat) :
  assign_standard scan db tid tty v = Committed db' ->
  ~ (tid = tid' /\ tty = tty') ->
  ancestors db (start_folder db tid' tty') l ->
  (tty = FOLDER -> ~ In tid l) ->
  get_effective_standard_version fuel db' tid' tty'
  = get_effective_standard_version fuel db tid' tty'.
Proof.
  intros Hrun Hne Hanc Hnot. unfold get_effective_standard_version.
  rewrite (select_other_target _ _ _ _ _ _ _ _ Hrun) by done.
  destruct (assign_standard_committed _ _ _ _ _ _ Hrun)
    as (Hvs & Hfs & Hds & _).
  unfold get_version. rewrite Hvs.
  destruct (select_assignment db tid' tty'); [done|].
  assert (start_folder db' tid' tty' = start_folder db tid' tty') as ->.
  { unfold start_folder. by rewrite Hfs, Hds. }
  by eapply walk_assign_other.
Qed.

(** X3: an existing version assigned to a folder that had at most one row
    is inherited by every document that lies directly in the folder and
    has no row of its own. *)
Theorem folder_assignment_inherited (db : Db) (f d v : N)
    (version : StandardVersion) (doc : Document) (scan fuel : nat) :
  versions db !! v = Some version ->
  rows_for (assignments db) f FOLDER <= 1 ->
  documents db !! d = Some doc ->
  folder_id doc = Some f ->
  ~ has_assignment db d DOCUMENT ->
  exists db',
    assign_standard scan db f FOLDER v = Committed db'
    /\ get_effective_standard_version (S fuel) db' d DOCUMENT
       = Returns (Some version).
Proof.
  intros Hv Hone Hdoc Hf Hno.
  destruct (select_after_assign scan db f FOLDER v version Hv Hone)
    as (db' & a & Hrun & Hvs & Hfs & Hds & _ & Hsel & Ha).
  exists db'. split; [done|]. unfold get_effective_standard_version.
  rewrite (select_other_target _ _ _ _ _ _ d DOCUMENT Hrun)
    by (by intros [_ [=]]).
  apply select_assignment_None in Hno. rewrite Hno.
  unfold start_folder. rewrite Hds, Hdoc, Hf. simpl. rewrite Hsel.
  unfold get_version. by rewrite Ha, Hvs, Hv.
Qed.

Lemma update_first_twice p v1 v2 rows :
  (forall a v, p (with_version v a) = p a) ->
  update_first p v2 (update_first p v1 rows) = update_first p v2 rows.
Proof.
  intros Hp. induction rows as [|a rows IH]; [done|]. simpl.
  destruct (p a) eqn:Ha; simpl.
  - by rewrite Hp, Ha.
  - by rewrite Ha, IH.
Qed.

Lemma update_first_app_new tid tty v1 v2 rows :
  List.find (on_target tid tty) rows = None ->
  update_first (on_target tid tty) v2 (rows ++ [new_assignment tid tty v1])
  = rows ++ [new_assignment tid tty v2].
Proof.
  induction rows as [|a rows IH]; simpl; intros Hnone.
  - unfold on_target. simpl. by rewrite !bool_decide_eq_true_2.
  - destruct (on_target tid tty a); [done|]. by rewrite IH.
Qed.

(** X4: in the assignment table the last assignment to a target wins: for
    existing versions and a target with at most one row, two requests in
    a row leave the table of assignments exactly as the second request
    alone would have left it, with one row for the target. *)
Theorem assign_standard_last_wins (db : Db) (tid : N) (tty : TargetType)
    (v1 v2 : N) (version1 version2 : StandardVersion) (scan1 scan2 scan : nat) :
  versions db !! v1 = Some version1 ->
  versions db !! v2 = Some version2 ->
  rows_for (assignments db) tid tty <= 1 ->
  exists db1 db2 db2',
    assign_standard scan1 db tid tty v1 = Committed db1
    /\ assign_standard scan2 db1 tid tty v2 = Committed db2
    /\ assign_standard scan db tid tty v2 = Committed db2'
    /\ assignments db2 = assignments db2'
    /\ rows_for (assignments db2) tid tty = 1.
Proof.
  intros Hv1 Hv2 Hone.
  destruct (select_after_assign scan1 db tid tty v1 version1 Hv1 Hone)
    as (db1 & a1 & Hrun1 & Hvs1 & _ & _ & Hone1 & Hsel1 & _).
  assert (versions db1 !! v2 = Some version2) as Hv2' by by rewrite Hvs1.
  assert (rows_for (assignments db1) tid tty <= 1) as Hone1' by lia.
  destruct (select_after_assign scan2 db1 tid tty v2 version2 Hv2' Hone1')
    as (db2 & a2 & Hrun2 & _ & _ & _ & Hone2 & _ & _).
  exists db1, db2. eexists.
  split; [done|]. split; [done|].
  split; [by eapply assign_standard_single|]. split; [|done].
  rewrite (assign_standard_single scan2 db1 tid tty v2 version2 Hv2' Hone1')
    in Hrun2.
  injection Hrun2 as <-. simpl. rewrite Hsel1.
  rewrite (assign_standard_single scan1 db tid tty v1 version1 Hv1 Hone)
    in Hrun1.
  injection Hrun1 as <-. simpl.
  destruct (select_assignment db tid tty) as [a|] eqn:Hsel.
  - by apply update_first_twice.
  - by apply update_first_app_new.
Qed.

Lemma filter_app_new_version d v rows :
  List.filter (on_target_version d DOCUMENT v)
    (rows ++ [new_assignment d DOCUMENT v])
  = List.filter (on_target_version d DOCUMENT v) rows
    ++ [new_assignment d DOCUMENT v].
Proof.
  rewrite List.filter_app. simpl. unfold on_target_version, on_target. simpl.
  by rewrite !bool_decide_eq_true_2.
Qed.

(** X5: applying a version to a document a second time changes nothing. *)
Theorem apply_to_document_idempotent (db db1 : Db) (v d : N) :
  apply_to_document db v d = Done db1 ->
  apply_to_document db1 v d = Done db1.
Proof.
  unfold apply_to_document.
  destruct (List.filter _ (assignments db)) as [|a [|b rest]] eqn:Hf; simpl;
    [| |discriminate].
  - intros [= <-]. simpl. by rewrite filter_app_new_version, Hf.
  - intros [= <-]. by rewrite Hf.
Qed.


(** ** Tables read through [map_to_list] *)

Lemma children_spec db f c : In c (children db f) <-> is_child db f c.
Proof.
  unfold children, is_child. rewrite in_map_iff. split.
  - intros ([c' folder] & <- & Hin). apply filter_In in Hin as [Hin Hp].
    apply list_elem_of_In, elem_of_map_to_list in Hin.
    apply bool_decide_eq_true in Hp. eauto.
  - intros (folder & Hc & Hp). exists (c, folder). split; [done|].
    apply filter_In. split.
    + by apply list_elem_of_In, elem_of_map_to_list.
    + by apply bool_decide_eq_true.
Qed.

Lemma documents_in_spec db ids d :
  In d (documents_in db ids)
  <-> exists doc g,
        documents db !! d = Some doc /\ folder_id doc = Some g /\ In g ids.
Proof.
  unfold documents_in. rewrite in_map_iff. split.
  - intros ([d' doc] & <- & Hin). apply filter_In in Hin as [Hin Hp].
    apply list_elem_of_In, elem_of_map_to_list in Hin. simpl in Hp.
    destruct (folder_id doc) as [g|] eqn:Hg; [|done].
    apply bool_decide_eq_true, list_elem_of_In in Hp. eauto.
  - intros (doc & g & Hd & Hg & Hin). exists (d, doc). split; [done|].
    apply filter_In. split.
    + by apply list_elem_of_In, elem_of_map_to_list.
    + simpl. rewrite Hg. by apply bool_decide_eq_true, list_elem_of_In.
Qed.

(** ** Duplicate rows *)

Lemma assign_documents_duplicate docs : forall rows v d,
  2 <= rows_for rows d DOCUMENT -> In d docs ->
  assign_documents rows v docs = MultipleResultsFound.
Proof.
  induction docs as [|d' docs IH]; intros rows v d Hdup Hin; [done|]. simpl.
  destruct (decide (d' = d)) as [->|Hne].
  - unfold rows_for in Hdup.
    by destruct (List.filter _ rows) as [|a [|b rest]]; simpl in *; try lia.
  - destruct Hin as [?|Hin]; [done|].
    destruct (List.filter (on_target d' DOCUMENT) rows) as [|a [|b rest]];
      simpl; [| |done].
    + apply (IH _ _ d); [|done]. rewrite rows_for_app. lia.
    + apply (IH _ _ d); [|done]. by rewrite rows_for_update_first.
Qed.

Lemma subfolder_ids_head depth db f ids :
  _get_all_subfolder_ids depth db f = Some ids -> In f ids.
Proof.
  destruct depth as [|depth]; [done|]. simpl.
  assert (forall cs acc out,
            In f acc ->
            (fix extend (cs : list N) (ids : list N) : option (list N) :=
               match cs with
               | [] => Some ids
               | child_id :: cs' =>
                   match _get_all_subfolder_ids depth db child_id with
                   | Some sub => extend cs' (ids ++ sub)
                   | None => None
                   end
               end) cs acc = Some out -> In f out) as Hext.
  { induction cs as [|c cs IH]; intros acc out Hacc; simpl.
    - by intros [= <-].
    - destruct (_get_all_subfolder_ids depth db c); [|done].
      apply IH. apply in_or_app. by left. }
  apply Hext. by left.
Qed.

(** X6: once a document has two rows, applying any standard to the folder
    it lies in commits nothing: the per-document query raises. *)
Theorem duplicate_rows_block_apply_to_folder (depth : nat) (db : Db)
    (v f d : N) (doc : Document) (recursive : bool) :
  documents db !! d = Some doc ->
  folder_id doc = Some f ->
  2 <= rows_for (assignments db) d DOCUMENT ->
  ~ exists db', apply_to_folder depth db v f recursive = Done db'.
Proof.
  intros Hdoc Hf Hdup [db' Hrun]. revert Hrun. unfold apply_to_folder.
  destruct (scalar_one_or_none _) as [existing| |]; [|done|done].
  set (rows1 := match existing with
                | Some _ => _
                | None => _
                end).
  assert (2 <= rows_for rows1 d DOCUMENT) as Hdup1.
  { subst rows1. destruct existing.
    - by rewrite rows_for_update_first.
    - rewrite rows_for_app. lia. }
  assert (forall ids, In f ids ->
            assign_documents rows1 v (documents_in db ids)
            = MultipleResultsFound) as Hraise.
  { intros ids Hin. apply (assign_documents_duplicate _ _ _ d Hdup1).
    apply documents_in_spec. eauto. }
  destruct recursive.
  - destruct (_get_all_subfolder_ids depth db f) as [ids|] eqn:Hids; [|done].
    by rewrite (Hraise ids (subfolder_ids_head _ _ _ _ Hids)).
  - rewrite (Hraise [f]); [done|by left].
Qed.

(** X7: [get_folder_standard] raises exactly when the folder has two rows or
    more; it reports no assignment whenever the folder has no row of its
    own, inherited or not; and what it reports as assigned is the version
    the resolver returns for the folder. *)
Theorem get_folder_standard_direct (standards : gmap N Standard) (db : Db)
    (f : N) :
  (get_folder_standard standards db f = MultipleResultsFound
   <-> 2 <= rows_for (assignments db) f FOLDER)
  /\ (~ has_assignment db f FOLDER ->
      get_folder_standard standards db f = Done NotAssigned)
  /\ (forall i n num vid,
        get_folder_standard standards db f = Done (AssignedTo i n num vid) ->
        exists version,
          versions db !! vid = Some version
          /\ Store.version_number version = num
          /\ forall fuel,
               get_effective_standard_version fuel db f FOLDER
               = Returns (Some version)).
Proof.
  unfold get_folder_standard, get_effective_standard_version,
    select_assignment, rows_for.
  split; [|split].
  - destruct (List.filter _ _) as [|a [|b rest]]; simpl; split;
      try done; try lia.
    destruct (versions db !! _) as [version|]; [|done].
    by destruct (standards !! _).
  - intros Hno. apply select_assignment_None in Hno.
    unfold select_assignment in Hno.
    destruct (List.filter _ _) as [|a rest] eqn:Hf; [done|].
    assert (In a (List.filter (on_target f FOLDER) (assignments db))) as Hin
      by (rewrite Hf; by left).
    apply filter_In in Hin as [Hin Hp].
    by rewrite (find_none _ _ Hno a Hin) in Hp.
  - intros i n num vid.
    destruct (List.filter _ _) as [|a [|b rest]] eqn:Hf; simpl; try done.
    assert (List.find (on_target f FOLDER) (assignments db) = Some a) as ->.
    { clear -Hf. induction (assignments db) as [|x rows IH]; [done|].
      simpl in *. destruct (on_target f FOLDER x).
      - by injection Hf as ->.
      - by apply IH. }
    unfold get_version.
    destruct (versions db !! standard_version_id a) as [version|] eqn:Hv;
      [|done].
    destruct (standards !! _); intros [= <- <- <- <-]; eauto.
Qed.


(** ** The enumeration of a subtree *)

Lemma subfolder_ids_unfold depth db f :
  _get_all_subfolder_ids (S depth) db f
  = gather (List.map (_get_all_subfolder_ids depth db) (children db f)) [f].
Proof.
  simpl. generalize [f]. induction (children db f) as [|c cs IH]; intros ids.
  - done.
  - simpl. destruct (_get_all_subfolder_ids depth db c); [apply IH|done].
Qed.

Lemma gather_Some subs : forall ids out,
  gather subs ids = Some out <->
  exists l, subs = List.map Some l /\ out = ids ++ concat l.
Proof.
  induction subs as [|[sub|] subs IH]; intros ids out; simpl.
  - split.
    + intros [= <-]. exists []. by rewrite app_nil_r.
    + intros ([|? ?] & Hl & ->); [by rewrite app_nil_r|done].
  - rewrite IH. split.
    + intros (l & -> & ->). exists (sub :: l). by rewrite <- app_assoc.
    + intros ([|sub' l] & Hl & ->); [done|]. injection Hl as <- ->.
      exists l. by rewrite <- app_assoc.
  - split; [done|]. by intros ([|? ?] & Hl & _).
Qed.

Lemma gather_None subs ids : In None subs -> gather subs ids = None.
Proof.
  revert ids. induction subs as [|[sub|] subs IH]; intros ids Hin; simpl.
  - done.
  - destruct Hin as [?|Hin]; [done|]. by apply IH.
  - done.
Qed.

Lemma descends_cases db f c :
  descends db f c <-> c = f \/ exists ch, is_child db f ch /\ descends db ch c.
Proof.
  split.
  - induction 1 as [|c p Hc Hp IH]; [by left|]. right.
    destruct IH as [->|(ch & Hch & Hd)].
    + exists c. split; [done|constructor].
    + exists ch. split; [done|]. by eapply descends_child.
  - intros [->|(ch & Hch & Hd)]; [constructor|].
    induction Hd as [|c p Hc Hp IH].
    + eapply descends_child; [done|constructor].
    + by eapply descends_child.
Qed.

Lemma in_concat_mapped {A B : Type} (g : A -> option (list B)) cs l x :
  List.map g cs = List.map Some l ->
  In x (concat l) <-> exists c sub, In c cs /\ g c = Some sub /\ In x sub.
Proof.
  revert l. induction cs as [|c cs IH]; intros [|sub l] Heq; try done.
  - split; [done|]. by intros (? & ? & [] & _).
  - injection Heq as Hc Heq. simpl. rewrite in_app_iff, (IH l Heq). split.
    + intros [Hx|(c' & sub' & Hin & Hg & Hx)].
      * exists c, sub. split; [by left|done].
      * exists c', sub'. split; [by right|done].
    + intros (c' & sub' & [<-|Hin] & Hg & Hx).
      * left. congruence.
      * right. eauto.
Qed.

(** What the enumeration returns, when it returns. *)
Lemma subfolder_ids_descend depth db : forall f ids,
  _get_all_subfolder_ids depth db f = Some ids ->
  forall c, In c ids <-> descends db f c.
Proof.
  induction depth as [|depth IH]; intros f ids Hrun c; [done|].
  rewrite subfolder_ids_unfold in Hrun.
  apply gather_Some in Hrun as (l & Hl & ->).
  rewrite descends_cases. simpl. rewrite (in_concat_mapped _ _ _ _ Hl).
  split.
  - intros [<-|(ch & sub & Hin & Hsub & Hc)]; [by left|]. right.
    exists ch. split; [by apply children_spec|]. by apply (IH ch sub).
  - intros [->|(ch & Hch & Hd)]; [by left|]. right.
    assert (In ch (children db f)) as Hin by (by apply children_spec).
    assert (exists sub, _get_all_subfolder_ids depth db ch = Some sub)
      as [sub Hsub].
    { assert (In (_get_all_subfolder_ids depth db ch)
                (List.map Some l)) as Hm by (rewrite <- Hl; by apply in_map).
      apply in_map_iff in Hm as (sub & Hsub & _). eauto. }
    exists ch, sub. split; [done|]. split; [done|]. by apply (IH ch sub).
Qed.

Lemma subfolder_ids_total db f n :
  subtree_within db f n ->
  exists ids, _get_all_subfolder_ids n db f = Some ids.
Proof.
  induction 1 as [f n Hsub IH]. rewrite subfolder_ids_unfold.
  assert (exists l, List.map (_get_all_subfolder_ids n db) (children db f)
                    = List.map Some l) as [l Hl].
  { assert (forall c, In c (children db f) -> is_child db f c) as Hch
      by (intros c; apply children_spec).
    induction (children db f) as [|c cs IHcs]; [by exists []|].
    destruct (IH c) as [sub Hsubc]; [apply Hch; by left|].
    destruct IHcs as [l Hl]; [intros c' Hc'; apply Hch; by right|].
    exists (sub :: l). simpl. by rewrite Hsubc, Hl. }
  exists ([f] ++ concat l). apply gather_Some. eauto.
Qed.

Lemma subfolder_ids_are_the_subtree_aux db f n :
  subtree_within db f n ->
  exists ids,
    _get_all_subfolder_ids n db f = Some ids
    /\ forall c, In c ids <-> descends db f c.
Proof.
  intros Hfin. destruct (subfolder_ids_total db f n Hfin) as [ids Hids].
  exists ids. split; [done|]. by apply (subfolder_ids_descend n).
Qed.

(** X8: on a subtree of bounded depth, [_get_all_subfolder_ids] returns
    within that recursion depth, and its list holds exactly the folder
    itself and the folders below it. *)
Theorem subfolder_ids_are_the_subtree (db : Db) (f : N) (n : nat) :
  subtree_within db f n ->
  exists ids,
    _get_all_subfolder_ids n db f = Some ids
    /\ forall c, In c ids <-> descends db f c.
Proof.
  intros Hfin. destruct (subfolder_ids_total db f n Hfin) as [ids Hids].
  exists ids. split; [done|]. by apply (subfolder_ids_descend n).
Qed.

Lemma cycle_child db f :
  on_cycle db f -> exists ch, is_child db f ch /\ on_cycle db ch.
Proof.
  intros (p & Hp & Hd). apply descends_cases in Hd as [->|(ch & Hch & Hd)].
  - exists f. split; [done|]. exists f. split; [done|constructor].
  - exists ch. split; [done|]. exists f. split; [done|].
    by eapply descends_child.
Qed.

Lemma subfolder_ids_cycle db depth : forall f,
  on_cycle db f -> _get_all_subfolder_ids depth db f = None.
Proof.
  induction depth as [|depth IH]; intros f Hcyc; [done|].
  rewrite subfolder_ids_unfold. apply gather_None.
  destruct (cycle_child db f Hcyc) as (ch & Hch & Hcyc').
  rewrite <- (IH ch Hcyc'). apply in_map. by apply children_spec.
Qed.

(** X9: for a folder that lies below itself, the enumeration raises at
    every recursion limit; the re-validation of the folder then enqueues
    nothing, and a recursive [apply_to_folder] commits nothing. *)
Theorem cycle_breaks_enumeration (db : Db) (f v : N) (depth : nat) :
  on_cycle db f ->
  _get_all_subfolder_ids depth db f = None
  /\ revalidate_folder_async depth db f v = None
  /\ ~ exists db', apply_to_folder depth db v f true = Done db'.
Proof.
  intros Hcyc. pose proof (subfolder_ids_cycle db depth f Hcyc) as Hnone.
  split; [done|]. split.
  - unfold revalidate_folder_async. by rewrite Hnone.
  - intros [db' Hrun]. revert Hrun. unfold apply_to_folder. rewrite Hnone.
    by destruct (scalar_one_or_none _).
Qed.

(** X10: the re-validation of a folder enqueues a job for exactly the
    documents that lie in the folder or in a folder below it, each with the
    version it was given. *)
Theorem revalidate_covers_subtree (db : Db) (f v : N) (n : nat) :
  subtree_within db f n ->
  exists jobs,
    revalidate_folder_async n db f v = Some jobs
    /\ forall d v',
         In (d, v') jobs <->
         v' = v
         /\ exists doc g,
              documents db !! d = Some doc /\ folder_id doc = Some g
              /\ descends db f g.
Proof.
  intros Hfin. unfold revalidate_folder_async.
  destruct (subfolder_ids_are_the_subtree_aux db f n Hfin) as (ids & -> & Hids).
  eexists. split; [done|]. intros d v'. rewrite in_map_iff. split.
  - intros (d' & [= <- <-] & Hin). split; [done|].
    apply documents_in_spec in Hin as (doc & g & Hd & Hg & Hin).
    exists doc, g. by rewrite <- Hids.
  - intros [-> (doc & g & Hd & Hg & Hdesc)]. exists d. split; [done|].
    apply documents_in_spec. exists doc, g. by rewrite Hids.
Qed.


(** ** What [apply_to_folder] leaves in the table *)

Lemma find_update_first_same p v rows a :
  (forall b w, p (with_version w b) = p b) ->
  List.find p rows = Some a ->
  List.find p (update_first p v rows) = Some (with_version v a).
Proof.
  intros Hp. induction rows as [|b rows IH]; [done|]. simpl.
  destruct (p b) eqn:Hb; simpl.
  - rewrite Hp, Hb. congruence.
  - rewrite Hb. apply IH.
Qed.

Lemma filter_nil_find {A : Type} (p : A -> bool) rows :
  List.filter p rows = [] -> List.find p rows = None.
Proof.
  induction rows as [|b rows IH]; [done|]. simpl.
  destruct (p b); [done|apply IH].
Qed.

Lemma filter_cons_find {A : Type} (p : A -> bool) rows a rest :
  List.filter p rows = a :: rest -> List.find p rows = Some a.
Proof.
  induction rows as [|b rows IH]; [done|]. simpl.
  destruct (p b); [by intros [= ->]|apply IH].
Qed.

Lemma bound_after_insert rows d v :
  List.filter (on_target d DOCUMENT) rows = [] ->
  bound_to (rows ++ [new_assignment d DOCUMENT v]) d v.
Proof.
  intros Hf. split.
  - rewrite rows_for_app, rows_for_new, bool_decide_eq_true_2 by done.
    unfold rows_for. by rewrite Hf.
  - exists (new_assignment d DOCUMENT v). split; [|done].
    apply filter_nil_find in Hf. clear -Hf.
    induction rows as [|b rows IH]; simpl in *.
    + unfold on_target. simpl. by rewrite !bool_decide_eq_true_2.
    + destruct (on_target d DOCUMENT b); [done|by apply IH].
Qed.

Lemma bound_after_update rows d v a rest :
  List.filter (on_target d DOCUMENT) rows = a :: rest ->
  rows_for rows d DOCUMENT = 1 ->
  bound_to (update_first (on_target d DOCUMENT) v rows) d v.
Proof.
  intros Hf Hone. split; [by rewrite rows_for_update_first|].
  exists (with_version v a). split; [|done].
  apply find_update_first_same; [done|]. by eapply filter_cons_find.
Qed.

Lemma bound_kept_by_update rows d d' v :
  bound_to rows d v ->
  bound_to (update_first (on_target d' DOCUMENT) v rows) d v.
Proof.
  intros [Hone (a & Hfind & Hv)]. split; [by rewrite rows_for_update_first|].
  destruct (decide (d' = d)) as [->|Hne].
  - exists (with_version v a). split; [|done].
    by apply find_update_first_same.
  - exists a. split; [|done].
    rewrite find_update_first_other; [done|]. by intros [? _].
Qed.

Lemma bound_kept_by_insert rows d d' v :
  List.filter (on_target d' DOCUMENT) rows = [] ->
  bound_to rows d v ->
  bound_to (rows ++ [new_assignment d' DOCUMENT v]) d v.
Proof.
  intros Hf [Hone (a & Hfind & Hv)].
  assert (d' <> d) as Hne.
  { intros ->. unfold rows_for in Hone. by rewrite Hf in Hone. }
  split.
  - rewrite rows_for_app, rows_for_new, bool_decide_eq_false_2; [lia|].
    by intros [? _].
  - exists a. split; [|done]. rewrite find_app_new; [done|]. by intros [? _].
Qed.

Lemma assign_documents_binds v docs : forall rows rows',
  assign_documents rows v docs = Done rows' ->
  (forall d, bound_to rows d v -> bound_to rows' d v)
  /\ (forall d, In d docs -> bound_to rows' d v).
Proof.
  induction docs as [|d' docs IH]; intros rows rows' Hrun; simpl in Hrun.
  - injection Hrun as <-. by split.
  - destruct (List.filter (on_target d' DOCUMENT) rows) as [|a [|b rest]]
      eqn:Hf; simpl in Hrun; [| |done];
      destruct (IH _ _ Hrun) as [Hkeep Hbind]; split.
    + intros d Hd. by apply Hkeep, bound_kept_by_insert.
    + intros d [<-|Hin]; [|by apply Hbind].
      by apply Hkeep, bound_after_insert.
    + intros d Hd. by apply Hkeep, bound_kept_by_update.
    + intros d [<-|Hin]; [|by apply Hbind].
      apply Hkeep. eapply bound_after_update; [done|].
      unfold rows_for. by rewrite Hf.
Qed.

(** X11: when [apply_to_folder] commits, every document of the folder (and,
    if recursive, of the folders below it) has exactly one row afterwards
    and resolves to the applied version. *)
Theorem apply_to_folder_binds_documents (depth : nat) (db db' : Db)
    (v f d g : N) (doc : Document) (recursive : bool) :
  apply_to_folder depth db v f recursive = Done db' ->
  documents db !! d = Some doc ->
  folder_id doc = Some g ->
  (if recursive then descends db f g else g = f) ->
  rows_for (assignments db') d DOCUMENT = 1
  /\ forall fuel,
       get_effective_standard_version fuel db' d DOCUMENT
       = Returns (versions db !! v).
Proof.
  unfold apply_to_folder. intros Hrun Hdoc Hg Hwhere.
  destruct (scalar_one_or_none _) as [existing| |]; [|done|done].
  set (rows1 := match existing with
                | Some _ => _
                | None => _
                end) in Hrun.
  set (ids := if recursive then _ else _) in Hrun.
  destruct ids as [folder_ids|] eqn:Hids; [|done].
  destruct (assign_documents rows1 v (documents_in db folder_ids))
    as [rows2| |] eqn:Hdocs; [|done|done].
  injection Hrun as <-.
  assert (In g folder_ids) as Hin.
  { subst ids. destruct recursive.
    - by apply (subfolder_ids_descend depth db f).
    - injection Hids as <-. by left. }
  destruct (assign_documents_binds _ _ _ _ Hdocs) as [_ Hbind].
  destruct (Hbind d) as [Hone (a & Hfind & Hv)].
  { apply documents_in_spec. eauto. }
  split; [done|]. intros fuel.
  unfold get_effective_standard_version, select_assignment. simpl.
  rewrite Hfind. unfold get_version. simpl. by rewrite Hv.
Qed.

(** ** Instances *)

Lemma db_nested_folders c folder :
  folders db_nested !! c = Some folder ->
  (c = 1%N /\ parent_id folder = None)
  \/ (c = 2%N /\ parent_id folder = Some 1%N).
Proof.
  unfold db_nested. simpl. intros Hc.
  apply lookup_insert_Some in Hc as [[<- <-]|[_ Hc]]; [by left|].
  apply lookup_insert_Some in Hc as [[<- <-]|[_ Hc]]; [by right|].
  by rewrite lookup_empty in Hc.
Qed.

Lemma db_nested_subtree : subtree_within db_nested 1%N 2.
Proof.
  constructor. intros c (folder & Hc & Hp).
  apply db_nested_folders in Hc as [[-> Hq]|[-> _]]; [congruence|].
  constructor. intros c' (folder' & Hc' & Hp').
  apply db_nested_folders in Hc' as [[-> Hq]|[-> Hq]]; congruence.
Qed.

Lemma db_nested_unbound : ~ has_assignment db_nested 5%N DOCUMENT.
Proof. intros (a & [<-|[]] & _ & Hty). discriminate. Qed.

Lemma db_cycle_on_cycle : on_cycle db_cycle 1%N.
Proof.
  exists 2%N. split.
  - eexists. split; [by vm_compute|done].
  - eapply descends_child; [|constructor].
    eexists. split; [by vm_compute|done].
Qed.

Lemma assign_then_resolve_witness :
  exists db',
    assign_standard 0 db_nested 1%N FOLDER 10%N = Committed db'
    /\ get_effective_standard_version 0 db' 1%N FOLDER
       = Returns (Some version_1).
Proof.
  apply (assign_then_resolve db_nested 1%N FOLDER 10%N version_1 0 0).
  - reflexivity.
  - vm_compute. lia.
Defined.

(** A request for a version that has no row raises and changes nothing. *)
Example assign_missing_version_raises :
  assign_standard 0 db_nested 5%N DOCUMENT 12%N = IntegrityError.
Proof. reflexivity. Qed.

Lemma assign_leaves_others_witness :
  get_effective_standard_version 3
    (with_rows db_nested
       (assignments db_nested ++ [new_assignment 5%N DOCUMENT 10%N]))
    2%N FOLDER
  = get_effective_standard_version 3 db_nested 2%N FOLDER.
Proof.
  apply (assign_leaves_others 0 db_nested 5%N DOCUMENT 10%N _ 2%N FOLDER
           [1%N] 3).
  - reflexivity.
  - by intros [[=] _].
  - eapply anc_step; [by vm_compute|]. constructor.
  - discriminate.
Defined.

Lemma folder_assignment_inherited_witness :
  exists db',
    assign_standard 0 db_nested 2%N FOLDER 10%N = Committed db'
    /\ get_effective_standard_version 1 db' 5%N DOCUMENT
       = Returns (Some version_1).
Proof.
  apply (folder_assignment_inherited db_nested 2%N 5%N 10%N version_1
           (a_document (Some 2%N)) 0 0).
  - reflexivity.
  - vm_compute. lia.
  - by vm_compute.
  - reflexivity.
  - exact db_nested_unbound.
Defined.

Lemma assign_standard_last_wins_witness :
  exists db1 db2 db2',
    assign_standard 0 db_unassigned 7%N DOCUMENT 10%N = Committed db1
    /\ assign_standard 1 db1 7%N DOCUMENT 11%N = Committed db2
    /\ assign_standard 2 db_unassigned 7%N DOCUMENT 11%N = Committed db2'
    /\ assignments db2 = assignments db2'
    /\ rows_for (assignments db2) 7%N DOCUMENT = 1.
Proof.
  apply (assign_standard_last_wins db_unassigned 7%N DOCUMENT 10%N 11%N
           version_1 version_2 0 1 2).
  - reflexivity.
  - reflexivity.
  - vm_compute. lia.
Defined.

(** With two rows for one target, which of them the request updates
    depends on the order of the scan. *)
Example assign_doubled_depends_on_scan :
  assign_standard 0 db_doubled 7%N DOCUMENT 11%N
  = Committed (with_rows db_doubled
                 [new_assignment 7%N DOCUMENT 11%N;
                  new_assignment 7%N DOCUMENT 11%N])
  /\ assign_standard 1 db_doubled 7%N DOCUMENT 10%N
     = Committed (with_rows db_doubled
                    [new_assignment 7%N DOCUMENT 10%N;
                     new_assignment 7%N DOCUMENT 10%N]).
Proof. split; by vm_compute. Qed.

Lemma apply_to_document_idempotent_witness :
  apply_to_document
    (with_rows db_unassigned [new_assignment 7%N DOCUMENT 10%N]) 10%N 7%N
  = Done (with_rows db_unassigned [new_assignment 7%N DOCUMENT 10%N]).
Proof.
  apply (apply_to_document_idempotent db_unassigned). reflexivity.
Defined.

Lemma duplicate_rows_block_apply_to_folder_witness :
  ~ exists db', apply_to_folder 1000 db_doubled 10%N 1%N true = Done db'.
Proof.
  apply (duplicate_rows_block_apply_to_folder 1000 db_doubled 10%N 1%N 7%N
           (a_document (Some 1%N)) true).
  - by vm_compute.
  - reflexivity.
  - vm_compute. lia.
Defined.

Lemma subfolder_ids_are_the_subtree_witness :
  exists ids,
    _get_all_subfolder_ids 2 db_nested 1%N = Some ids
    /\ forall c, In c ids <-> descends db_nested 1%N c.
Proof.
  apply (subfolder_ids_are_the_subtree db_nested 1%N 2).
  exact db_nested_subtree.
Defined.

Example subfolder_ids_nested :
  _get_all_subfolder_ids 2 db_nested 1%N = Some [1%N; 2%N].
Proof. by vm_compute. Qed.

Lemma cycle_breaks_enumeration_witness :
  _get_all_subfolder_ids 1000 db_cycle 1%N = None
  /\ revalidate_folder_async 1000 db_cycle 1%N 10%N = None
  /\ ~ exists db', apply_to_folder 1000 db_cycle 10%N 1%N true = Done db'.
Proof.
  apply (cycle_breaks_enumeration db_cycle 1%N 10%N 1000).
  exact db_cycle_on_cycle.
Defined.

Lemma revalidate_covers_subtree_witness :
  exists jobs,
    revalidate_folder_async 2 db_nested 1%N 10%N = Some jobs
    /\ forall d v',
         In (d, v') jobs <->
         v' = 10%N
         /\ exists doc g,
              documents db_nested !! d = Some doc /\ folder_id doc = Some g
              /\ descends db_nested 1%N g.
Proof.
  apply (revalidate_covers_subtree db_nested 1%N 10%N 2).
  exact db_nested_subtree.
Defined.

Lemma apply_to_folder_binds_documents_witness :
  rows_for
    (assignments
       (with_rows db_unassigned
          [new_assignment 1%N FOLDER 10%N; new_assignment 7%N DOCUMENT 10%N]))
    7%N DOCUMENT = 1
  /\ forall fuel,
       get_effective_standard_version fuel
         (with_rows db_unassigned
            [new_assignment 1%N FOLDER 10%N; new_assignment 7%N DOCUMENT 10%N])
         7%N DOCUMENT
       = Returns (versions db_unassigned !! 10%N).
Proof.
  apply (apply_to_folder_binds_documents 1000 db_unassigned _ 10%N 1%N 7%N 1%N
           (a_document (Some 1%N)) true).
  - by vm_compute.
  - by vm_compute.
  - reflexivity.
  - constructor.
Defined.

End FolderProofs.

(* ===================================================================== *)
(** * The saved status and the AI-augmented report *)
(* ===================================================================== *)

Module EvaluationProofs.
Import Py Store Validation Evaluation Documents.
Import ValidationProofs.
Local Open Scope validation_scope.

Section Reports.
Context `{Libraries}.

Lemma validate_document_sound b sv : sound (validate_document b sv).
Proof.
  apply (stable_validate_document sound).
  - by intros r w.
  - by intros r k v.
  - intros r m _. right. rewrite exec_failure. simpl. split; [done|].
    by destruct (errors r).
  - by left.
Qed.

Lemma status_of_cases c ws :
  status_of c ws
  = if c then if bool_decide (ws = []) then PASS else WARN else FAIL.
Proof. unfold status_of. destruct c; [|done]. by case_bool_decide. Qed.

Lemma doubtful_warning r w : doubtful r -> doubtful (exec (append_warning w) r).
Proof.
  intros [Hc|Hw]; [by left|]. right. simpl. by destruct (warnings r).
Qed.

Lemma doubtful_detail r k v : doubtful r -> doubtful (exec (set_detail k v) r).
Proof. by intros [Hc|Hw]; [left|right]. Qed.

Lemma doubtful_failure r m : doubtful (exec (hard_failure m) r).
Proof. by left. Qed.

Lemma doubtful_not_pass r :
  doubtful r -> status_of (compliant r) (warnings r) <> PASS.
Proof.
  rewrite status_of_cases. intros [->|Hw]; [done|].
  destruct (compliant r); [|done]. by case_bool_decide.
Qed.

Lemma doubtful_word_branch b z r r' :
  word_branch b z r = (r', Ok Return) -> doubtful r'.
Proof.
  unfold word_branch. destruct (in_namelist _ z); [|done].
  unfold bind. simpl. destruct (_has_macros_docx b); simpl.
  - intros [= <-]. by left.
  - intros [= <-]. right. simpl. by destruct (warnings r).
Qed.

(** Outside the ODF branch every report is doubtful. *)
Lemma doubtful_outside_odf b sv :
  is_odf_container b = false -> doubtful (validate_document b sv).
Proof.
  unfold is_odf_container, validate_document, try_zip. intros Hno.
  destruct (bytes_startswith b pdf_magic); [by right|].
  destruct (is_zipfile b); [|by left]. simpl in Hno.
  destruct (zip_open b) as [z|]; [|by left].
  assert (doubtful match word_branch b z fresh_report with
                   | (r, Ok Return) => r
                   | (r, Ok FallThrough) => unsupported r
                   | (r, Raised) => unsupported r
                   end) as Hword.
  { destruct (word_branch b z fresh_report) as [r [[|]|]] eqn:Hrun;
      try by left.
    by apply (doubtful_word_branch _ _ _ _ Hrun). }
  destruct (in_namelist "mimetype" z); [|done]. simpl in Hno.
  destruct (zip_read "mimetype" z) as [raw|]; [|by left].
  destruct (utf8_decode raw) as [mimetype|]; [|by left].
  by rewrite Hno.
Qed.

(** Past a doubtful report the two rule phases stay doubtful. *)
Lemma doubtful_phases sv doc r :
  doubtful r ->
  doubtful (after_try
              ((metadata_phase (rules_json sv) doc ;;
                styles_phase (rules_json sv) doc) r)).
Proof.
  apply (after_try_keeps (fun _ => True) doubtful); try done.
  - intros r' m _ _. apply doubtful_failure.
  - apply (keeps_bind doubtful).
    + apply (keeps_metadata_phase (fun _ => True) doubtful); try done.
      * apply doubtful_warning.
      * intros r' m _ _. apply doubtful_failure.
    + intros _. apply (keeps_styles_phase doubtful). apply doubtful_warning.
Qed.

Lemma pass_conditions b sv :
  status_of (compliant (validate_document b sv))
    (warnings (validate_document b sv)) = PASS ->
  is_odf_container b = true
  /\ exists doc, odf_load b = inr doc
                 /\ topnode_version doc = Some "1.2"
                 /\ _has_macros b = false.
Proof.
  intros Hpass.
  assert (~ doubtful (validate_document b sv)) as Hclear.
  { intros Hd. by apply doubtful_not_pass in Hd. }
  destruct (is_odf_container b) eqn:Hodf;
    [|by destruct Hclear; apply doubtful_outside_odf].
  split; [done|].
  destruct (odf_load b) as [e|doc] eqn:Hload.
  { destruct Hclear. rewrite (validate_document_odf _ _ Hodf).
    unfold _validate_odf. rewrite Hload. by left. }
  exists doc. split; [done|].
  rewrite (odf_report _ _ _ Hodf Hload) in Hclear.
  destruct (decide (topnode_version doc = Some "1.2")) as [Hv|Hv].
  - split; [done|]. destruct (_has_macros b) eqn:Hmac; [|done].
    destruct Hclear. apply doubtful_phases.
    unfold check_macros. rewrite Hmac. by left.
  - destruct Hclear. apply doubtful_phases.
    assert (doubtful (exec (check_version (topnode_version doc))
                        (exec (set_detail "format" "ODF") fresh_report))) as Hd.
    { unfold check_version. rewrite !bool_decide_eq_true_2 by done. by left. }
    revert Hd. generalize (exec (check_version (topnode_version doc))
                             (exec (set_detail "format" "ODF") fresh_report)).
    intros r Hd. unfold check_macros.
    destruct (_has_macros b); [by left|done].
Qed.

(** X12: the status the validation endpoint saves tells what the saved
    report holds: FAIL exactly when the report lists an error, WARN exactly
    when it lists no error but a warning, PASS exactly when it lists
    neither. *)
Theorem saved_status_reflects_report
    (db : Db) (storage : gmap string (list byte)) (d v : uuid)
    (vr : ValidationResult) :
  validate_document_endpoint db storage d v = OK vr ->
  (vr_status vr = FAIL <-> errors (report_json vr) <> [])
  /\ (vr_status vr = WARN
      <-> errors (report_json vr) = [] /\ warnings (report_json vr) <> [])
  /\ (vr_status vr = PASS
      <-> errors (report_json vr) = [] /\ warnings (report_json vr) = []).
Proof.
  unfold validate_document_endpoint.
  destruct (documents db !! d) as [document|]; [|done].
  destruct (versions db !! v) as [sv|]; [|done].
  destruct (get_file storage _) as [b|]; [|done].
  intros [= <-]. simpl. rewrite status_of_cases.
  destruct (validate_document_sound b sv) as [[-> He]|[-> He]].
  - rewrite He. case_bool_decide as Hw.
    + rewrite Hw. repeat split; try done; by intros [].
    + repeat split; try done; by intros [].
  - repeat split; try done; by intros [].
Qed.

(** X13: the endpoint saves PASS only for a stored ODF container that the
    ODF library loads, that declares version 1.2 and that holds no macro
    entry; a PDF, a Word package and any other file never pass. *)
Theorem pass_needs_clean_odf
    (db : Db) (storage : gmap string (list byte)) (d v : uuid)
    (vr : ValidationResult) :
  validate_document_endpoint db storage d v = OK vr ->
  vr_status vr = PASS ->
  exists document content doc,
    documents db !! d = Some document
    /\ get_file storage (storage_path d document) = Some content
    /\ is_odf_container content = true
    /\ odf_load content = inr doc
    /\ topnode_version doc = Some "1.2"
    /\ _has_macros content = false.
Proof.
  unfold validate_document_endpoint.
  destruct (documents db !! d) as [document|]; [|done].
  destruct (versions db !! v) as [sv|]; [|done].
  destruct (get_file storage _) as [b|] eqn:Hget; [|done].
  intros [= <-]. simpl. intros Hpass.
  destruct (pass_conditions _ _ Hpass) as (Hodf & doc & Hload & Hv & Hmac).
  by exists document, b, doc.
Qed.

(** X14: whatever the standard, a file that starts with the PDF magic is
    saved as WARN, and a Word package as FAIL when it holds a vbaProject
    entry and as WARN otherwise. *)
Theorem pdf_and_word_status (b : list byte) (sv : StandardVersion) :
  bytes_startswith b pdf_magic = true \/ is_word_package b = true ->
  status_of (compliant (validate_document b sv))
    (warnings (validate_document b sv))
  = if negb (bytes_startswith b pdf_magic) && _has_macros_docx b
    then FAIL else WARN.
Proof.
  intros [Hpdf|Hword].
  - rewrite Hpdf. unfold validate_document. by rewrite Hpdf.
  - rewrite (validate_document_word _ _ Hword).
    unfold is_word_package in Hword. rewrite !andb_true_iff in Hword.
    destruct Hword as [[-> _] _]. simpl.
    by destruct (_has_macros_docx b).
Qed.

(** X30: rules that are not a dict, or whose "metadata" is not a dict,
    make every loadable ODF document fail as an unsupported format: the
    exception of the rule lookup is swallowed, so after the version check
    and the macro scan the report gets the error "Unsupported file
    format", while its details still say that the format is ODF; no
    metadata or style rule is checked. *)
Theorem malformed_rules_unsupported
    (b : list byte) (sv : StandardVersion) (doc : OdfDocument) :
  is_odf_container b = true ->
  odf_load b = inr doc ->
  metadata_rules (rules_json sv) = None ->
  let checked :=
    exec (check_macros b)
      (exec (check_version (topnode_version doc))
         (exec (set_detail "format" "ODF") fresh_report)) in
  let r := validate_document b sv in
  compliant r = false
  /\ errors r = errors checked ++ [msg_unsupported]
  /\ warnings r = warnings checked
  /\ details r = <["format" := "ODF"]> ∅.
Proof.
  intros Hodf Hload Hrules. simpl. rewrite (odf_report _ _ _ Hodf Hload).
  assert (forall r, (metadata_phase (rules_json sv) doc ;;
                     styles_phase (rules_json sv) doc) r = (r, Raised))
    as Hraise.
  { intros r. unfold metadata_rules, metadata_phase, bind, py_get, py_items in *.
    destruct (rules_json sv) as [| | | |?|d]; try done.
    destruct (dict_get "metadata" d) as [[| | | |?|tm]|]; try done. }
  rewrite Hraise. simpl.
  assert (forall r, details (exec (check_macros b) r) = details r) as Hmac.
  { intros r. unfold check_macros. by destruct (_has_macros b). }
  assert (forall v r, details (exec (check_version v) r) = details r) as Hver.
  { intros v r. unfold check_version. by repeat case_bool_decide. }
  by rewrite Hmac, Hver.
Qed.

End Reports.

(** ** [validate_document_async] *)

Section Augmented.
Context `{Libraries} `{Evaluator}.

Lemma add_violations_run vs r :
  add_violations vs r
  = ({| compliant := compliant r; errors := errors r ++ messages vs;
        warnings := warnings r; details := details r |},
     match first_exception vs with
     | None => Ok tt
     | Some _ => Raised
     end).
Proof.
  revert r. induction vs as [|[desc path lvl|e] vs IH]; intros r.
  - simpl. unfold ret. rewrite app_nil_r. by destruct r.
  - simpl. unfold bind, append_error. rewrite IH. simpl.
    by rewrite <- app_assoc.
  - simpl. unfold raise. rewrite app_nil_r. by destruct r.
Qed.

Lemma truthy_text (text : string) : text <> "" -> truthy (Some text) = true.
Proof. by destruct text. Qed.

(** The verdict when the evaluation is a dict that says "not compliant". *)
Lemma rejected_verdict b sv fn rp :
  extract_text b fn <> "" ->
  evaluate_compliance (extract_text b fn) (rules_json sv) = Reply rp ->
  ai_compliant rp = Some false ->
  verdict (validate_document_async b sv fn)
  = {| compliant := false;
       errors := errors (validate_document b sv)
                 ++ messages (get_or (violations rp) []);
       warnings := warnings (validate_document b sv)
                   ++ match first_exception (get_or (violations rp) []) with
                      | Some e => ["AI-enhanced validation failed: " +:+ e]
                      | None => []
                      end;
       details := details (validate_document b sv) |}.
Proof.
  intros Htext Hreply Hno. unfold validate_document_async.
  rewrite (truthy_text _ Htext), Hreply, Hno. simpl.
  unfold bind, set_noncompliant. rewrite add_violations_run. simpl.
  destruct (first_exception _) as [e|]; simpl; [done|].
  by rewrite app_nil_r.
Qed.

(** The verdict of every other run is the deterministic report, with one
    more warning when the evaluation raised. *)
Lemma other_verdicts b sv fn :
  (forall rp, evaluate_compliance (extract_text b fn) (rules_json sv) = Reply rp ->
              ai_compliant rp <> Some false)
  \/ extract_text b fn = "" ->
  verdict (validate_document_async b sv fn) = validate_document b sv
  \/ exists e,
       verdict (validate_document_async b sv fn)
       = exec (append_warning ("AI-enhanced validation failed: " +:+ e))
           (validate_document b sv).
Proof.
  intros Hcase. unfold validate_document_async.
  destruct (truthy (Some (extract_text b fn))) eqn:Htext; [|by left].
  destruct Hcase as [Hyes|Hempty]; [|by rewrite Hempty in Htext].
  destruct (evaluate_compliance _ _) as [|rp|e|e]; simpl.
  - by left.
  - specialize (Hyes rp eq_refl).
    destruct (ai_compliant rp) as [[|]|]; by left.
  - right. by exists e.
  - right. by exists e.
Qed.

Lemma adds_nothing (d : Report) :
  (compliant d = true -> compliant d = true)
  /\ (exists es, errors d = errors d ++ es)
  /\ (exists ws, warnings d = warnings d ++ ws)
  /\ details d = details d.
Proof.
  split; [done|]. split; [by exists []; rewrite app_nil_r|].
  split; [by exists []; rewrite app_nil_r|done].
Qed.

Lemma adds_warning (d : Report) (w : string) :
  let a := exec (append_warning w) d in
  (compliant a = true -> compliant d = true)
  /\ (exists es, errors a = errors d ++ es)
  /\ (exists ws, warnings a = warnings d ++ ws)
  /\ details a = details d.
Proof.
  split; [done|]. split; [by exists []; rewrite app_nil_r|].
  split; [by eexists|done].
Qed.

(** X15: the augmentation only adds to the deterministic report: it may
    turn [compliant] off but never on, it appends to the errors and to
    the warnings and drops or reorders none, and it leaves the details
    alone. *)
Theorem augmentation_only_adds
    (b : list byte) (sv : StandardVersion) (fn : string) :
  let d := validate_document b sv in
  let a := verdict (validate_document_async b sv fn) in
  (compliant a = true -> compliant d = true)
  /\ (exists es, errors a = errors d ++ es)
  /\ (exists ws, warnings a = warnings d ++ ws)
  /\ details a = details d.
Proof.
  simpl.
  assert ((forall rp,
              evaluate_compliance (extract_text b fn) (rules_json sv) = Reply rp ->
              ai_compliant rp <> Some false)
          \/ extract_text b fn = ""
          \/ exists rp,
               extract_text b fn <> ""
               /\ evaluate_compliance (extract_text b fn) (rules_json sv) = Reply rp
               /\ ai_compliant rp = Some false) as [Hyes|[Hempty|Hno]].
  { destruct (decide (extract_text b fn = "")) as [|Htext]; [by right; left|].
    destruct (evaluate_compliance (extract_text b fn) (rules_json sv))
      as [|rp|e|e]; [by left| |by left..].
    destruct (decide (ai_compliant rp = Some false)) as [Hno|Hyes].
    - right. right. by exists rp.
    - left. by intros rp' [= <-]. }
  - destruct (other_verdicts b sv fn (or_introl Hyes)) as [->|[e ->]];
      [apply adds_nothing|apply adds_warning].
  - destruct (other_verdicts b sv fn (or_intror Hempty)) as [->|[e ->]];
      [apply adds_nothing|apply adds_warning].
  - destruct Hno as (rp & Htext & Hreply & Hno).
    rewrite (rejected_verdict _ _ _ _ Htext Hreply Hno). simpl.
    split; [done|]. split; [by eexists|]. split; [by eexists|done].
Qed.

(** X16: a report that is still compliant after the augmentation lists
    no error. *)
Theorem augmented_compliant_has_no_errors
    (b : list byte) (sv : StandardVersion) (fn : string) :
  compliant (verdict (validate_document_async b sv fn)) = true ->
  errors (verdict (validate_document_async b sv fn)) = [].
Proof.
  assert (forall d : Report, sound d -> compliant d = true -> errors d = [])
    as Hhalf.
  { by intros d [[_ ?]|[-> _]]. }
  pose proof (validate_document_sound b sv) as Hd.
  destruct (decide (extract_text b fn = "")) as [Hempty|Htext].
  { destruct (other_verdicts b sv fn (or_intror Hempty)) as [->|[e ->]];
      by apply Hhalf. }
  destruct (evaluate_compliance (extract_text b fn) (rules_json sv))
    as [|rp|e|e] eqn:Hreply.
  1,3,4: destruct (other_verdicts b sv fn) as [->|[e' ->]];
    [left; intros rp'; by rewrite Hreply|by apply Hhalf..].
  destruct (decide (ai_compliant rp = Some false)) as [Hno|Hyes].
  - by rewrite (rejected_verdict _ _ _ _ Htext Hreply Hno).
  - destruct (other_verdicts b sv fn) as [->|[e' ->]]; [|by apply Hhalf..].
    left. intros rp'. rewrite Hreply. by intros [= <-].
Qed.

(** X17: when the model answers "compliant: false" the report is not
    compliant and the task saves FAIL; the errors are those of the
    deterministic validation followed by one message per violation, in
    order, up to the first violation that is not a dict; there is one more
    warning exactly when such a violation stopped the loop. The errors
    list is empty, though the status is FAIL, exactly when the
    deterministic validation found none and no message was added. *)
Theorem ai_rejection
    (b : list byte) (sv : StandardVersion) (fn : string)
    (rp : ComplianceReport) :
  extract_text b fn <> "" ->
  evaluate_compliance (extract_text b fn) (rules_json sv) = Reply rp ->
  ai_compliant rp = Some false ->
  let d := validate_document b sv in
  let a := validate_document_async b sv fn in
  let vs := get_or (violations rp) [] in
  compliant (verdict a) = false
  /\ task_status a = FAIL
  /\ errors (verdict a) = errors d ++ messages vs
  /\ warnings (verdict a)
     = warnings d ++ match first_exception vs with
                     | Some e => ["AI-enhanced validation failed: " +:+ e]
                     | None => []
                     end
  /\ details (verdict a) = details d
  /\ (errors (verdict a) = [] <-> errors d = [] /\ messages vs = []).
Proof.
  intros Htext Hreply Hno. simpl. unfold task_status.
  rewrite (rejected_verdict _ _ _ _ Htext Hreply Hno). simpl.
  do 5 (split; [done|]). split.
  - by intros [? ?]%app_eq_nil.
  - by intros [-> ->].
Qed.

(** X18: the augmentation is silent when no text was extracted, when the
    model's answer is falsy, and when it is a dict whose "compliant" is
    not [False] (the dict of a failed call among them): the verdict and
    the saved status are those of the deterministic validation. *)
Theorem ai_silent (b : list byte) (sv : StandardVersion) (fn : string) :
  extract_text b fn = ""
  \/ evaluate_compliance (extract_text b fn) (rules_json sv) = Falsy
  \/ (exists rp,
        evaluate_compliance (extract_text b fn) (rules_json sv) = Reply rp
        /\ ai_compliant rp <> Some false) ->
  verdict (validate_document_async b sv fn) = validate_document b sv
  /\ task_status (validate_document_async b sv fn)
     = status_of (compliant (validate_document b sv))
         (warnings (validate_document b sv)).
Proof.
  intros Hcase.
  assert (verdict (validate_document_async b sv fn) = validate_document b sv)
    as Hsame; [|by unfold task_status; rewrite Hsame].
  unfold validate_document_async.
  destruct (truthy (Some (extract_text b fn))) eqn:Htext; [|done].
  destruct Hcase as [Hempty|[Hfalsy|(rp & Hreply & Hyes)]].
  - by rewrite Hempty in Htext.
  - by rewrite Hfalsy.
  - rewrite Hreply. by destruct (ai_compliant rp) as [[|]|].
Qed.

(** X19: an exception of the evaluation never fails a document: the
    verdict is the deterministic report with one more warning, the
    evaluation is recorded as an error and no score is set; so the task
    saves WARN for every document the deterministic validation found
    compliant, never PASS, and FAIL for the others. *)
Theorem ai_exception_downgrades
    (b : list byte) (sv : StandardVersion) (fn e : string) :
  extract_text b fn <> "" ->
  evaluate_compliance (extract_text b fn) (rules_json sv) = Raising e
  \/ evaluate_compliance (extract_text b fn) (rules_json sv) = NotADict e ->
  let d := validate_document b sv in
  let a := validate_document_async b sv fn in
  verdict a = exec (append_warning ("AI-enhanced validation failed: " +:+ e)) d
  /\ ai_evaluation a = Some (EvaluationError e)
  /\ score a = None
  /\ task_status a = if compliant d then WARN else FAIL.
Proof.
  intros Htext Hraise. simpl. unfold task_status, validate_document_async.
  rewrite (truthy_text _ Htext).
  assert (forall r : FullReport,
             status_of (compliant (verdict (failed e r)))
               (warnings (verdict (failed e r)))
             = if compliant (verdict r) then WARN else FAIL) as Hst.
  { intros r. rewrite status_of_cases. simpl.
    destruct (compliant (verdict r)); [|done].
    case_bool_decide as Hw; [|done]. by destruct (warnings (verdict r)). }
  destruct Hraise as [->| ->]; by rewrite Hst.
Qed.

End Augmented.

(** ** Instances *)

Import Examples MoreExamples.

Lemma saved_status_reflects_report_witness :
  let report := @validate_document odt_libraries archive_bytes version_1 in
  let vr := {| vr_document_id := 5%N; vr_standard_version_id := 10%N;
               vr_status := status_of (compliant report) (warnings report);
               report_json := report |} in
  (vr_status vr = FAIL <-> errors (report_json vr) <> [])
  /\ (vr_status vr = WARN
      <-> errors (report_json vr) = [] /\ warnings (report_json vr) <> [])
  /\ (vr_status vr = PASS
      <-> errors (report_json vr) = [] /\ warnings (report_json vr) = []).
Proof.
  apply (@saved_status_reflects_report odt_libraries db_nested
           (stored archive_bytes) 5%N 10%N).
  reflexivity.
Defined.

Lemma pass_needs_clean_odf_witness :
  exists document content doc,
    documents db_nested !! 5%N = Some document
    /\ get_file (stored archive_bytes) (storage_path 5%N document) = Some content
    /\ @is_odf_container odt_libraries content = true
    /\ @odf_load odt_libraries content = inr doc
    /\ topnode_version doc = Some "1.2"
    /\ @_has_macros odt_libraries content = false.
Proof.
  apply (@pass_needs_clean_odf odt_libraries
           {| versions := <[10%N := version_plain]> ∅;
              folders := folders db_nested;
              documents := documents db_nested;
              assignments := [] |}
           (stored archive_bytes) 5%N 10%N
           {| vr_document_id := 5%N; vr_standard_version_id := 10%N;
              vr_status := PASS;
              report_json :=
                @validate_document odt_libraries archive_bytes version_plain |}).
  - by vm_compute.
  - reflexivity.
Defined.

Lemma pdf_and_word_status_witness :
  status_of
    (compliant (@validate_document docm_libraries archive_bytes version_1))
    (warnings (@validate_document docm_libraries archive_bytes version_1))
  = FAIL.
Proof.
  apply (@pdf_and_word_status docm_libraries archive_bytes version_1).
  right. by vm_compute.
Defined.

Lemma augmented_compliant_has_no_errors_witness :
  errors
    (verdict
       (@validate_document_async odt_libraries
          (evaluator "Staff must comply." (Reply error_reply))
          archive_bytes version_plain "report.odt"))
  = [].
Proof.
  apply (@augmented_compliant_has_no_errors odt_libraries
           (evaluator "Staff must comply." (Reply error_reply))).
  by vm_compute.
Defined.

Lemma ai_rejection_witness :
  let d := @validate_document odt_libraries archive_bytes version_plain in
  let a := @validate_document_async odt_libraries
             (evaluator "Staff must comply."
                (Reply (rejection [missing_approval; VOther "no attribute get"])))
             archive_bytes version_plain "report.odt" in
  let vs := [missing_approval; VOther "no attribute get"] in
  compliant (verdict a) = false
  /\ task_status a = FAIL
  /\ errors (verdict a) = errors d ++ messages vs
  /\ warnings (verdict a)
     = warnings d ++ match first_exception vs with
                     | Some e => ["AI-enhanced validation failed: " +:+ e]
                     | None => []
                     end
  /\ details (verdict a) = details d
  /\ (errors (verdict a) = [] <-> errors d = [] /\ messages vs = []).
Proof.
  apply (@ai_rejection odt_libraries
           (evaluator "Staff must comply."
              (Reply (rejection [missing_approval; VOther "no attribute get"])))
           archive_bytes version_plain "report.odt"
           (rejection [missing_approval; VOther "no attribute get"])).
  - discriminate.
  - reflexivity.
  - reflexivity.
Defined.

Example rejection_messages :
  messages [missing_approval; VOther "no attribute get"]
  = ["[MANDATORY] No approval block (authority_chain.approver)"].
Proof. reflexivity. Qed.

Lemma ai_silent_witness :
  verdict
    (@validate_document_async odt_libraries
       (evaluator "Staff must comply." (Reply error_reply))
       archive_bytes version_1 "report.odt")
  = @validate_document odt_libraries archive_bytes version_1
  /\ task_status
       (@validate_document_async odt_libraries
          (evaluator "Staff must comply." (Reply error_reply))
          archive_bytes version_1 "report.odt")
     = status_of
         (compliant (@validate_document odt_libraries archive_bytes version_1))
         (warnings (@validate_document odt_libraries archive_bytes version_1)).
Proof.
  apply (@ai_silent odt_libraries
           (evaluator "Staff must comply." (Reply error_reply))).
  right. right. exists error_reply. by split.
Defined.

Lemma ai_exception_downgrades_witness :
  let d := @validate_document odt_libraries archive_bytes version_plain in
  let a := @validate_document_async odt_libraries
             (evaluator "Staff must comply." (Raising "quota exceeded"))
             archive_bytes version_plain "report.odt" in
  verdict a
  = exec (append_warning "AI-enhanced validation failed: quota exceeded") d
  /\ ai_evaluation a = Some (EvaluationError "quota exceeded")
  /\ score a = None
  /\ task_status a = if compliant d then WARN else FAIL.
Proof.
  apply (@ai_exception_downgrades odt_libraries
           (evaluator "Staff must comply." (Raising "quota exceeded"))
           archive_bytes version_plain "report.odt" "quota exceeded").
  - discriminate.
  - by left.
Defined.

Example clean_document_passes :
  status_of
    (compliant (@validate_document odt_libraries archive_bytes version_plain))
    (warnings (@validate_document odt_libraries archive_bytes version_plain))
  = PASS.
Proof. by vm_compute. Qed.

Lemma malformed_rules_unsupported_witness :
  let checked :=
    exec (@check_macros odt_libraries archive_bytes)
      (exec (check_version (topnode_version odt_document))
         (exec (set_detail "format" "ODF") fresh_report)) in
  let r := @validate_document odt_libraries archive_bytes version_malformed in
  compliant r = false
  /\ errors r = errors checked ++ [msg_unsupported]
  /\ warnings r = warnings checked
  /\ details r = <["format" := "ODF"]> ∅.
Proof.
  apply (@malformed_rules_unsupported odt_libraries archive_bytes
           version_malformed odt_document); reflexivity.
Defined.

Example malformed_rules_report :
  errors (@validate_document odt_libraries archive_bytes version_malformed)
  = [msg_unsupported].
Proof. by vm_compute. Qed.

End EvaluationProofs.

(* ===================================================================== *)
(** * Stored objects, uploads and the validation endpoint *)
(* ===================================================================== *)

Module DocumentProofs.
Import Py Store Validation Inheritance Evaluation Documents.
Import InheritanceProofs.

(** ** Object names *)

Lemma hex_digit_inj (a b : N) :
  (a < 16)%N -> (b < 16)%N -> hex_digit a = hex_digit b -> a = b.
Proof.
  intros Ha Hb.
  assert (forall d, (d < 16)%N ->
            In d [0; 1; 2; 3; 4; 5; 6; 7; 8; 9; 10; 11; 12; 13; 14; 15]%N)
    as Hcases.
  { intros d Hd. simpl. lia. }
  apply Hcases in Ha, Hb. simpl in Ha, Hb.
  repeat destruct Ha as [<-|Ha]; try done;
    repeat destruct Hb as [<-|Hb]; done.
Qed.

Lemma hex_at_inj (n m : N) (i : nat) :
  hex_at n i = hex_at m i ->
  ((n / 16 ^ N.of_nat i) mod 16 = (m / 16 ^ N.of_nat i) mod 16)%N.
Proof. apply hex_digit_inj; by apply N.mod_lt. Qed.

Lemma hex_at_not_i (n : N) (i : nat) : hex_at n i <> "i"%char.
Proof. unfold hex_at, hex_digit. by repeat case_match. Qed.

(** Equal digits up to weight [16 ^ k] make equal residues. *)
Lemma digits_determine (n m : N) (k : nat) :
  (forall i, (i < k)%nat -> hex_at n i = hex_at m i) ->
  (n mod 16 ^ N.of_nat k = m mod 16 ^ N.of_nat k)%N.
Proof.
  induction k as [|k IH]; intros Hd.
  - simpl. by rewrite !N.mod_1_r.
  - rewrite Nat2N.inj_succ, N.pow_succ_r', (N.mul_comm 16).
    rewrite !N.Div0.mod_mul_r.
    rewrite IH by (intros i Hi; apply Hd; lia).
    by rewrite (hex_at_inj n m k) by (apply Hd; lia).
Qed.

(** The 36 characters of a UUID, then the rest of the name. *)
Lemma uuid_prefix_inj (n m : N) (s t : string) :
  uuid_str n +:+ s = uuid_str m +:+ t ->
  (forall i, (i < 32)%nat -> hex_at n i = hex_at m i) /\ s = t.
Proof.
  unfold uuid_str, hex_group.
  cbn [seq rev app List.map string_of_list_ascii String.append].
  intros Heq. simplify_eq. split; [|done].
  intros i Hi. do 32 (destruct i as [|i]; [assumption|]). lia.
Qed.

Lemma object_name_inj (id id' : uuid) (fn fn' : string) :
  (id < 2 ^ 128)%N -> (id' < 2 ^ 128)%N ->
  object_name id fn = object_name id' fn' -> id = id' /\ fn = fn'.
Proof.
  intros Hid Hid' Heq. unfold object_name in Heq.
  apply uuid_prefix_inj in Heq as [Hd Hrest].
  apply (digits_determine _ _ 32) in Hd.
  change (16 ^ N.of_nat 32)%N with (2 ^ 128)%N in Hd.
  rewrite !N.mod_small in Hd by done. by simplify_eq.
Qed.

Lemma object_name_not_fixed (id id' : uuid) (fn fn' : string) :
  object_name id fn <> fixed_object_name id' fn'.
Proof.
  unfold object_name, fixed_object_name, uuid_str at 1, hex_group.
  cbn [seq rev app List.map string_of_list_ascii String.append].
  intros Heq. simplify_eq. by eapply hex_at_not_i.
Qed.



(** X21: a stored upload is never overwritten by the later writes of the
    endpoints: neither by the upload of a document with another id, nor
    by the fixed copy of any document, its own included. *)
Theorem stored_upload_survives
    (storage : gmap string (list byte)) (ws : list Write)
    (id : uuid) (fn : string) (content : list byte) :
  (id < 2 ^ 128)%N ->
  get_file storage (object_name id fn) = Some content ->
  Forall (fun w => match w with
                   | StoreUpload id' _ _ => id' <> id /\ (id' < 2 ^ 128)%N
                   | StoreFixed _ _ _ => True
                   end) ws ->
  get_file (fold_left perform ws storage) (object_name id fn) = Some content.
Proof.
  intros Hid Hget Hws. revert storage Hget.
  induction Hws as [|w ws Hw _ IH]; intros storage Hget; [done|].
  simpl. apply IH. unfold get_file, perform, upload_file in *.
  destruct w as [id' fn' c|id' fn' c].
  - destruct Hw as [Hne Hid']. rewrite lookup_insert_ne; [done|].
    intros Heq. by apply object_name_inj in Heq as [? _].
  - rewrite lookup_insert_ne; [done|].
    intros Heq. by apply (object_name_not_fixed id id' fn fn').
Qed.



(** ** Renaming, deleting and the names of the stored objects *)

Lemma named_storage_path (db : Db) (d : uuid) (document : Document) :
  named_by_id db -> documents db !! d = Some document ->
  exists fn, minio_version_id document = Some (object_name d fn)
             /\ storage_path d document = object_name d fn.
Proof.
  intros Hn Hd. destruct (Hn _ _ Hd) as [_ [fn Hfn]]. exists fn.
  split; [done|]. unfold storage_path. by rewrite Hfn.
Qed.

(** The endpoint reads the table of documents at one key only. *)
Lemma endpoint_same_row `{Libraries} (db db' : Db)
    (storage storage' : gmap string (list byte)) (d v : uuid) :
  versions db' = versions db ->
  documents db' !! d = documents db !! d ->
  (forall document, documents db !! d = Some document ->
     get_file storage' (storage_path d document)
     = get_file storage (storage_path d document)) ->
  validate_document_endpoint db' storage' d v
  = validate_document_endpoint db storage d v.
Proof.
  intros Hv Hd Hs. unfold validate_document_endpoint. rewrite Hv, Hd.
  destruct (documents db !! d) as [document|]; [|done].
  by rewrite (Hs document).
Qed.

(** X23: renaming a document does not lose its content: the row keeps the
    name of the stored object, so the validation endpoint answers for
    every document and version as before the renaming. *)
Theorem rename_keeps_content `{Libraries}
    (db : Db) (storage : gmap string (list byte)) (d : uuid)
    (new_name : string) (db' : Db) (document' : Document) :
  named_by_id db ->
  rename_document db d new_name = OK (db', document') ->
  named_by_id db'
  /\ Store.filename document' = new_name
  /\ forall d' v,
       validate_document_endpoint db' storage d' v
       = validate_document_endpoint db storage d' v.
Proof.
  intros Hn. unfold rename_document.
  destruct (documents db !! d) as [document|] eqn:Hd; [|done].
  intros [= <- <-].
  destruct (named_storage_path _ _ _ Hn Hd) as (fn & Hid & Hpath).
  split; [|split; [done|]].
  - intros d' doc'. simpl. intros Hd'.
    apply lookup_insert_Some in Hd' as [[<- <-]|[_ Hd']]; [|by apply Hn].
    split; [by apply (Hn _ _ Hd)|]. by exists fn.
  - intros d' v. unfold validate_document_endpoint. simpl.
    destruct (decide (d' = d)) as [->|Hne].
    + rewrite lookup_insert_eq, Hd.
      destruct (versions db !! v); [|done].
      unfold storage_path in *. simpl. by rewrite Hid in *.
    + by rewrite lookup_insert_ne.
Qed.


(** X25: an upload adds one row and one object: the new row carries the
    name of its object, and the endpoint answers for every other document
    as before. *)
Theorem upload_leaves_others `{Libraries}
    (sha256 : list byte -> string) (fuel : nat) (db : Db)
    (storage : gmap string (list byte)) (content : list byte)
    (filename : string) (folder_id : option uuid) (doc_id : uuid) :
  named_by_id db ->
  (doc_id < 2 ^ 128)%N ->
  let u := upload_document sha256 fuel db storage content filename
             folder_id doc_id in
  named_by_id (up_db u)
  /\ forall d' v,
       d' <> doc_id ->
       validate_document_endpoint (up_db u) (up_storage u) d' v
       = validate_document_endpoint db storage d' v.
Proof.
  intros Hn Hid. simpl. split.
  - intros d' doc'. simpl. intros Hd'.
    apply lookup_insert_Some in Hd' as [[<- <-]|[_ Hd']]; [|by apply Hn].
    split; [done|]. by exists filename.
  - intros d' v Hne. apply endpoint_same_row; simpl; [done| |].
    + by rewrite lookup_insert_ne.
    + intros doc' Hd'.
      destruct (named_storage_path _ _ _ Hn Hd') as (fn' & _ & Hpath').
      rewrite Hpath'. unfold get_file, upload_file.
      rewrite lookup_insert_ne; [done|]. intros Heq.
      apply object_name_inj in Heq as [? _]; [done|done|].
      by apply (Hn _ _ Hd').
Qed.

(** ** Instances *)

Import Examples MoreExamples.


Lemma stored_upload_survives_witness :
  get_file
    (fold_left perform
       [StoreFixed 5%N "report.odt" plain_text;
        StoreUpload 6%N "report.odt" plain_text]
       (stored archive_bytes))
    (object_name 5%N "report.odt")
  = Some archive_bytes.
Proof.
  apply (stored_upload_survives (stored archive_bytes)
           [StoreFixed 5%N "report.odt" plain_text;
            StoreUpload 6%N "report.odt" plain_text]
           5%N "report.odt" archive_bytes).
  - reflexivity.
  - by vm_compute.
  - constructor; [exact Logic.I|]. constructor; [|constructor].
    split; [discriminate|reflexivity].
Defined.


Example upload_job_nested :
  up_job (upload_document digest 2 db_nested ∅ archive_bytes "policy.odt"
            (Some 2%N) 6%N)
  = Returns (Some version_1).
Proof. by vm_compute. Qed.

Example uuid_str_example :
  uuid_str 255 = "00000000-0000-0000-0000-0000000000ff".
Proof. reflexivity. Qed.

Lemma db_stored_named : named_by_id db_stored.
Proof.
  intros d document Hd. unfold db_stored in Hd. simpl in Hd.
  apply lookup_insert_Some in Hd as [[<- <-]|[_ Hd]].
  - split; [done|]. by exists "policy.odt".
  - by rewrite lookup_empty in Hd.
Qed.

Lemma rename_keeps_content_witness :
  let db' :=
    {| versions := versions db_stored; folders := folders db_stored;
       documents :=
         <[6%N := {| filename := "renamed.odt";
                     folder_id := Some 2%N;
                     minio_version_id := Some (object_name 6 "policy.odt");
                     hash := "digest" |}]> (documents db_stored);
       assignments := assignments db_stored |} in
  named_by_id db'
  /\ "renamed.odt" = "renamed.odt"
  /\ forall d' v,
       @validate_document_endpoint odt_libraries db' bucket d' v
       = @validate_document_endpoint odt_libraries db_stored bucket d' v.
Proof.
  apply (@rename_keeps_content odt_libraries db_stored bucket 6%N "renamed.odt"
           _ {| filename := "renamed.odt";
                folder_id := Some 2%N;
                minio_version_id := Some (object_name 6 "policy.odt");
                hash := "digest" |}).
  - exact db_stored_named.
  - reflexivity.
Defined.


(** Before the deletion the endpoint validates document 6; after it the
    row is still found and reading the object raises. *)
Example deleted_document_still_listed :
  (exists vr,
      @validate_document_endpoint odt_libraries db_stored bucket 6%N 10%N
      = OK vr)
  /\ match delete_document db_stored bucket 6%N with
     | OK (db', storage') =>
         is_Some (documents db' !! 6%N)
         /\ @validate_document_endpoint odt_libraries db' storage' 6%N 10%N
            = Unhandled
     | _ => False
     end.
Proof.
  split; [eexists; by vm_compute|]. split; [by eexists|by vm_compute].
Qed.

Lemma upload_leaves_others_witness :
  let u := upload_document digest 3 db_stored bucket plain_text "notes.txt"
             None 7%N in
  named_by_id (up_db u)
  /\ forall d' v,
       d' <> 7%N ->
       @validate_document_endpoint odt_libraries (up_db u) (up_storage u) d' v
       = @validate_document_endpoint odt_libraries db_stored bucket d' v.
Proof.
  apply (@upload_leaves_others odt_libraries digest 3 db_stored bucket plain_text
           "notes.txt" None 7%N).
  - exact db_stored_named.
  - reflexivity.
Defined.

End DocumentProofs.

(* ===================================================================== *)
(** * The oracle protocol and the auto-fix endpoint *)
(* ===================================================================== *)

Module FixingProofs.
Import Py Store Inheritance Documents DecisionFlow Fixing.
Import DecisionFlowProofs DocumentProofs.

Section WithOracle.
Context `{Oracle}.

(** A gate that lets a transformation through was opened by a score of
    at least 40. *)
Lemma open_gate (s : Q) (safe cond : list Rule) :
  String.eqb (g_action (build_approved s safe cond)) "report_only" = false ->
  (40 <= s)%Q.
Proof.
  unfold build_approved.
  destruct (Qle_bool 75 s) eqn:Hhi.
  - intros _. apply Qle_bool_iff in Hhi.
    eapply Qle_trans; [|exact Hhi]. done.
  - destruct (Qle_bool 40 s) eqn:Hlo; [|done].
    intros _. by apply Qle_bool_iff.
Qed.

(** What a run of the transformation phase can leave behind. *)
Lemma transform_phase_run fname std level text compat s rk selected safe cond :
  let g := build_approved s safe cond in
  let p := transform_phase fname std level text compat s rk selected g in
  score p.1 = s
  /\ ((p.2 = [] /\ transformed_content p.1 = None)
      \/ ((40 <= s)%Q
          /\ p.2 = [CallTransform text
                      {| approved_rules := List.map approve (g_approved g);
                         source_standard := std |} level])).
Proof.
  simpl. unfold transform_phase.
  destruct (negb (String.eqb _ _) && _) eqn:Hopen.
  - apply andb_true_iff in Hopen as [Hopen _].
    apply negb_true_iff, open_gate in Hopen.
    destruct (unpack _) as [[[tc dv] pi] cs]. simpl. split; [done|by right].
  - simpl. split; [done|by left].
Qed.

(** X26: [apply] talks to the oracle in one fixed order and stops at the
    first failure: its calls are a prefix of analyze, select, transform,
    all about the extracted text and the given standard; nothing is
    called when no text was extracted; the third call is made only with a
    score of at least 40 and only in a run that returns no error. *)
Theorem apply_call_protocol
    (b : list byte) (fname : string) (std : json) (level : string) :
  let text := extract_text b fname in
  let s := get_or (total_score (analyze_compatibility std text)) 0%Q in
  let run := apply b fname std level in
  exists (n : nat) (approved_json : ApprovedJson),
    run.2 = firstn n [CallAnalyze std text; CallSelect std s;
                      CallTransform text approved_json level]
    /\ (n <= 3)%nat
    /\ (n = 0%nat <-> text = "")
    /\ (has_error run.1 = true -> (n <= 2)%nat)
    /\ (n = 3%nat -> (40 <= s)%Q).
Proof.
  simpl. unfold apply, analyze.
  pose (aj0 := {| approved_rules := []; source_standard := std |}).
  destruct (extract_text b fname) as [|c text] eqn:Htext; simpl.
  { exists 0%nat, aj0. repeat split; try done; lia. }
  destruct (c_error _) as [e|] eqn:Herr; simpl.
  { exists 1%nat, aj0. repeat split; try done; lia. }
  destruct (rs_error _) as [e|] eqn:Hsel; simpl.
  { exists 2%nat, aj0. repeat split; try done; lia. }
  match goal with
  | |- context [transform_phase ?f ?st ?l ?t ?cp ?sc ?rk ?sel
                  (build_approved ?sc ?sf ?cd)] =>
      destruct (transform_phase_run f st l t cp sc rk sel sf cd)
        as [_ [[Hcalls _]|[Hs Hcalls]]];
      destruct (transform_phase f st l t cp sc rk sel
                  (build_approved sc sf cd)) as [rep tcalls]
  end; simpl in *; subst tcalls.
  - exists 2%nat, aj0. repeat split; try done; lia.
  - eexists 3%nat, _. repeat split; try done; lia.
Qed.

(** A returned transformation was gated by the score. *)
Lemma apply_transformed b fname std level rep calls text :
  apply b fname std level = (Decision rep, calls) ->
  transformed_content rep = Some text ->
  (40 <= score rep)%Q.
Proof.
  unfold apply.
  destruct (analyze b fname std) as [[| |text0 compat s rk] calls0]; try done.
  destruct (rs_error _); [done|].
  match goal with
  | |- context [transform_phase ?f ?st ?l ?t ?cp ?sc ?rk ?sel
                  (build_approved ?sc ?sf ?cd)] =>
      destruct (transform_phase_run f st l t cp sc rk sel sf cd)
        as [Hscore [[_ Hnone]|[Hs _]]];
      destruct (transform_phase f st l t cp sc rk sel
                  (build_approved sc sf cd)) as [rep' tcalls]
  end; simpl in *; intros [= <- _].
  - by rewrite Hnone.
  - by rewrite Hscore.
Qed.

(** X27: the auto-fix never touches an uploaded object: whatever its
    response, every object stored under an upload name reads as before;
    the bucket changes only on a 200 response whose fixed content is not
    empty and whose score is at least 40, and then only at the fixed
    name of the document. *)
Theorem fix_document_writes
    (encode : string -> list byte) (fuel : nat) (db : Db)
    (storage : gmap string (list byte)) (d : uuid) (level : string)
    (storage' : gmap string (list byte)) (r : response FixResponse) :
  fix_document encode fuel db storage d level = Returns (storage', r) ->
  (forall id fn,
      get_file storage' (object_name id fn) = get_file storage (object_name id fn))
  /\ (storage' = storage
      \/ exists resp text,
           r = OK resp
           /\ fixed_content resp = Some text /\ text <> ""
           /\ (40 <= ds_score (decision_flow resp))%Q
           /\ storage'
              = upload_file storage (encode text)
                  (fixed_object_name d (fr_filename resp))).
Proof.
  unfold fix_document.
  destruct (get_effective_standard_version fuel db d DOCUMENT) as [[sv|]|];
    [| |done]; [|by intros [= <- <-]; split; [|left]].
  destruct (documents db !! d) as [document|];
    [|by intros [= <- <-]; split; [|left]].
  destruct (get_file storage _) as [content|];
    [|by intros [= <- <-]; split; [|left]].
  destruct (apply content _ _ level) as [[a|? ? ? ? ?|rep] calls] eqn:Hrun;
    [by intros [= <- <-]; split; [|left]..|].
  intros [= <- <-].
  destruct (transformed_content rep) as [[|c text]|] eqn:Htc;
    [by split; [|left]| |by split; [|left]].
  split.
  - intros id fn. unfold get_file, upload_file.
    rewrite lookup_insert_ne; [done|]. intros Heq.
    by apply (object_name_not_fixed id d fn (Store.filename document)).
  - right. eexists _, (String c text). simpl.
    repeat split; try done. by apply (apply_transformed _ _ _ _ _ _ _ Hrun Htc).
Qed.

End WithOracle.

(** ** Instances *)

Import Examples MoreExamples.

Lemma fix_document_writes_witness :
  let run :=
    @fix_document (oracle 80 partitioned transformed) list_byte_of_string 3
      db_nested (stored policy_text) 5%N "general" in
  let storage' :=
    match run with
    | Returns (s, _) => s
    | StillWalking => ∅
    end in
  let r :=
    match run with
    | Returns (_, r) => r
    | StillWalking => Unhandled
    end in
  (forall id fn,
      get_file storage' (object_name id fn)
      = get_file (stored policy_text) (object_name id fn))
  /\ (storage' = stored policy_text
      \/ exists resp text,
           r = OK resp
           /\ fixed_content resp = Some text /\ text <> ""
           /\ (40 <= ds_score (decision_flow resp))%Q
           /\ storage'
              = upload_file (stored policy_text) (list_byte_of_string text)
                  (fixed_object_name 5%N (fr_filename resp))).
Proof.
  apply (@fix_document_writes (oracle 80 partitioned transformed)
           list_byte_of_string 3 db_nested (stored policy_text) 5%N "general").
  by vm_compute.
Defined.

Example fix_document_stores_fixed_copy :
  match @fix_document (oracle 80 partitioned transformed) list_byte_of_string 3
          db_nested (stored policy_text) 5%N "general" with
  | Returns (s, OK resp) =>
      fixed_content resp = Some "# Policy"
      /\ get_file s (fixed_object_name 5%N "report.odt")
         = Some (list_byte_of_string "# Policy")
  | _ => False
  end.
Proof. by vm_compute. Qed.

End FixingProofs.

(* ===================================================================== *)
(** * Promoting a document and applying the latest version *)
(* ===================================================================== *)

Module StandardProofs.
Import Py Store Inheritance Assignments Folders Documents Standards.

Lemma in_versions_of (db : Db) (sid id : uuid) (v : StandardVersion) :
  In (id, v) (versions_of db sid)
  <-> versions db !! id = Some v /\ standard_id v = sid.
Proof.
  unfold versions_of. rewrite filter_In, <- list_elem_of_In.
  rewrite elem_of_map_to_list. simpl. by rewrite bool_decide_eq_true.
Qed.

Lemma filter_length_perm {A : Type} (f : A -> bool) (l l' : list A) :
  l ≡ₚ l' -> length (List.filter f l) = length (List.filter f l').
Proof.
  induction 1 as [|x l l' _ IH|x y l|l l' l'' _ IH1 _ IH2]; simpl.
  - done.
  - destruct (f x); simpl; by rewrite IH.
  - by destruct (f x), (f y).
  - by rewrite IH1.
Qed.

Lemma with_version_count (db : Db) (new_id sid : uuid) (v : StandardVersion) :
  versions db !! new_id = None ->
  length (List.filter
            (fun kv : N * StandardVersion => bool_decide (standard_id kv.2 = sid))
            (map_to_list (<[new_id := v]> (versions db))))
  = ((if bool_decide (standard_id v = sid) then 1 else 0)
     + length (versions_of db sid))%nat.
Proof.
  intros Hfresh.
  rewrite (filter_length_perm _ _ _ (map_to_list_insert _ _ _ Hfresh)).
  simpl. unfold versions_of. by case_bool_decide.
Qed.

Lemma find_none_app {A : Type} (f : A -> bool) (l l' : list A) :
  List.find f l = None -> List.find f (l ++ l') = List.find f l'.
Proof.
  induction l as [|a l IH]; [done|]. simpl. by destruct (f a).
Qed.

Lemma latest_None rows : latest rows = None -> rows = [].
Proof.
  destruct rows as [|kv rows]; [done|]. simpl.
  destruct (latest rows) as [best|]; [|done]. by destruct (_ <? _)%Z.
Qed.

Lemma latest_max rows best :
  latest rows = Some best ->
  In best rows
  /\ forall kv, In kv rows -> (version_number kv.2 <= version_number best.2)%Z.
Proof.
  revert best. induction rows as [|kv rows IH]; [done|]. simpl. intros best.
  destruct (latest rows) as [b|] eqn:Hl.
  - destruct (IH b eq_refl) as [Hin Hmax].
    destruct (version_number b.2 <? version_number kv.2)%Z eqn:Hlt.
    + intros [= <-]. split; [by left|]. intros kv' [<-|Hin']; [lia|].
      apply Z.ltb_lt in Hlt. specialize (Hmax _ Hin'). lia.
    + intros [= <-]. split; [by right|]. intros kv' [<-|Hin'].
      * apply Z.ltb_ge in Hlt. lia.
      * by apply Hmax.
  - apply latest_None in Hl as ->. intros [= <-]. split; [by left|].
    intros kv' [<-|[]]. lia.
Qed.

Lemma in_active (db : Db) (sid id : uuid) (v : StandardVersion) :
  In (id, v)
    (List.filter (fun kv : N * StandardVersion => is_active kv.2)
       (versions_of db sid))
  <-> versions db !! id = Some v /\ standard_id v = sid /\ is_active v = true.
Proof. rewrite filter_In, in_versions_of. simpl. tauto. Qed.

(** What [get_active_version] returns: an active version of the standard
    with the greatest number, and nothing only when there is none. *)
Lemma get_active_version_latest (db : Db) (sid : uuid) :
  match get_active_version db sid with
  | Some (id, v) =>
      versions db !! id = Some v /\ standard_id v = sid /\ is_active v = true
      /\ forall id' v',
           versions db !! id' = Some v' -> standard_id v' = sid ->
           is_active v' = true ->
           (version_number v' <= version_number v)%Z
  | None =>
      forall id' v',
        versions db !! id' = Some v' -> standard_id v' = sid ->
        is_active v' = false
  end.
Proof.
  unfold get_active_version.
  destruct (latest _) as [[id v]|] eqn:Hl.
  - apply latest_max in Hl as [Hin Hmax]. apply in_active in Hin.
    destruct Hin as (Hid & Hsid & Hact). repeat split; try done.
    intros id' v' Hid' Hsid' Hact'.
    apply (Hmax (id', v')). by apply in_active.
  - apply latest_None in Hl. intros id' v' Hid' Hsid'.
    destruct (is_active v') eqn:Hact; [|done].
    assert (In (id', v')
              (List.filter (fun kv : N * StandardVersion => is_active kv.2)
                 (versions_of db sid))) as Hin by by apply in_active.
    by rewrite Hl in Hin.
Qed.

Section WithExtractor.
Context `{RuleExtractor}.

(** What a successful promotion adds. *)
Lemma promote_run standards db storage sid d new_id db' v :
  promote_document_to_standard standards db storage sid d new_id = OK (db', v) ->
  standard_id v = sid /\ is_active v = true
  /\ version_number v = (Z.of_nat (length (versions_of db sid)) + 1)%Z
  /\ versions db' = <[new_id := v]> (versions db)
  /\ folders db' = folders db /\ documents db' = documents db
  /\ assignments db' = assignments db.
Proof.
  unfold promote_document_to_standard.
  destruct (standards !! sid); [|done].
  destruct (documents db !! d) as [document|]; [|done].
  destruct (get_file storage _) as [content|]; [|done].
  destruct (extract_rules_async content _) as [e|rules]; [done|].
  by intros [= <- <-].
Qed.

Lemma promoted_is_active standards db storage sid d new_id db' v :
  numbered db sid ->
  versions db !! new_id = None ->
  promote_document_to_standard standards db storage sid d new_id = OK (db', v) ->
  get_active_version db' sid = Some (new_id, v).
Proof.
  intros Hnum Hfresh Hrun.
  destruct (promote_run _ _ _ _ _ _ _ _ Hrun)
    as (Hsid & Hact & Hnumber & Hversions & _).
  pose proof (get_active_version_latest db' sid) as Hlatest.
  destruct (get_active_version db' sid) as [[id b]|].
  - destruct Hlatest as (Hid & Hbsid & _ & Hmax).
    rewrite Hversions in Hid.
    apply lookup_insert_Some in Hid as [[<- <-]|[_ Hid]]; [done|].
    specialize (Hmax new_id v). rewrite Hversions, lookup_insert_eq in Hmax.
    specialize (Hmax eq_refl Hsid Hact).
    specialize (Hnum _ _ Hid Hbsid). lia.
  - specialize (Hlatest new_id v).
    rewrite Hversions, lookup_insert_eq in Hlatest.
    specialize (Hlatest eq_refl Hsid). congruence.
Qed.

(** X28: promotions number the versions of a standard 1, 2, 3, ...: when
    no version number of the standard exceeds the count of its versions,
    which holds for a standard without versions and is kept by every
    promotion, for this and for every other standard, a promoted
    document becomes the version with the next number, and it is the
    version [get_active_version] returns from then on. *)
Theorem promote_becomes_active
    (standards : gmap N Standard) (db : Db)
    (storage : gmap string (list byte)) (sid d new_id : uuid)
    (db' : Db) (v : StandardVersion) :
  numbered db sid ->
  versions db !! new_id = None ->
  promote_document_to_standard standards db storage sid d new_id = OK (db', v) ->
  get_active_version db' sid = Some (new_id, v)
  /\ version_number v = (Z.of_nat (length (versions_of db sid)) + 1)%Z
  /\ forall sid', numbered db sid' -> numbered db' sid'.
Proof.
  intros Hnum Hfresh Hrun.
  destruct (promote_run _ _ _ _ _ _ _ _ Hrun)
    as (Hsid & Hact & Hnumber & Hversions & _).
  assert (forall sid',
             length (versions_of db' sid')
             = ((if bool_decide (standard_id v = sid') then 1 else 0)
                + length (versions_of db sid'))%nat) as Hcount.
  { intros sid'. unfold versions_of at 1. rewrite Hversions.
    by apply with_version_count. }
  split; [by eapply promoted_is_active|split; [done|]].
  - intros sid' Hnum' id v' Hid Hsid'. rewrite Hcount.
    rewrite Hversions in Hid.
    apply lookup_insert_Some in Hid as [[<- <-]|[_ Hid]].
    + rewrite bool_decide_eq_true_2 by done.
      assert (sid' = sid) as -> by congruence. lia.
    + specialize (Hnum' _ _ Hid Hsid'). case_bool_decide; lia.
Qed.

(** X29: from promotion to resolution: after a document was promoted to
    a version of a standard, applying the standard to a document that no
    assignment binds yet adds one assignment, and the resolver then
    answers the promoted version for that document. *)
Theorem promote_then_apply
    (standards : gmap N Standard) (db : Db)
    (storage : gmap string (list byte)) (sid d new_id target : uuid)
    (db' : Db) (v : StandardVersion) (fuel : nat) :
  numbered db sid ->
  versions db !! new_id = None ->
  select_assignment db target DOCUMENT = None ->
  promote_document_to_standard standards db storage sid d new_id = OK (db', v) ->
  exists db'',
    apply_standard_to_document db' sid target = OK db''
    /\ assignments db''
       = assignments db ++ [new_assignment target DOCUMENT new_id]
    /\ get_effective_standard_version fuel db'' target DOCUMENT
       = Returns (Some v).
Proof.
  intros Hnum Hfresh Hunbound Hrun.
  destruct (promote_run _ _ _ _ _ _ _ _ Hrun)
    as (_ & _ & _ & Hversions & _ & _ & Hrows).
  assert (get_active_version db' sid = Some (new_id, v)) as Hactive
    by by eapply promoted_is_active.
  unfold apply_standard_to_document. rewrite Hactive.
  unfold select_assignment in Hunbound.
  assert (List.filter (on_target_version target DOCUMENT new_id) (assignments db')
          = []) as Hnone.
  { rewrite Hrows. clear -Hunbound.
    induction (assignments db) as [|a rows IH]; [done|]. simpl in *.
    unfold on_target_version at 1.
    destruct (on_target target DOCUMENT a); [done|]. simpl. by apply IH. }
  unfold apply_to_document. rewrite Hnone. simpl.
  eexists. split; [done|]. split; [by simpl; rewrite Hrows|].
  unfold get_effective_standard_version, select_assignment. simpl.
  rewrite Hrows, find_none_app by done. simpl.
  unfold on_target. simpl. rewrite !bool_decide_eq_true_2 by done. simpl.
  unfold get_version. simpl. by rewrite Hversions, lookup_insert_eq.
Qed.

End WithExtractor.

(** ** Instances *)

Import Examples MoreExamples.

Lemma db_nested_numbered : numbered db_nested 100%N.
Proof.
  intros id v Hid _. unfold db_nested in Hid. simpl in Hid.
  apply lookup_insert_Some in Hid as [[<- <-]|[_ Hid]]; [by vm_compute|].
  by rewrite lookup_empty in Hid.
Qed.

Lemma promote_becomes_active_witness :
  get_active_version db_promoted 100%N = Some (11%N, version_promoted)
  /\ version_number version_promoted
     = (Z.of_nat (length (versions_of db_nested 100%N)) + 1)%Z
  /\ forall sid', numbered db_nested sid' -> numbered db_promoted sid'.
Proof.
  apply (@promote_becomes_active (extractor (inr extracted_rules)) standards_one
           db_nested (stored archive_bytes) 100%N 5%N 11%N).
  - exact db_nested_numbered.
  - reflexivity.
  - by vm_compute.
Defined.

Lemma promote_then_apply_witness :
  exists db'',
    apply_standard_to_document db_promoted 100%N 5%N = OK db''
    /\ assignments db''
       = assignments db_nested ++ [new_assignment 5%N DOCUMENT 11%N]
    /\ get_effective_standard_version 0 db'' 5%N DOCUMENT
       = Returns (Some version_promoted).
Proof.
  apply (@promote_then_apply (extractor (inr extracted_rules)) standards_one
           db_nested (stored archive_bytes) 100%N 5%N 11%N 5%N db_promoted
           version_promoted 0).
  - exact db_nested_numbered.
  - reflexivity.
  - reflexivity.
  - by vm_compute.
Defined.

End StandardProofs.
